(** * Query intelligence and safety pipeline: a Rocq model

    A shallow embedding of the deterministic parts of the NL-to-SQL
    generator:
    - [app/core/query_validator.py]  (class [QueryValidator]),
    - [app/core/few_shot_learning.py] (class [FewShotLearning]),
    - [app/core/mock_nl2sql.py]      (class [MockNL2SQLGenerator]),
    - [app/core/nl2sql.py]           (class [NL2SQLGenerator]: cleaning
      and executing a generated statement),
    - [app/core/schema_extractor.py] (class [SchemaExtractor]: building
      and formatting the schema),
    - [app/utils/helpers.py]         (the functions on texts, parsed
      statements and result rows).

    Modelling conventions.
    - A Python [str] is a list of Unicode code points.  Whitespace is
      the class of Python.  Case mapping and case-insensitive matching
      are those of Python on ASCII and on every code point that they
      relate to an ASCII letter; any other code point is taken as a
      symbol without case.
    - The [re] module is modelled by a small backtracking matcher for the
      pattern language the sources use (literals, the classes \s \w \d and
      the dot, the quantifiers + * *?, the anchor $ and one capturing
      group).
    - [sqlparse] is an external library: its [parse] function is a
      parameter of the validator.  So is the order in which Python visits
      a set.  The database, the schema extractor and pandas are
      parameters of the functions that call them.
    - A Python exception is an explicit result ([Raised ...]). *)

From Stdlib Require Import Ascii String.
From Stdlib Require Import List Bool Arith ZArith QArith Lia.
From Stdlib Require Import Permutation Sorted.
Import ListNotations.

Close Scope Q_scope.
Local Open Scope nat_scope.
Local Open Scope list_scope.
Local Open Scope bool_scope.

(* ================================================================== *)
(** ** Python strings *)
(* ================================================================== *)

Module PyStr.

(** A character is a Unicode code point. *)
Definition char := N.
Definition str := list char.

(** A character and a string literal of the source. *)
Definition ch (a : ascii) : char := N_of_ascii a.
Definition L (s : string) : str := map ch (list_ascii_of_string s).

Definition char_eqb (a b : char) : bool := N.eqb a b.

Definition in_range (lo hi : N) (c : char) : bool :=
  N.leb lo c && N.leb c hi.

Definition is_ascii (c : char) : bool := N.ltb c 128.

(** [str.isspace] on one character, which is also the class of the
    pattern escape for whitespace: TAB, LF, VT, FF, CR, the separators
    FS GS RS US, the blank, and the Unicode spaces U+0085, U+00A0,
    U+1680, U+2000..U+200A, U+2028, U+2029, U+202F, U+205F, U+3000. *)
Definition is_space (c : char) : bool :=
  in_range 9 13 c || in_range 28 32 c
  || existsb (char_eqb c) [133; 160; 5760; 8232; 8233; 8239; 8287; 12288]%N
  || in_range 8192 8202 c.

(** The ASCII letters and digits. *)
Definition is_lower (c : char) : bool := in_range 97 122 c.
Definition is_upper (c : char) : bool := in_range 65 90 c.
Definition is_digit (c : char) : bool := in_range 48 57 c.

(** The letters outside ASCII that Python's case rules connect to ASCII
    letters: capital I with dot, dotless i, long s and the Kelvin sign. *)
Definition dotted_I : char := 304%N.
Definition dotless_i : char := 305%N.
Definition long_s : char := 383%N.
Definition kelvin : char := 8490%N.

(** The classes of the pattern escapes for word characters and digits.
    They are exact on ASCII; outside ASCII only the four letters above
    are taken as word characters. *)
Definition is_word (c : char) : bool :=
  is_lower c || is_upper c || is_digit c || char_eqb c (ch "_")
  || existsb (char_eqb c) [dotted_I; dotless_i; long_s; kelvin].

Fixpoint assoc {V : Type} (c : char) (table : list (char * V)) : option V :=
  match table with
  | [] => None
  | (k, v) :: table' => if char_eqb c k then Some v else assoc c table'
  end.

(** [str.upper()] on the code points outside ASCII whose upper-case form
    holds an ASCII letter; there are no others. *)
Definition upper_special : list (char * str) :=
  [ (223,   L "SS");                 (* sharp s *)
    (305,   L "I");                  (* dotless i *)
    (329,   [700] ++ L "N");         (* n preceded by apostrophe *)
    (383,   L "S");                  (* long s *)
    (496,   L "J" ++ [780]);         (* j with caron *)
    (7830,  L "H" ++ [817]);         (* h with line below *)
    (7831,  L "T" ++ [776]);         (* t with diaeresis *)
    (7832,  L "W" ++ [778]);         (* w with ring above *)
    (7833,  L "Y" ++ [778]);         (* y with ring above *)
    (7834,  L "A" ++ [702]);         (* a with right half ring *)
    (64256, L "FF"); (64257, L "FI"); (64258, L "FL");
    (64259, L "FFI"); (64260, L "FFL");
    (64261, L "ST"); (64262, L "ST") ]%N.

(** [str.lower()] outside ASCII.  The tables are those of the Unicode
    character database 14.0, which CPython 3.11 carries.

    The simple lower-case mappings, as runs: [(first, last, step, image)]
    maps [first], [first + step], ..., [last] to [image],
    [image + step], ...  The runs are disjoint. *)
Definition lower_runs : list (N * N * N * N) :=
  [
    (192, 214, 1, 224); (216, 222, 1, 248); (256, 302, 2, 257); (306, 310,
    2, 307); (313, 327, 2, 314); (330, 374, 2, 331); (376, 376, 1, 255);
    (377, 381, 2, 378); (385, 385, 1, 595); (386, 388, 2, 387); (390, 390,
    1, 596); (391, 391, 1, 392); (393, 394, 1, 598); (395, 395, 1, 396);
    (398, 398, 1, 477); (399, 399, 1, 601); (400, 400, 1, 603); (401, 401,
    1, 402); (403, 403, 1, 608); (404, 404, 1, 611); (406, 406, 1, 617);
    (407, 407, 1, 616); (408, 408, 1, 409); (412, 412, 1, 623); (413, 413,
    1, 626); (415, 415, 1, 629); (416, 420, 2, 417); (422, 422, 1, 640);
    (423, 423, 1, 424); (425, 425, 1, 643); (428, 428, 1, 429); (430, 430,
    1, 648); (431, 431, 1, 432); (433, 434, 1, 650); (435, 437, 2, 436);
    (439, 439, 1, 658); (440, 440, 1, 441); (444, 444, 1, 445); (452, 452,
    1, 454); (453, 453, 1, 454); (455, 455, 1, 457); (456, 456, 1, 457);
    (458, 458, 1, 460); (459, 475, 2, 460); (478, 494, 2, 479); (497, 497,
    1, 499); (498, 500, 2, 499); (502, 502, 1, 405); (503, 503, 1, 447);
    (504, 542, 2, 505); (544, 544, 1, 414); (546, 562, 2, 547); (570, 570,
    1, 11365); (571, 571, 1, 572); (573, 573, 1, 410); (574, 574, 1, 11366);
    (577, 577, 1, 578); (579, 579, 1, 384); (580, 580, 1, 649); (581, 581,
    1, 652); (582, 590, 2, 583); (880, 882, 2, 881); (886, 886, 1, 887);
    (895, 895, 1, 1011); (902, 902, 1, 940); (904, 906, 1, 941); (908, 908,
    1, 972); (910, 911, 1, 973); (913, 929, 1, 945); (931, 939, 1, 963);
    (975, 975, 1, 983); (984, 1006, 2, 985); (1012, 1012, 1, 952); (1015,
    1015, 1, 1016); (1017, 1017, 1, 1010); (1018, 1018, 1, 1019); (1021,
    1023, 1, 891); (1024, 1039, 1, 1104); (1040, 1071, 1, 1072); (1120,
    1152, 2, 1121); (1162, 1214, 2, 1163); (1216, 1216, 1, 1231); (1217,
    1229, 2, 1218); (1232, 1326, 2, 1233); (1329, 1366, 1, 1377); (4256,
    4293, 1, 11520); (4295, 4295, 1, 11559); (4301, 4301, 1, 11565); (5024,
    5103, 1, 43888); (5104, 5109, 1, 5112); (7312, 7354, 1, 4304); (7357,
    7359, 1, 4349); (7680, 7828, 2, 7681); (7838, 7838, 1, 223); (7840,
    7934, 2, 7841); (7944, 7951, 1, 7936); (7960, 7965, 1, 7952); (7976,
    7983, 1, 7968); (7992, 7999, 1, 7984); (8008, 8013, 1, 8000); (8025,
    8031, 2, 8017); (8040, 8047, 1, 8032); (8072, 8079, 1, 8064); (8088,
    8095, 1, 8080); (8104, 8111, 1, 8096); (8120, 8121, 1, 8112); (8122,
    8123, 1, 8048); (8124, 8124, 1, 8115); (8136, 8139, 1, 8050); (8140,
    8140, 1, 8131); (8152, 8153, 1, 8144); (8154, 8155, 1, 8054); (8168,
    8169, 1, 8160); (8170, 8171, 1, 8058); (8172, 8172, 1, 8165); (8184,
    8185, 1, 8056); (8186, 8187, 1, 8060); (8188, 8188, 1, 8179); (8486,
    8486, 1, 969); (8490, 8490, 1, 107); (8491, 8491, 1, 229); (8498, 8498,
    1, 8526); (8544, 8559, 1, 8560); (8579, 8579, 1, 8580); (9398, 9423, 1,
    9424); (11264, 11311, 1, 11312); (11360, 11360, 1, 11361); (11362,
    11362, 1, 619); (11363, 11363, 1, 7549); (11364, 11364, 1, 637); (11367,
    11371, 2, 11368); (11373, 11373, 1, 593); (11374, 11374, 1, 625);
    (11375, 11375, 1, 592); (11376, 11376, 1, 594); (11378, 11378, 1,
    11379); (11381, 11381, 1, 11382); (11390, 11391, 1, 575); (11392, 11490,
    2, 11393); (11499, 11501, 2, 11500); (11506, 11506, 1, 11507); (42560,
    42604, 2, 42561); (42624, 42650, 2, 42625); (42786, 42798, 2, 42787);
    (42802, 42862, 2, 42803); (42873, 42875, 2, 42874); (42877, 42877, 1,
    7545); (42878, 42886, 2, 42879); (42891, 42891, 1, 42892); (42893,
    42893, 1, 613); (42896, 42898, 2, 42897); (42902, 42920, 2, 42903);
    (42922, 42922, 1, 614); (42923, 42923, 1, 604); (42924, 42924, 1, 609);
    (42925, 42925, 1, 620); (42926, 42926, 1, 618); (42928, 42928, 1, 670);
    (42929, 42929, 1, 647); (42930, 42930, 1, 669); (42931, 42931, 1,
    43859); (42932, 42946, 2, 42933); (42948, 42948, 1, 42900); (42949,
    42949, 1, 642); (42950, 42950, 1, 7566); (42951, 42953, 2, 42952);
    (42960, 42960, 1, 42961); (42966, 42968, 2, 42967); (42997, 42997, 1,
    42998); (65313, 65338, 1, 65345); (66560, 66599, 1, 66600); (66736,
    66771, 1, 66776); (66928, 66938, 1, 66967); (66940, 66954, 1, 66979);
    (66956, 66962, 1, 66995); (66964, 66965, 1, 67003); (68736, 68786, 1,
    68800); (71840, 71871, 1, 71872); (93760, 93791, 1, 93792); (125184,
    125217, 1, 125218)
  ]%N.

(** The code points with the property Cased (the letters that are
    upper-case, lower-case or title-case), as closed intervals. *)
Definition cased_ranges : list (N * N) :=
  [
    (65, 90); (97, 122); (170, 170); (181, 181); (186, 186); (192, 214);
    (216, 246); (248, 442); (444, 447); (452, 659); (661, 696); (704, 705);
    (736, 740); (837, 837); (880, 883); (886, 887); (890, 893); (895, 895);
    (902, 902); (904, 906); (908, 908); (910, 929); (931, 1013); (1015,
    1153); (1162, 1327); (1329, 1366); (1376, 1416); (4256, 4293); (4295,
    4295); (4301, 4301); (4304, 4346); (4349, 4351); (5024, 5109); (5112,
    5117); (7296, 7304); (7312, 7354); (7357, 7359); (7424, 7615); (7680,
    7957); (7960, 7965); (7968, 8005); (8008, 8013); (8016, 8023); (8025,
    8025); (8027, 8027); (8029, 8029); (8031, 8061); (8064, 8116); (8118,
    8124); (8126, 8126); (8130, 8132); (8134, 8140); (8144, 8147); (8150,
    8155); (8160, 8172); (8178, 8180); (8182, 8188); (8305, 8305); (8319,
    8319); (8336, 8348); (8450, 8450); (8455, 8455); (8458, 8467); (8469,
    8469); (8473, 8477); (8484, 8484); (8486, 8486); (8488, 8488); (8490,
    8493); (8495, 8500); (8505, 8505); (8508, 8511); (8517, 8521); (8526,
    8526); (8544, 8575); (8579, 8580); (9398, 9449); (11264, 11492); (11499,
    11502); (11506, 11507); (11520, 11557); (11559, 11559); (11565, 11565);
    (42560, 42605); (42624, 42653); (42786, 42887); (42891, 42894); (42896,
    42954); (42960, 42961); (42963, 42963); (42965, 42969); (42997, 42998);
    (43000, 43002); (43824, 43866); (43868, 43880); (43888, 43967); (64256,
    64262); (64275, 64279); (65313, 65338); (65345, 65370); (66560, 66639);
    (66736, 66771); (66776, 66811); (66928, 66938); (66940, 66954); (66956,
    66962); (66964, 66965); (66967, 66977); (66979, 66993); (66995, 67001);
    (67003, 67004); (67456, 67456); (67459, 67461); (67463, 67504); (67506,
    67514); (68736, 68786); (68800, 68850); (71840, 71903); (93760, 93823);
    (119808, 119892); (119894, 119964); (119966, 119967); (119970, 119970);
    (119973, 119974); (119977, 119980); (119982, 119993); (119995, 119995);
    (119997, 120003); (120005, 120069); (120071, 120074); (120077, 120084);
    (120086, 120092); (120094, 120121); (120123, 120126); (120128, 120132);
    (120134, 120134); (120138, 120144); (120146, 120485); (120488, 120512);
    (120514, 120538); (120540, 120570); (120572, 120596); (120598, 120628);
    (120630, 120654); (120656, 120686); (120688, 120712); (120714, 120744);
    (120746, 120770); (120772, 120779); (122624, 122633); (122635, 122654);
    (125184, 125251); (127280, 127305); (127312, 127337); (127344, 127369)
  ]%N.

(** The code points with the property Case_Ignorable (marks, modifier
    letters, format characters and some punctuation), as closed
    intervals. *)
Definition case_ignorable_ranges : list (N * N) :=
  [
    (39, 39); (46, 46); (58, 58); (94, 94); (96, 96); (168, 168); (173,
    173); (175, 175); (180, 180); (183, 184); (688, 879); (884, 885); (890,
    890); (900, 901); (903, 903); (1155, 1161); (1369, 1369); (1375, 1375);
    (1425, 1469); (1471, 1471); (1473, 1474); (1476, 1477); (1479, 1479);
    (1524, 1524); (1536, 1541); (1552, 1562); (1564, 1564); (1600, 1600);
    (1611, 1631); (1648, 1648); (1750, 1757); (1759, 1768); (1770, 1773);
    (1807, 1807); (1809, 1809); (1840, 1866); (1958, 1968); (2027, 2037);
    (2042, 2042); (2045, 2045); (2070, 2093); (2137, 2139); (2184, 2184);
    (2192, 2193); (2200, 2207); (2249, 2306); (2362, 2362); (2364, 2364);
    (2369, 2376); (2381, 2381); (2385, 2391); (2402, 2403); (2417, 2417);
    (2433, 2433); (2492, 2492); (2497, 2500); (2509, 2509); (2530, 2531);
    (2558, 2558); (2561, 2562); (2620, 2620); (2625, 2626); (2631, 2632);
    (2635, 2637); (2641, 2641); (2672, 2673); (2677, 2677); (2689, 2690);
    (2748, 2748); (2753, 2757); (2759, 2760); (2765, 2765); (2786, 2787);
    (2810, 2815); (2817, 2817); (2876, 2876); (2879, 2879); (2881, 2884);
    (2893, 2893); (2901, 2902); (2914, 2915); (2946, 2946); (3008, 3008);
    (3021, 3021); (3072, 3072); (3076, 3076); (3132, 3132); (3134, 3136);
    (3142, 3144); (3146, 3149); (3157, 3158); (3170, 3171); (3201, 3201);
    (3260, 3260); (3263, 3263); (3270, 3270); (3276, 3277); (3298, 3299);
    (3328, 3329); (3387, 3388); (3393, 3396); (3405, 3405); (3426, 3427);
    (3457, 3457); (3530, 3530); (3538, 3540); (3542, 3542); (3633, 3633);
    (3636, 3642); (3654, 3662); (3761, 3761); (3764, 3772); (3782, 3782);
    (3784, 3789); (3864, 3865); (3893, 3893); (3895, 3895); (3897, 3897);
    (3953, 3966); (3968, 3972); (3974, 3975); (3981, 3991); (3993, 4028);
    (4038, 4038); (4141, 4144); (4146, 4151); (4153, 4154); (4157, 4158);
    (4184, 4185); (4190, 4192); (4209, 4212); (4226, 4226); (4229, 4230);
    (4237, 4237); (4253, 4253); (4348, 4348); (4957, 4959); (5906, 5908);
    (5938, 5939); (5970, 5971); (6002, 6003); (6068, 6069); (6071, 6077);
    (6086, 6086); (6089, 6099); (6103, 6103); (6109, 6109); (6155, 6159);
    (6211, 6211); (6277, 6278); (6313, 6313); (6432, 6434); (6439, 6440);
    (6450, 6450); (6457, 6459); (6679, 6680); (6683, 6683); (6742, 6742);
    (6744, 6750); (6752, 6752); (6754, 6754); (6757, 6764); (6771, 6780);
    (6783, 6783); (6823, 6823); (6832, 6862); (6912, 6915); (6964, 6964);
    (6966, 6970); (6972, 6972); (6978, 6978); (7019, 7027); (7040, 7041);
    (7074, 7077); (7080, 7081); (7083, 7085); (7142, 7142); (7144, 7145);
    (7149, 7149); (7151, 7153); (7212, 7219); (7222, 7223); (7288, 7293);
    (7376, 7378); (7380, 7392); (7394, 7400); (7405, 7405); (7412, 7412);
    (7416, 7417); (7468, 7530); (7544, 7544); (7579, 7679); (8125, 8125);
    (8127, 8129); (8141, 8143); (8157, 8159); (8173, 8175); (8189, 8190);
    (8203, 8207); (8216, 8217); (8228, 8228); (8231, 8231); (8234, 8238);
    (8288, 8292); (8294, 8303); (8305, 8305); (8319, 8319); (8336, 8348);
    (8400, 8432); (11388, 11389); (11503, 11505); (11631, 11631); (11647,
    11647); (11744, 11775); (11823, 11823); (12293, 12293); (12330, 12333);
    (12337, 12341); (12347, 12347); (12441, 12446); (12540, 12542); (40981,
    40981); (42232, 42237); (42508, 42508); (42607, 42610); (42612, 42621);
    (42623, 42623); (42652, 42655); (42736, 42737); (42752, 42785); (42864,
    42864); (42888, 42890); (42994, 42996); (43000, 43001); (43010, 43010);
    (43014, 43014); (43019, 43019); (43045, 43046); (43052, 43052); (43204,
    43205); (43232, 43249); (43263, 43263); (43302, 43309); (43335, 43345);
    (43392, 43394); (43443, 43443); (43446, 43449); (43452, 43453); (43471,
    43471); (43493, 43494); (43561, 43566); (43569, 43570); (43573, 43574);
    (43587, 43587); (43596, 43596); (43632, 43632); (43644, 43644); (43696,
    43696); (43698, 43700); (43703, 43704); (43710, 43711); (43713, 43713);
    (43741, 43741); (43756, 43757); (43763, 43764); (43766, 43766); (43867,
    43871); (43881, 43883); (44005, 44005); (44008, 44008); (44013, 44013);
    (64286, 64286); (64434, 64450); (65024, 65039); (65043, 65043); (65056,
    65071); (65106, 65106); (65109, 65109); (65279, 65279); (65287, 65287);
    (65294, 65294); (65306, 65306); (65342, 65342); (65344, 65344); (65392,
    65392); (65438, 65439); (65507, 65507); (65529, 65531); (66045, 66045);
    (66272, 66272); (66422, 66426); (67456, 67461); (67463, 67504); (67506,
    67514); (68097, 68099); (68101, 68102); (68108, 68111); (68152, 68154);
    (68159, 68159); (68325, 68326); (68900, 68903); (69291, 69292); (69446,
    69456); (69506, 69509); (69633, 69633); (69688, 69702); (69744, 69744);
    (69747, 69748); (69759, 69761); (69811, 69814); (69817, 69818); (69821,
    69821); (69826, 69826); (69837, 69837); (69888, 69890); (69927, 69931);
    (69933, 69940); (70003, 70003); (70016, 70017); (70070, 70078); (70089,
    70092); (70095, 70095); (70191, 70193); (70196, 70196); (70198, 70199);
    (70206, 70206); (70367, 70367); (70371, 70378); (70400, 70401); (70459,
    70460); (70464, 70464); (70502, 70508); (70512, 70516); (70712, 70719);
    (70722, 70724); (70726, 70726); (70750, 70750); (70835, 70840); (70842,
    70842); (70847, 70848); (70850, 70851); (71090, 71093); (71100, 71101);
    (71103, 71104); (71132, 71133); (71219, 71226); (71229, 71229); (71231,
    71232); (71339, 71339); (71341, 71341); (71344, 71349); (71351, 71351);
    (71453, 71455); (71458, 71461); (71463, 71467); (71727, 71735); (71737,
    71738); (71995, 71996); (71998, 71998); (72003, 72003); (72148, 72151);
    (72154, 72155); (72160, 72160); (72193, 72202); (72243, 72248); (72251,
    72254); (72263, 72263); (72273, 72278); (72281, 72283); (72330, 72342);
    (72344, 72345); (72752, 72758); (72760, 72765); (72767, 72767); (72850,
    72871); (72874, 72880); (72882, 72883); (72885, 72886); (73009, 73014);
    (73018, 73018); (73020, 73021); (73023, 73029); (73031, 73031); (73104,
    73105); (73109, 73109); (73111, 73111); (73459, 73460); (78896, 78904);
    (92912, 92916); (92976, 92982); (92992, 92995); (94031, 94031); (94095,
    94111); (94176, 94177); (94179, 94180); (110576, 110579); (110581,
    110587); (110589, 110590); (113821, 113822); (113824, 113827); (118528,
    118573); (118576, 118598); (119143, 119145); (119155, 119170); (119173,
    119179); (119210, 119213); (119362, 119364); (121344, 121398); (121403,
    121452); (121461, 121461); (121476, 121476); (121499, 121503); (121505,
    121519); (122880, 122886); (122888, 122904); (122907, 122913); (122915,
    122916); (122918, 122922); (123184, 123197); (123566, 123566); (123628,
    123631); (125136, 125142); (125252, 125259); (127995, 127999); (917505,
    917505); (917536, 917631); (917760, 917999)
  ]%N.

Definition in_ranges (c : char) (ranges : list (N * N)) : bool :=
  existsb (fun range => in_range (fst range) (snd range) c) ranges.

Definition is_cased (c : char) : bool := in_ranges c cased_ranges.
Definition is_case_ignorable (c : char) : bool :=
  in_ranges c case_ignorable_ranges.

Definition run_image (c : char) (run : N * N * N * N) : option char :=
  let '(first, last, step, image) := run in
  if in_range first last c && N.eqb ((c - first) mod step) 0
  then Some (image + (c - first))%N
  else None.

Fixpoint lower_simple (c : char) (runs : list (N * N * N * N))
  : option char :=
  match runs with
  | [] => None
  | run :: runs' =>
    match run_image c run with
    | Some l => Some l
    | None => lower_simple c runs'
    end
  end.

(** [str.upper()] of one character.  It is exact on ASCII and on the code
    points of its table.  Every other code point is taken as it is: its
    real image is a non-empty text without ASCII characters, so the ASCII
    words that occur in an upper-cased text are the same. *)
Definition upper_char (c : char) : str :=
  if is_lower c then [(c - 32)%N]
  else match assoc c upper_special with
       | Some u => u
       | None => [c]
       end.

(** [str.lower()] of one character other than the capital sigma: capital
    I with dot becomes i followed by the combining dot above, a code
    point with a simple mapping its image, any other code point
    itself. *)
Definition lower_char (c : char) : str :=
  if is_upper c then [(c + 32)%N]
  else if is_ascii c then [c]
  else if char_eqb c dotted_I then [ch "i"; 775%N]
  else match lower_simple c lower_runs with
       | Some l => [l]
       | None => [c]
       end.

(** The capital sigma becomes the final small sigma when it ends a word:
    a cased letter precedes it, case-ignorable characters apart, and no
    cased letter follows it, case-ignorable characters apart.  [before]
    holds the preceding characters of the text, the nearest first. *)
Definition capital_sigma : char := 931%N.
Definition small_sigma : char := 963%N.
Definition final_small_sigma : char := 962%N.

Fixpoint skip_ignorable (s : str) : str :=
  match s with
  | [] => []
  | c :: s' => if is_case_ignorable c then skip_ignorable s' else s
  end.

Definition final_sigma (before after : str) : bool :=
  match skip_ignorable before with
  | [] => false
  | b :: _ =>
    is_cased b
    && match skip_ignorable after with
       | [] => true
       | a :: _ => negb (is_cased a)
       end
  end.

Fixpoint lower_from (before s : str) : str :=
  match s with
  | [] => []
  | c :: s' =>
    (if char_eqb c capital_sigma
     then [if final_sigma before s' then final_small_sigma else small_sigma]
     else lower_char c)
    ++ lower_from (c :: before) s'
  end.

(** [s.upper()] and [s.lower()]. *)
Definition upper (s : str) : str := flat_map upper_char s.
Definition lower (s : str) : str := lower_from [] s.

Fixpoint str_eqb (a b : str) : bool :=
  match a, b with
  | [], [] => true
  | x :: a', y :: b' => char_eqb x y && str_eqb a' b'
  | _, _ => false
  end.

(** [s.startswith(p)]. *)
Fixpoint startswith (p s : str) : bool :=
  match p, s with
  | [], _ => true
  | x :: p', y :: s' => char_eqb x y && startswith p' s'
  | _ :: _, [] => false
  end.

(** [needle in hay] for strings: substring test. *)
Fixpoint contains (needle hay : str) : bool :=
  startswith needle hay ||
  match hay with
  | [] => false
  | _ :: hay' => contains needle hay'
  end.

(** [x in xs] for a list of strings. *)
Definition mem (x : str) (xs : list str) : bool := existsb (str_eqb x) xs.

(** [s.count(sub)]: the number of non-overlapping occurrences, scanning
    from the left.  [skip] characters of a match just counted are still to
    be passed over.  (For the empty [sub] Python answers [len(s) + 1].) *)
Fixpoint count_from (sub : str) (skip : nat) (s : str) : nat :=
  match s with
  | [] => 0
  | _ :: s' =>
      match skip with
      | S k => count_from sub k s'
      | O => if startswith sub s
             then S (count_from sub (length sub - 1) s')
             else count_from sub 0 s'
      end
  end.

Definition count (sub s : str) : nat :=
  match sub with
  | [] => S (length s)
  | _ => count_from sub 0 s
  end.

Fixpoint drop_spaces (s : str) : str :=
  match s with
  | c :: s' => if is_space c then drop_spaces s' else s
  | [] => []
  end.

(** [s.lstrip()], [s.rstrip()] and [s.strip()]. *)
Definition lstrip (s : str) : str := drop_spaces s.
Definition rstrip (s : str) : str := rev (drop_spaces (rev s)).
Definition strip (s : str) : str := rstrip (lstrip s).

(** [s.split()]: the maximal runs of non-whitespace characters.  [cur] is
    the current word, most recent character first. *)
Fixpoint split_words (cur : str) (s : str) : list str :=
  match s with
  | [] => match cur with [] => [] | _ => [rev cur] end
  | c :: s' =>
      if is_space c
      then match cur with
           | [] => split_words [] s'
           | _ => rev cur :: split_words [] s'
           end
      else split_words (c :: cur) s'
  end.

Definition split (s : str) : list str := split_words [] s.

(** [s.split(sep)] for a one-character separator: always at least one
    piece. *)
Fixpoint split_on (sep : char) (cur : str) (s : str) : list str :=
  match s with
  | [] => [rev cur]
  | c :: s' =>
      if char_eqb c sep then rev cur :: split_on sep [] s'
      else split_on sep (c :: cur) s'
  end.

Definition split_sep (sep : char) (s : str) : list str := split_on sep [] s.

Definition str_eq_dec : forall a b : str, {a = b} + {a <> b} :=
  list_eq_dec N.eq_dec.

(** [set(xs)] as a duplicate-free list, and [len(set(a) & set(b))]. *)
Definition to_set (xs : list str) : list str := nodup str_eq_dec xs.

Definition inter (a b : list str) : list str :=
  filter (fun w => mem w b) a.

(** [s.find(sub)]: the offset of the first occurrence; [None] stands for
    the answer -1. *)
Fixpoint str_find (sub s : str) : option nat :=
  if startswith sub s then Some 0
  else match s with
       | [] => None
       | _ :: s' => option_map S (str_find sub s')
       end.

(** [s.rstrip(chars)]: the trailing characters that occur in [chars] are
    dropped. *)
Fixpoint drop_chars (chars s : str) : str :=
  match s with
  | c :: s' => if existsb (char_eqb c) chars then drop_chars chars s' else s
  | [] => []
  end.

Definition rstrip_chars (chars s : str) : str :=
  rev (drop_chars chars (rev s)).

(** [s.replace(old, new)]: the non-overlapping occurrences of [old], found
    from the left, are replaced in one pass.  [skip] characters of an
    occurrence just replaced are still to be passed over.  For the empty
    [old] Python puts [new] before every character and at the end. *)
Fixpoint replace_from (old new : str) (skip : nat) (s : str) : str :=
  match s with
  | [] => []
  | c :: s' =>
      match skip with
      | S k => replace_from old new k s'
      | O => if startswith old s
             then new ++ replace_from old new (length old - 1) s'
             else c :: replace_from old new 0 s'
      end
  end.

Definition replace (old new s : str) : str :=
  match old with
  | [] => new ++ flat_map (fun c => c :: new) s
  | _ => replace_from old new 0 s
  end.

(** [sep.join(xs)]. *)
Fixpoint join (sep : str) (xs : list str) : str :=
  match xs with
  | [] => []
  | x :: xs' =>
      match xs' with
      | [] => x
      | _ => x ++ sep ++ join sep xs'
      end
  end.

(** [str(n)] for an integer: its decimal digits, after a minus sign when
    it is negative. *)
Fixpoint str_of_uint (d : Decimal.uint) : str :=
  match d with
  | Decimal.Nil => []
  | Decimal.D0 d' => ch "0" :: str_of_uint d'
  | Decimal.D1 d' => ch "1" :: str_of_uint d'
  | Decimal.D2 d' => ch "2" :: str_of_uint d'
  | Decimal.D3 d' => ch "3" :: str_of_uint d'
  | Decimal.D4 d' => ch "4" :: str_of_uint d'
  | Decimal.D5 d' => ch "5" :: str_of_uint d'
  | Decimal.D6 d' => ch "6" :: str_of_uint d'
  | Decimal.D7 d' => ch "7" :: str_of_uint d'
  | Decimal.D8 d' => ch "8" :: str_of_uint d'
  | Decimal.D9 d' => ch "9" :: str_of_uint d'
  end.

Definition str_of_nat (n : nat) : str := str_of_uint (Nat.to_uint n).

Definition str_of_Z (z : Z) : str :=
  match Z.to_int z with
  | Decimal.Pos d => str_of_uint d
  | Decimal.Neg d => ch "-" :: str_of_uint d
  end.

End PyStr.

Import PyStr.

(* ================================================================== *)
(** ** The fragment of Python's [re] used by the sources *)
(* ================================================================== *)

Module Re.

(** One character position of a pattern. *)
Inductive atom :=
| Lit (c : char)       (* an ordinary character, or an escaped one *)
| Space                (* backslash s *)
| Word                 (* backslash w *)
| Digit                (* backslash d *)
| Dot.                 (* the dot *)

Inductive quant :=
| Once                 (* no quantifier *)
| Greedy0              (* star: zero or more, greedy *)
| Greedy1              (* plus: one or more, greedy *)
| Lazy0.               (* star and question mark: zero or more, lazy *)

(** A pattern is a sequence of nodes: a quantified atom, a quantified atom
    inside a capturing group, or the anchor $. *)
Inductive node :=
| Rep (a : atom) (q : quant)
| Cap (a : atom) (q : quant)
| Eol.

Definition regex := list node.

Record flags := { IGNORECASE : bool; MULTILINE : bool; DOTALL : bool }.

Definition no_flags : flags :=
  {| IGNORECASE := false; MULTILINE := false; DOTALL := false |}.
Definition re_IGNORECASE : flags :=
  {| IGNORECASE := true; MULTILINE := false; DOTALL := false |}.
Definition re_MULTILINE : flags :=
  {| IGNORECASE := false; MULTILINE := true; DOTALL := false |}.
Definition re_DOTALL : flags :=
  {| IGNORECASE := false; MULTILINE := false; DOTALL := true |}.

Definition newline : char := 10%N.

(** Case-insensitive comparison of a pattern character with a character
    of the text.  Both are folded to lower case one to one (capital I
    with dot to i, the Kelvin sign to k), and i is also equivalent to
    dotless i, s to long s.  Among the non-ASCII code points exactly
    U+0130, U+0131, U+017F and U+212A match an ASCII letter this way. *)
Definition fold_char (c : char) : char :=
  if is_upper c then (c + 32)%N
  else if char_eqb c dotted_I then ch "i"
  else if char_eqb c kelvin then ch "k"
  else c.

Definition ci_match (p c : char) : bool :=
  let lp := fold_char p in
  let lc := fold_char c in
  char_eqb lp lc
  || (char_eqb lp (ch "i") && char_eqb lc dotless_i)
  || (char_eqb lp dotless_i && char_eqb lc (ch "i"))
  || (char_eqb lp (ch "s") && char_eqb lc long_s)
  || (char_eqb lp long_s && char_eqb lc (ch "s")).

Definition atom_ok (fl : flags) (a : atom) (c : char) : bool :=
  match a with
  | Lit p => if IGNORECASE fl then ci_match p c else char_eqb p c
  | Space => is_space c
  | Word => is_word c
  | Digit => is_digit c
  | Dot => DOTALL fl || negb (char_eqb c newline)
  end.

(** $ : at the end of the text, or before a final newline; with MULTILINE
    also before every newline. *)
Definition at_eol (fl : flags) (s : str) : bool :=
  match s with
  | [] => true
  | c :: s' =>
      char_eqb c newline &&
      (MULTILINE fl || match s' with [] => true | _ => false end)
  end.

(** A successful match is reported as the number of characters each node
    of the pattern consumed, in pattern order. *)
Definition pieces := list nat.

Definition bump (r : pieces) : pieces :=
  match r with
  | n :: r' => S n :: r'
  | [] => []
  end.

Definition first_piece (o : option pieces) : option pieces :=
  option_map (cons 0) o.

(** Greedy repetition: take as many characters as possible, and give them
    back one at a time while the rest of the pattern [k] fails. *)
Fixpoint rep_greedy (ok : char -> bool) (k : str -> option pieces)
    (s : str) : option pieces :=
  match s with
  | c :: s' =>
      if ok c
      then match rep_greedy ok k s' with
           | Some r => Some (bump r)
           | None => first_piece (k s)
           end
      else first_piece (k s)
  | [] => first_piece (k s)
  end.

(** Lazy repetition: try the rest of the pattern first, and take one more
    character only when it fails. *)
Fixpoint rep_lazy (ok : char -> bool) (k : str -> option pieces)
    (s : str) : option pieces :=
  match k s with
  | Some r => Some (0 :: r)
  | None =>
      match s with
      | c :: s' => if ok c then option_map bump (rep_lazy ok k s') else None
      | [] => None
      end
  end.

Definition rep_once (ok : char -> bool) (k : str -> option pieces)
    (s : str) : option pieces :=
  match s with
  | c :: s' => if ok c then option_map (cons 1) (k s') else None
  | [] => None
  end.

Definition match_quant (q : quant) (ok : char -> bool)
    (k : str -> option pieces) (s : str) : option pieces :=
  match q with
  | Once => rep_once ok k s
  | Greedy0 => rep_greedy ok k s
  | Greedy1 =>
      match s with
      | c :: s' => if ok c then option_map bump (rep_greedy ok k s') else None
      | [] => None
      end
  | Lazy0 => rep_lazy ok k s
  end.

Definition match_node (fl : flags) (n : node)
    (k : str -> option pieces) (s : str) : option pieces :=
  match n with
  | Rep a q | Cap a q => match_quant q (atom_ok fl a) k s
  | Eol => if at_eol fl s then first_piece (k s) else None
  end.

(** [match_here fl re s]: the match of [re] that starts at the first
    character of [s] and that the backtracking search of [re] finds
    first, if there is one. *)
Fixpoint match_here (fl : flags) (re : regex) {struct re}
    : str -> option pieces :=
  match re with
  | [] => fun _ => Some []
  | n :: re' => match_node fl n (match_here fl re')
  end.

Definition total (r : pieces) : nat := fold_right Nat.add 0 r.

(** [re.search]: the leftmost position with a match; the result is the
    start offset and the pieces of the match. *)
Fixpoint search (fl : flags) (re : regex) (s : str)
    : option (nat * pieces) :=
  match match_here fl re s with
  | Some r => Some (0, r)
  | None =>
      match s with
      | [] => None
      | _ :: s' =>
          match search fl re s' with
          | Some (i, r) => Some (S i, r)
          | None => None
          end
      end
  end.

(** Offset and length of the first capturing group inside a match that
    starts at offset [off]. *)
Fixpoint group_span (re : regex) (r : pieces) (off : nat)
    : option (nat * nat) :=
  match re, r with
  | Cap _ _ :: _, n :: _ => Some (off, n)
  | _ :: re', n :: r' => group_span re' r' (off + n)
  | _, _ => None
  end.

Definition substr (s : str) (off len : nat) : str :=
  firstn len (skipn off s).

(** [re.sub(re, repl, s)] for a literal replacement text.  The text is
    scanned once from the left; [skip] counts the characters of the
    current match still to be dropped.  A match of length zero inserts
    [repl] and copies the character it stands before. *)
Fixpoint sub_from (fl : flags) (re : regex) (repl : str) (skip : nat)
    (s : str) : str :=
  match skip with
  | S k =>
      match s with
      | [] => []
      | _ :: s' => sub_from fl re repl k s'
      end
  | O =>
      match match_here fl re s with
      | Some r =>
          repl ++
          match s with
          | [] => []
          | c :: s' =>
              match total r with
              | O => c :: sub_from fl re repl 0 s'
              | S k => sub_from fl re repl k s'
              end
          end
      | None =>
          match s with
          | [] => []
          | c :: s' => c :: sub_from fl re repl 0 s'
          end
      end
  end.

Definition sub_re (fl : flags) (re : regex) (repl : str) (s : str) : str :=
  sub_from fl re repl 0 s.

(** *** Pattern texts

    The sources give patterns as text.  [compile] reads the fragment
    described above; a text outside it has no model ([None]). *)

Definition is_meta (c : char) : bool :=
  existsb (char_eqb c) (L ".^$*+?{}[]\|()").

Definition is_alnum (c : char) : bool :=
  is_lower c || is_upper c || is_digit c.

Definition read_atom (s : str) : option (atom * str) :=
  match s with
  | [] => None
  | c :: r =>
      if char_eqb c (ch "\") then
        match r with
        | [] => None
        | e :: r' =>
            if char_eqb e (ch "s") then Some (Space, r')
            else if char_eqb e (ch "w") then Some (Word, r')
            else if char_eqb e (ch "d") then Some (Digit, r')
            else if is_alnum e then None
            else Some (Lit e, r')
        end
      else if char_eqb c (ch ".") then Some (Dot, r)
      else if is_meta c then None
      else Some (Lit c, r)
  end.

Definition read_quant (s : str) : quant * str :=
  match s with
  | c :: r =>
      if char_eqb c (ch "+") then (Greedy1, r)
      else if char_eqb c (ch "*") then
        match r with
        | d :: r' => if char_eqb d (ch "?") then (Lazy0, r') else (Greedy0, r)
        | [] => (Greedy0, r)
        end
      else (Once, s)
  | [] => (Once, s)
  end.

Definition follows_quant (s : str) : bool :=
  match s with
  | c :: _ => existsb (char_eqb c) (L "*+?{")
  | [] => false
  end.

Fixpoint compile_fuel (fuel : nat) (s : str) : option regex :=
  match fuel with
  | O => None
  | S fuel' =>
      match s with
      | [] => Some []
      | c :: r =>
          if char_eqb c (ch "$") then
            if follows_quant r then None
            else option_map (cons Eol) (compile_fuel fuel' r)
          else if char_eqb c (ch "(") then
            match read_atom r with
            | Some (a, r1) =>
                let (q, r2) := read_quant r1 in
                match r2 with
                | d :: r3 =>
                    if char_eqb d (ch ")") && negb (follows_quant r3)
                    then option_map (cons (Cap a q)) (compile_fuel fuel' r3)
                    else None
                | [] => None
                end
            | None => None
            end
          else
            match read_atom s with
            | Some (a, r1) =>
                let (q, r2) := read_quant r1 in
                if follows_quant r2 then None
                else option_map (cons (Rep a q)) (compile_fuel fuel' r2)
            | None => None
            end
      end
  end.

Definition compile (pattern : str) : option regex :=
  compile_fuel (S (length pattern)) pattern.

(** A match object: the pattern, the subject, where the match starts and
    what each node consumed. *)
Record match_obj := {
  m_re : regex;
  m_string : str;
  m_start : nat;
  m_pieces : pieces
}.

(** [re.search(pattern, string, flags)]: [None] when nothing matches. *)
Definition re_search (pattern : str) (s : str) (fl : flags)
    : option match_obj :=
  match compile pattern with
  | Some re =>
      match search fl re s with
      | Some (i, r) =>
          Some {| m_re := re; m_string := s; m_start := i; m_pieces := r |}
      | None => None
      end
  | None => None
  end.

(** Truth value of the result of [re.search]. *)
Definition truthy (m : option match_obj) : bool :=
  match m with Some _ => true | None => false end.

(** [m.group(1)]. *)
Definition group1 (m : match_obj) : str :=
  match group_span (m_re m) (m_pieces m) (m_start m) with
  | Some (off, len) => substr (m_string m) off len
  | None => []
  end.

(** [re.sub(pattern, repl, string, flags=flags)]. *)
Definition re_sub (pattern repl s : str) (fl : flags) : str :=
  match compile pattern with
  | Some re => sub_re fl re repl s
  | None => s
  end.

End Re.

Import Re.

(** A Python call either returns a value or raises; [str(e)] of the
    exception is kept. *)
Inductive outcome (A : Type) :=
| Returned (a : A)
| Raised (msg : str).
Arguments Returned {A} a.
Arguments Raised {A} msg.

(* ================================================================== *)
(** ** What the validator sees of [sqlparse] *)
(* ================================================================== *)

Module Sqlparse.

(** [sqlparse.tokens]: a token type is a path below the root [Token],
    e.g. [Token.Keyword.DML]; [is] on token types is equality of paths. *)
Definition tokentype := list str.

Definition Keyword : tokentype := [L "Keyword"].
Definition Keyword_DML : tokentype := [L "Keyword"; L "DML"].
Definition Name : tokentype := [L "Name"].
Definition Punctuation : tokentype := [L "Punctuation"].
Definition Whitespace : tokentype := [L "Text"; L "Whitespace"].

Fixpoint ttype_is (a b : tokentype) : bool :=
  match a, b with
  | [], [] => true
  | x :: a', y :: b' => str_eqb x y && ttype_is a' b'
  | _, _ => false
  end.

(** [sqlparse.sql]: a leaf [Token] carries a type and its text; a
    [TokenList] (Statement, Identifier, IdentifierList, Where, ...)
    carries its class name and its children, and its [ttype] is [None]. *)
#[warnings="-register-all"] Inductive token :=
| Leaf (ttype : tokentype) (value : str)
| Group (cls : str) (tokens : list token).

(** [token.value]: for a group, the text of its leaves in order. *)
Fixpoint value (t : token) : str :=
  match t with
  | Leaf _ v => v
  | Group _ ts => concat (map value ts)
  end.

(** A parsed [Statement], given by [statement.tokens]. *)
Definition statement := list token.

End Sqlparse.

(* ================================================================== *)
(** ** [QueryValidator] *)
(* ================================================================== *)

Module QueryValidator.

Import Sqlparse.

(** The result dictionaries of the phases. *)
Module Check.
Record t := { is_valid : bool; errors : list str }.
End Check.

Module SchemaCheck.
Record t := { is_valid : bool; errors : list str; warnings : list str }.
End SchemaCheck.

Module Perf.
Record t := { warnings : list str; suggestions : list str }.
End Perf.

(** An entry of [columns_used]: [{'table': ..., 'column': ...}]. *)
Record ColumnRef := { table : option str; column : str }.

Module Info.
Record t := {
  query_type : str;
  tables_used : list str;
  columns_used : list ColumnRef
}.
End Info.

(** The dictionary returned by [validate_query]. *)
Record ValidationResult := {
  is_valid : bool;
  errors : list str;
  warnings : list str;
  suggestions : list str;
  query_type : str;
  tables_used : list str;
  columns_used : list ColumnRef
}.

(** The part of the schema dictionary the validator reads:
    [schema_info['tables'][name]['columns'][i]['name']].  The [tables]
    dictionary is kept as an association list in catalog order. *)
Record Column := { name : str }.
Record TableSchema := { columns : list Column }.
Record SchemaCatalog := { tables : list (str * TableSchema) }.

Fixpoint dict_get {V : Type} (k : str) (d : list (str * V)) : option V :=
  match d with
  | [] => None
  | (k', v) :: d' => if str_eqb k k' then Some v else dict_get k d'
  end.

Definition keys {V : Type} (d : list (str * V)) : list str := map fst d.

(** [self.dangerous_keywords], a set in the source, listed in the order of
    the literal. *)
Definition dangerous_keywords : list str :=
  [L "DROP"; L "DELETE"; L "TRUNCATE"; L "ALTER"; L "CREATE"; L "INSERT";
   L "UPDATE"; L "GRANT"; L "REVOKE"; L "EXECUTE"; L "EXEC"].

Definition forbidden_patterns : list str :=
  [L "DROP\s+TABLE";
   L "DELETE\s+FROM\s+\w+\s+WHERE\s+1\s*=\s*1";
   L "TRUNCATE\s+TABLE";
   L "ALTER\s+TABLE";
   L "CREATE\s+TABLE";
   L "INSERT\s+INTO";
   L "UPDATE\s+\w+\s+SET";
   L ";\s*DROP";
   L ";\s*DELETE";
   L ";\s*TRUNCATE";
   L ";\s*ALTER";
   L ";\s*CREATE";
   L ";\s*INSERT";
   L ";\s*UPDATE"].

(** [result['is_valid'] = False; result['errors'].append(msg)]. *)
Definition reject (result : Check.t) (msg : str) : Check.t :=
  {| Check.is_valid := false;
     Check.errors := Check.errors result ++ [msg] |}.

(** [_is_select_statement].  Every sqlparse token has a [value], so a
    statement with at least one token is decided by its first token; the
    loop is only reached for a statement without tokens. *)
Definition _is_select_statement (statement : statement) : bool :=
  match statement with
  | first :: _ => str_eqb (upper (value first)) (L "SELECT")
  | [] =>
      existsb
        (fun token =>
           match token with
           | Leaf ttype v =>
               (ttype_is ttype Keyword && str_eqb (upper v) (L "SELECT"))
               || str_eqb (upper v) (L "SELECT")
           | Group _ _ => str_eqb (upper (value token)) (L "SELECT")
           end)
        statement
  end.

(** [extract_from_tokens], the local function of
    [_extract_tables_and_columns].  A token with children is walked; a
    leaf of type exactly [Name] is recorded as a table.  The third branch
    of the source asks for an [Identifier] instance, which always has
    children and is therefore taken by the first branch: no leaf reaches
    it and no column is ever recorded. *)
Fixpoint extract_from_token (token : token) : list str * list ColumnRef :=
  match token with
  | Group _ ts =>
      fold_left
        (fun acc t =>
           let (tabs, cols) := extract_from_token t in
           (fst acc ++ tabs, snd acc ++ cols))
        ts ([], [])
  | Leaf ttype v =>
      if ttype_is ttype Name then ([v], []) else ([], [])
  end.

Definition extract_from_tokens (ts : list token)
    : list str * list ColumnRef :=
  fold_left
    (fun acc t =>
       let (tabs, cols) := extract_from_token t in
       (fst acc ++ tabs, snd acc ++ cols))
    ts ([], []).

(** [_validate_performance]. *)
Definition _validate_performance (sql_query : str) : Perf.t :=
  let sql_upper := upper sql_query in
  let result := {| Perf.warnings := []; Perf.suggestions := [] |} in
  let result :=
    if contains (L "SELECT *") sql_upper
       && negb (contains (L "LIMIT") sql_upper)
    then {| Perf.warnings := Perf.warnings result ++
              [L "SELECT * without LIMIT may return large datasets"];
            Perf.suggestions := Perf.suggestions result ++
              [L "Consider adding LIMIT clause or selecting specific columns"]
         |}
    else result in
  let result :=
    if contains (L "SELECT") sql_upper
       && negb (contains (L "WHERE") sql_upper)
    then {| Perf.warnings := Perf.warnings result;
            Perf.suggestions := Perf.suggestions result ++
              [L "Consider adding WHERE clause for better performance"] |}
    else result in
  let result :=
    if (1 <? count (L "FROM") sql_upper)
       && negb (contains (L "JOIN") sql_upper)
    then {| Perf.warnings := Perf.warnings result ++
              [L "Multiple FROM clauses without JOIN may cause cartesian products"];
            Perf.suggestions := Perf.suggestions result |}
    else result in
  let result :=
    if contains (L "ORDER BY") sql_upper
       && negb (contains (L "LIMIT") sql_upper)
    then {| Perf.warnings := Perf.warnings result;
            Perf.suggestions := Perf.suggestions result ++
              [L "Consider adding LIMIT with ORDER BY for better performance"]
         |}
    else result in
  result.

(** [sanitize_query]. *)
Definition sanitize_query (sql_query : str) : str :=
  let sql_query := re_sub (L "--.*$") [] sql_query re_MULTILINE in
  let sql_query := re_sub (L "/\*.*?\*/") [] sql_query re_DOTALL in
  let sql_query := strip (re_sub (L "\s+") (L " ") sql_query no_flags) in
  if contains (L ";") sql_query
  then strip (hd [] (split_sep (ch ";") sql_query))
  else sql_query.

(** [get_query_complexity_score]. *)
Definition get_query_complexity_score (sql_query : str) : Z :=
  let score := 1%Z in
  let sql_upper := upper sql_query in
  let score := if contains (L "JOIN") sql_upper then (score + 2)%Z else score in
  let score := if contains (L "GROUP BY") sql_upper then (score + 1)%Z else score in
  let score := if contains (L "HAVING") sql_upper then (score + 1)%Z else score in
  let score := if contains (L "ORDER BY") sql_upper then (score + 1)%Z else score in
  let score := if contains (L "LIMIT") sql_upper then (score + 1)%Z else score in
  let score := if contains (L "WHERE") sql_upper then (score + 1)%Z else score in
  let score := if contains (L "DISTINCT") sql_upper then (score + 1)%Z else score in
  let score := if contains (L "UNION") sql_upper then (score + 2)%Z else score in
  let score :=
    if contains (L "SUBQUERY") sql_upper || contains (L "(") sql_upper
    then (score + 2)%Z else score in
  Z.min score 10.

Section Environment.

(** [sqlparse.parse]: the statements of a text, or an exception. *)
Variable parse : str -> outcome (list statement).

(** Python does not fix the order in which a set is visited.
    [keyword_order] is the order in which a run visits
    [self.dangerous_keywords] (some arrangement of [dangerous_keywords]),
    and [list_of_set l] is what [list(set(l))] gives in that run. *)
Variable keyword_order : list str.
Variable list_of_set : list str -> list str.

(** [_extract_tables_and_columns]: [list(set(tables)), columns]. *)
Definition _extract_tables_and_columns (statement : statement)
    : list str * list ColumnRef :=
  let (tabs, cols) := extract_from_tokens statement in
  (list_of_set tabs, cols).

(** [_validate_security]: the four checks accumulate. *)
Definition _validate_security (sql_query : str) : Check.t :=
  let result := {| Check.is_valid := true; Check.errors := [] |} in
  let sql_upper := upper sql_query in
  let result :=
    fold_left
      (fun result keyword =>
         if contains keyword sql_upper
         then reject result
                (L "Dangerous keyword '" ++ keyword ++ L "' detected")
         else result)
      keyword_order result in
  let result :=
    fold_left
      (fun result pattern =>
         if truthy (re_search pattern sql_upper re_IGNORECASE)
         then reject result (L "Forbidden pattern detected: " ++ pattern)
         else result)
      forbidden_patterns result in
  let result :=
    if 1 <? count (L ";") sql_query
    then reject result (L "Multiple SQL statements not allowed")
    else result in
  let result :=
    if contains (L "--") sql_query || contains (L "/*") sql_query
    then reject result (L "SQL comments not allowed for security reasons")
    else result in
  result.


(** [_validate_syntax]. *)
Definition _validate_syntax (sql_query : str) : Check.t :=
  let result := {| Check.is_valid := true; Check.errors := [] |} in
  match parse sql_query with
  | Returned [] => reject result (L "Empty or invalid SQL query")
  | Returned (statement :: _) =>
      if negb (_is_select_statement statement)
      then reject result (L "Query must be a SELECT statement")
      else result
  | Raised e => reject result (L "Syntax error: " ++ e)
  end.

(** [_extract_query_info]: an exception of the parser is logged and the
    initial dictionary is returned. *)
Definition _extract_query_info (sql_query : str) : Info.t :=
  let result := {| Info.query_type := L "unknown";
                   Info.tables_used := [];
                   Info.columns_used := [] |} in
  match parse sql_query with
  | Returned [] => result
  | Returned (statement :: _) =>
      let query_type :=
        if _is_select_statement statement then L "SELECT"
        else Info.query_type result in
      let (tables, columns) := _extract_tables_and_columns statement in
      {| Info.query_type := query_type;
         Info.tables_used := tables;
         Info.columns_used := columns |}
  | Raised _ => result
  end.

(** [_validate_against_schema]. *)
Definition _validate_against_schema (sql_query : str)
    (schema_info : SchemaCatalog) : SchemaCheck.t :=
  let result := {| SchemaCheck.is_valid := true;
                   SchemaCheck.errors := [];
                   SchemaCheck.warnings := [] |} in
  let query_info := _extract_query_info sql_query in
  let available_tables := keys (tables schema_info) in
  let result :=
    fold_left
      (fun result table =>
         if negb (mem table available_tables)
         then {| SchemaCheck.is_valid := false;
                 SchemaCheck.errors := SchemaCheck.errors result ++
                   [L "Table '" ++ table ++ L "' does not exist in schema"];
                 SchemaCheck.warnings := SchemaCheck.warnings result |}
         else result)
      (Info.tables_used query_info) result in
  let result :=
    fold_left
      (fun result column_info =>
         match table column_info with
         | Some (_ :: _ as table_name) =>
             match dict_get table_name (tables schema_info) with
             | Some table_schema =>
                 let available_columns := map name (columns table_schema) in
                 let column_name := column column_info in
                 match column_name with
                 | _ :: _ =>
                     if negb (mem column_name available_columns)
                     then {| SchemaCheck.is_valid :=
                               SchemaCheck.is_valid result;
                             SchemaCheck.errors := SchemaCheck.errors result;
                             SchemaCheck.warnings :=
                               SchemaCheck.warnings result ++
                               [L "Column '" ++ column_name ++
                                L "' not found in table '" ++ table_name ++
                                L "'"] |}
                     else result
                 | [] => result
                 end
             | None => result
             end
         | _ => result
         end)
      (Info.columns_used query_info) result in
  result.

(** [validate_query].  [schema_info] is [None] (or an empty dictionary)
    when no catalog is given.  None of the phases lets an exception
    escape, so the handler of the source is never entered. *)
Definition validate_query (sql_query : str)
    (schema_info : option SchemaCatalog) : ValidationResult :=
  let validation_result :=
    {| is_valid := true; errors := []; warnings := []; suggestions := [];
       query_type := L "unknown"; tables_used := []; columns_used := [] |} in
  let syntax_result := _validate_syntax sql_query in
  if negb (Check.is_valid syntax_result) then
    {| is_valid := false;
       errors := errors validation_result ++ Check.errors syntax_result;
       warnings := warnings validation_result;
       suggestions := suggestions validation_result;
       query_type := query_type validation_result;
       tables_used := tables_used validation_result;
       columns_used := columns_used validation_result |}
  else
    let security_result := _validate_security sql_query in
    let (valid, errs) :=
      if negb (Check.is_valid security_result)
      then (false, errors validation_result ++ Check.errors security_result)
      else (is_valid validation_result, errors validation_result) in
    let query_info := _extract_query_info sql_query in
    let '(valid, errs, warns) :=
      match schema_info with
      | Some schema =>
          let schema_result := _validate_against_schema sql_query schema in
          let (valid, errs) :=
            if negb (SchemaCheck.is_valid schema_result)
            then (false, errs ++ SchemaCheck.errors schema_result)
            else (valid, errs) in
          (valid, errs,
           warnings validation_result ++ SchemaCheck.warnings schema_result)
      | None => (valid, errs, warnings validation_result)
      end in
    let performance_result := _validate_performance sql_query in
    {| is_valid := valid;
       errors := errs;
       warnings := warns ++ Perf.warnings performance_result;
       suggestions :=
         suggestions validation_result ++ Perf.suggestions performance_result;
       query_type := Info.query_type query_info;
       tables_used := Info.tables_used query_info;
       columns_used := Info.columns_used query_info |}.

End Environment.

(** [self.read_only_keywords], a set in the source, listed in the order
    of the literal. *)
Definition read_only_keywords : list str :=
  [L "SELECT"; L "SHOW"; L "DESCRIBE"; L "EXPLAIN"; L "WITH"].

Section ReadOnly.

(** The orders in which a run visits [self.dangerous_keywords] and
    [self.read_only_keywords]. *)
Variables keyword_order read_only_order : list str.

(** [is_read_only]: each of the two loops returns at its first hit. *)
Definition is_read_only (sql_query : str) : bool :=
  let sql_upper := upper sql_query in
  if existsb (fun keyword => contains keyword sql_upper) keyword_order
  then false
  else if existsb (fun keyword => contains keyword sql_upper) read_only_order
  then true
  else false.

End ReadOnly.

End QueryValidator.

(* ================================================================== *)
(** ** Python dictionaries *)
(* ================================================================== *)

Module PyDict.

(** A [dict] with string keys, kept as an association list in insertion
    order; a key occurs once. *)
Definition dict (V : Type) := list (str * V).

(** [d[k] = v]: an existing key keeps its place. *)
Fixpoint dict_set {V : Type} (k : str) (v : V) (d : dict V) : dict V :=
  match d with
  | [] => [(k, v)]
  | (k', v') :: d' =>
      if str_eqb k k' then (k', v) :: d' else (k', v') :: dict_set k v d'
  end.


(** [dict(pairs)]: later pairs overwrite earlier ones. *)
Definition dict_of {V : Type} (pairs : list (str * V)) : dict V :=
  fold_left (fun d kv => dict_set (fst kv) (snd kv) d) pairs [].

End PyDict.

(* ================================================================== *)
(** ** [FewShotLearning] *)
(* ================================================================== *)

Module FewShotLearning.

(** One stored example: the dictionary with the four keys written by
    [add_example] and by [_load_default_examples]. *)
Record Example := {
  natural_language : str;
  sql : str;
  category : str;
  difficulty : str
}.

Definition mk (nl q cat diff : string) : Example :=
  {| natural_language := L nl; sql := L q;
     category := L cat; difficulty := L diff |}.

(** [self.examples] after [_load_default_examples]. *)
Definition default_examples : list Example :=
  [ mk "Show me all users" "SELECT * FROM users" "basic_select" "easy";
    mk "Find users who signed up last month"
       "SELECT * FROM users WHERE created_at >= DATE_TRUNC('month', CURRENT_DATE - INTERVAL '1 month') AND created_at < DATE_TRUNC('month', CURRENT_DATE)"
       "date_filtering" "medium";
    mk "Count the number of orders per customer"
       "SELECT customer_id, COUNT(*) as order_count FROM orders GROUP BY customer_id"
       "aggregation" "medium";
    mk "Get the top 10 customers by total order value"
       "SELECT customer_id, SUM(order_total) as total_value FROM orders GROUP BY customer_id ORDER BY total_value DESC LIMIT 10"
       "aggregation_ordering" "hard";
    mk "Show me products and their categories"
       "SELECT p.name, c.name as category_name FROM products p JOIN categories c ON p.category_id = c.id"
       "joins" "medium";
    mk "Find customers who have placed more than 5 orders"
       "SELECT customer_id FROM orders GROUP BY customer_id HAVING COUNT(*) > 5"
       "having_clause" "hard";
    mk "Get the average order value by month"
       "SELECT DATE_TRUNC('month', order_date) as month, AVG(order_total) as avg_order_value FROM orders GROUP BY DATE_TRUNC('month', order_date) ORDER BY month"
       "date_aggregation" "hard";
    mk "Find products that are out of stock"
       "SELECT * FROM products WHERE stock_quantity = 0"
       "condition_filtering" "easy";
    mk "Show me the most expensive product in each category"
       "SELECT p.name, p.price, c.name as category FROM products p JOIN categories c ON p.category_id = c.id WHERE p.price = (SELECT MAX(price) FROM products WHERE category_id = p.category_id)"
       "subqueries" "hard";
    mk "Get customers who haven't placed any orders"
       "SELECT * FROM customers WHERE id NOT IN (SELECT DISTINCT customer_id FROM orders)"
       "not_in_subquery" "hard" ].

(** [add_example]: the new dictionary is appended to [self.examples];
    nothing is checked. *)
Definition add_example (examples : list Example)
    (natural_language sql category difficulty : str) : list Example :=
  let example := {| natural_language := natural_language; sql := sql;
                    category := category; difficulty := difficulty |} in
  examples ++ [example].

(** The two quantities of the quotient in [get_similar_examples]:
    [len(common_words)] and
    [max(len(query_lower.split()), len(example_text.split()))]. *)
Definition common_words (query_lower example_text : str) : list str :=
  inter (to_set (split query_lower)) (to_set (split example_text)).

Definition word_count_max (query_lower example_text : str) : nat :=
  Nat.max (length (split query_lower)) (length (split example_text)).

(** [len(common_words) / max(...)].  Python divides two integers into a
    float; the quotient is kept here as an exact rational, which orders
    and compares with 0.1 as the float does as long as the word counts
    stay far below 2^26.  A zero divisor raises [ZeroDivisionError]. *)
Definition similarity_score (query_lower example_text : str) : outcome Q :=
  match word_count_max query_lower example_text with
  | O => Raised (L "division by zero")
  | S _ as d =>
      Returned (Qmake (Z.of_nat (length (common_words query_lower example_text)))
                      (Pos.of_nat d))
  end.

Definition threshold : Q := Qmake 1 10.

Definition Qgtb (a b : Q) : bool := negb (Qle_bool a b).

(** The loop over [self.examples]: the pairs (score, example) kept so
    far are threaded through; an exception leaves the function. *)
Fixpoint collect (query_lower : str) (examples : list Example)
    (similarities : list (Q * Example)) : outcome (list (Q * Example)) :=
  match examples with
  | [] => Returned similarities
  | example :: rest =>
      let example_text := lower (natural_language example) in
      match similarity_score query_lower example_text with
      | Raised e => Raised e
      | Returned similarity_score =>
          collect query_lower rest
            (if Qgtb similarity_score threshold
             then similarities ++ [(similarity_score, example)]
             else similarities)
      end
  end.

(** [similarities.sort(key=lambda x: x[0], reverse=True)].  Python's sort
    is stable, also with [reverse=True]; the result of a stable sort is
    determined by the keys, so a stable insertion sort stands for it.
    [insert_desc x l] puts [x], which precedes all of [l] in the original
    order, before the first entry whose key is not greater. *)
Fixpoint insert_desc {A : Type} (x : Q * A) (l : list (Q * A))
    : list (Q * A) :=
  match l with
  | [] => [x]
  | y :: l' =>
      if Qgtb (fst y) (fst x) then y :: insert_desc x l' else x :: l
  end.

Definition sort_desc {A : Type} (l : list (Q * A)) : list (Q * A) :=
  fold_right insert_desc [] l.

(** [l[:limit]] for a Python integer [limit]: a negative [limit] counts
    from the end. *)
Definition slice_to {A : Type} (l : list A) (limit : Z) : list A :=
  if (0 <=? limit)%Z then firstn (Z.to_nat limit) l
  else firstn (length l - Z.to_nat (- limit)) l.

(** [get_similar_examples] on the store [examples]. *)
Definition get_similar_examples (examples : list Example) (query : str)
    (limit : Z) : outcome (list Example) :=
  let query_lower := lower query in
  match collect query_lower examples [] with
  | Raised e => Raised e
  | Returned similarities =>
      let similarities := sort_desc similarities in
      Returned (map snd (slice_to similarities limit))
  end.

(** [validate_example]. *)
Definition validate_example (natural_language sql : str) : bool :=
  match natural_language, sql with
  | [], _ | _, [] => false
  | _, _ =>
      let sql_upper := upper sql in
      if negb (existsb (fun keyword => contains keyword sql_upper)
                 [L "SELECT"; L "FROM"])
      then false
      else true
  end.


(** [get_examples_by_category] and [get_examples_by_difficulty]. *)
Definition get_examples_by_category (examples : list Example)
    (wanted : str) : list Example :=
  filter (fun ex => str_eqb (category ex) wanted) examples.

Definition get_examples_by_difficulty (examples : list Example)
    (wanted : str) : list Example :=
  filter (fun ex => str_eqb (difficulty ex) wanted) examples.

(** One entry of [self.patterns]. *)
Record Pattern := {
  keywords : list str;
  sql_template : str;
  description : str
}.

Definition pat (kws : list string) (template descr : string) : Pattern :=
  {| keywords := map L kws; sql_template := L template;
     description := L descr |}.

(** [self.patterns] after [_load_default_examples], in the order of the
    literal, which is the order in which the dictionary is visited. *)
Definition default_patterns : PyDict.dict Pattern :=
  [ (L "count",
     pat ["count"; "number of"; "how many"; "total"]%string
         "SELECT COUNT(*) FROM {table}" "Counting records");
    (L "sum",
     pat ["sum"; "total"; "sum of"; "add up"]%string
         "SELECT SUM({column}) FROM {table}" "Summing values");
    (L "average",
     pat ["average"; "avg"; "mean"; "average of"]%string
         "SELECT AVG({column}) FROM {table}" "Calculating averages");
    (L "group_by",
     pat ["per"; "by"; "group by"; "for each"]%string
         "SELECT {columns} FROM {table} GROUP BY {group_columns}"
         "Grouping results");
    (L "order_by",
     pat ["order by"; "sort by"; "highest"; "lowest"; "top"; "bottom"]%string
         "SELECT {columns} FROM {table} ORDER BY {order_column} {direction}"
         "Ordering results");
    (L "date_filter",
     pat ["today"; "yesterday"; "last week"; "last month"; "this year"]%string
         "SELECT {columns} FROM {table} WHERE {date_column} {condition}"
         "Date-based filtering") ].

(** An entry of the list returned by [get_patterns_for_query]. *)
Record PatternMatch := {
  name : str;
  info : Pattern;
  matched_keyword : str
}.

(** [get_patterns_for_query]: for each pattern the inner loop stops at the
    first keyword found in the lower-cased query. *)
Definition get_patterns_for_query (patterns : PyDict.dict Pattern)
    (query : str) : list PatternMatch :=
  let query_lower := lower query in
  fold_left
    (fun matching_patterns entry =>
       let pattern_name := fst entry in
       let pattern_info := snd entry in
       match find (fun keyword => contains keyword query_lower)
                  (keywords pattern_info) with
       | Some keyword =>
           matching_patterns ++
           [{| name := pattern_name; info := pattern_info;
               matched_keyword := keyword |}]
       | None => matching_patterns
       end)
    patterns [].

(** [format_examples_for_prompt]; the examples are numbered from 1. *)
Fixpoint format_from (i : nat) (examples : list Example) (formatted : str)
    : str :=
  match examples with
  | [] => formatted
  | example :: rest =>
      let formatted :=
        formatted ++ L "Example " ++ str_of_nat i ++ L ":" ++ [newline] in
      let formatted :=
        formatted ++ L "Natural Language: " ++ natural_language example
        ++ [newline] in
      let formatted :=
        formatted ++ L "SQL: " ++ sql example ++ [newline; newline] in
      format_from (S i) rest formatted
  end.

Definition format_examples_for_prompt (examples : list Example) : str :=
  match examples with
  | [] => []
  | _ => format_from 1 examples (L "Example queries:" ++ [newline; newline])
  end.




End FewShotLearning.

(* ================================================================== *)
(** ** [MockNL2SQLGenerator] *)
(* ================================================================== *)

Module MockNL2SQL.

Definition any_in (words : list str) (text : str) : bool :=
  existsb (fun word => contains word text) words.

(** [for table in tables: if table in query_lower: return ...]. *)
Definition first_mentioned (tables : list str) (query_lower : str)
    : option str :=
  find (fun table => contains table query_lower) tables.

(** A rule either returns its statement or falls through to the next. *)
Definition orelse (r : option str) (next : str) : str :=
  match r with
  | Some sql => sql
  | None => next
  end.

Section Rules.

Variables (query : str) (tables : list str).

Let query_lower := lower query.

(** Pattern 1: show all records from a table. *)
Definition show_all : option str :=
  if any_in [L "show me all"; L "get all"; L "list all"; L "display all"]
            query_lower
  then match first_mentioned tables query_lower with
       | Some table => Some (L "SELECT * FROM " ++ table)
       | None =>
           if mem (L "users") tables then Some (L "SELECT * FROM users")
           else None
       end
  else None.

(** Pattern 2: count records. *)
Definition count_records : option str :=
  if any_in [L "count"; L "number of"; L "how many"; L "total"] query_lower
  then match first_mentioned tables query_lower with
       | Some table => Some (L "SELECT COUNT(*) FROM " ++ table)
       | None =>
           if mem (L "users") tables
           then Some (L "SELECT COUNT(*) FROM users")
           else None
       end
  else None.

(** Pattern 3: find records with conditions. *)
Definition price_condition : option str :=
  if (contains (L "price") query_lower || contains (L "cost") query_lower)
     && mem (L "products") tables
  then match re_search (L "(\d+)") query no_flags with
       | Some price_match =>
           let price := group1 price_match in
           if contains (L "more than") query_lower
              || contains (L "greater than") query_lower
           then Some (L "SELECT * FROM products WHERE price > " ++ price)
           else if contains (L "less than") query_lower
                   || contains (L "under") query_lower
           then Some (L "SELECT * FROM products WHERE price < " ++ price)
           else Some (L "SELECT * FROM products WHERE price = " ++ price)
       | None => Some (L "SELECT * FROM products ORDER BY price DESC")
       end
  else None.

Definition find_records : option str :=
  if any_in [L "find"; L "get"; L "show"; L "display"] query_lower
  then match price_condition with
       | Some sql => Some sql
       | None =>
           if contains (L "user") query_lower && mem (L "users") tables
           then Some (L "SELECT * FROM users")
           else None
       end
  else None.

(** Pattern 4: top N records. *)
Definition top_n : option str :=
  if contains (L "top") query_lower
  then match re_search (L "top\s+(\d+)") query_lower no_flags with
       | Some number_match =>
           let limit := group1 number_match in
           if mem (L "products") tables
              && (contains (L "expensive") query_lower
                  || contains (L "price") query_lower)
           then Some (L "SELECT * FROM products ORDER BY price DESC LIMIT "
                      ++ limit)
           else if mem (L "users") tables
           then Some (L "SELECT * FROM users LIMIT " ++ limit)
           else None
       | None => None
       end
  else None.

(** Pattern 5: orders and customers. *)
Definition orders_customers : option str :=
  if contains (L "order") query_lower && mem (L "orders") tables
  then if contains (L "customer") query_lower
       then Some (L "SELECT o.*, u.username FROM orders o JOIN users u ON o.user_id = u.id")
       else Some (L "SELECT * FROM orders")
  else None.

(** Pattern 6: products and categories. *)
Definition products_categories : option str :=
  if (contains (L "product") query_lower
      && contains (L "categor") query_lower)
     && (mem (L "products") tables && mem (L "categories") tables)
  then Some (L "SELECT p.name, p.price, c.name as category FROM products p JOIN categories c ON p.category_id = c.id")
  else None.

(** Default fallback. *)
Definition fallback : str :=
  if mem (L "users") tables then L "SELECT * FROM users LIMIT 10"
  else match tables with
       | first :: _ => L "SELECT * FROM " ++ first ++ L " LIMIT 10"
       | [] => L "SELECT 1"
       end.

End Rules.

(** [_pattern_match_sql]: the rules in source order; the first one that
    returns wins.  The [schema] argument is not read by the source. *)
Definition _pattern_match_sql {Schema : Type} (query : str)
    (tables : list str) (schema : Schema) : str :=
  orelse (show_all query tables)
  (orelse (count_records query tables)
  (orelse (find_records query tables)
  (orelse (top_n query tables)
  (orelse (orders_customers query tables)
  (orelse (products_categories query tables)
  (fallback tables)))))).

(** The dictionary returned by [generate_sql]; the key [validation] is
    absent from the two error dictionaries. *)
Module Generation.
Record t := {
  sql_query : str;
  confidence : Q;
  explanation : str;
  tables_used : list str;
  columns_used : list QueryValidator.ColumnRef;
  validation : option QueryValidator.ValidationResult
}.
End Generation.

(** The dictionary returned by [execute_sql]; a result row is a
    dictionary from column names to values. *)
Module Execution.
Record t (V : Type) := {
  results : list (PyDict.dict V);
  row_count : nat;
  error : option str;
  execution_time : Q
}.
Arguments results {V} _.
Arguments row_count {V} _.
Arguments error {V} _.
Arguments execution_time {V} _.
End Execution.

Section Generator.

(** The parser and the set orders, as for the validator. *)
Variable parse : str -> outcome (list Sqlparse.statement).
Variable keyword_order : list str.
Variable list_of_set : list str -> list str.

(** The state of the generator and the answers of its collaborators:
    [self.is_initialized]; [self.schema_extractor.get_database_schema()],
    an empty dictionary ([None]) or a catalog, and
    [self.schema_extractor.get_all_tables()], either of which may raise;
    [self.few_shot_learning.examples]. *)
Variable is_initialized : bool.
Variable get_database_schema : outcome (option QueryValidator.SchemaCatalog).
Variable get_all_tables : outcome (list str).
Variable examples : list FewShotLearning.Example.

(** The dictionary of the two early returns of [generate_sql]. *)
Definition no_sql (explanation : str) : Generation.t :=
  {| Generation.sql_query := [];
     Generation.confidence := 0%Q;
     Generation.explanation := explanation;
     Generation.tables_used := [];
     Generation.columns_used := [];
     Generation.validation := None |}.

(** [generate_sql].  The float literals 0.8, 0.3 and 0.0 are kept as the
    decimal fractions they denote. *)
Definition generate_sql (natural_language_query : str) : Generation.t :=
  if negb is_initialized
  then no_sql
         (L "Generator not initialized. Please connect to database first.")
  else
    match get_database_schema with
    | Raised e => no_sql (L "Error generating SQL: " ++ e)
    | Returned schema =>
        match get_all_tables with
        | Raised e => no_sql (L "Error generating SQL: " ++ e)
        | Returned tables =>
            match FewShotLearning.get_similar_examples examples
                    natural_language_query 3 with
            | Raised e => no_sql (L "Error generating SQL: " ++ e)
            | Returned examples =>
                let sql_query :=
                  _pattern_match_sql natural_language_query tables schema in
                let validation_result :=
                  QueryValidator.validate_query parse keyword_order
                    list_of_set sql_query schema in
                let tables_used :=
                  QueryValidator.tables_used validation_result in
                let columns_used :=
                  QueryValidator.columns_used validation_result in
                let confidence :=
                  if QueryValidator.is_valid validation_result
                  then Qmake 4 5 else Qmake 3 10 in
                {| Generation.sql_query := sql_query;
                   Generation.confidence := confidence;
                   Generation.explanation :=
                     L "Generated using pattern matching. "
                     ++ str_of_nat (length examples)
                     ++ L " similar examples found.";
                   Generation.tables_used := tables_used;
                   Generation.columns_used := columns_used;
                   Generation.validation := Some validation_result |}
            end
        end
    end.

(** The database behind [execute_sql]: for a statement, the column names
    ([result.keys()]), the fetched rows and the seconds measured around
    the call, or an exception of [create_engine], [connect], [execute] or
    [fetchall]. *)
Variable V : Type.
Variable database : str -> outcome (list str * list (list V) * Q).

(** The dictionary of the three error returns of [execute_sql]. *)
Definition no_results (error : str) : Execution.t V :=
  {| Execution.results := [];
     Execution.row_count := 0;
     Execution.error := Some error;
     Execution.execution_time := 0%Q |}.

(** [execute_sql]: the statement is validated, without a schema, before
    anything is sent to the database. *)
Definition execute_sql (sql_query : str) : Execution.t V :=
  if negb is_initialized
  then no_results
         (L "Generator not initialized. Please connect to database first.")
  else
    let validation_result :=
      QueryValidator.validate_query parse keyword_order list_of_set
        sql_query None in
    if negb (QueryValidator.is_valid validation_result)
    then no_results
           (L "Invalid SQL query: "
            ++ join (L "; ") (QueryValidator.errors validation_result))
    else
      match database sql_query with
      | Raised e => no_results (L "Error executing SQL: " ++ e)
      | Returned (columns, rows, execution_time) =>
          let results :=
            match rows with
            | [] => []
            | _ => map (fun row => PyDict.dict_of (combine columns row)) rows
            end in
          {| Execution.results := results;
             Execution.row_count := length results;
             Execution.error := None;
             Execution.execution_time := execution_time |}
      end.

End Generator.

End MockNL2SQL.

(* ================================================================== *)
(** ** [NL2SQLGenerator]: cleaning and executing a generated statement *)
(* ================================================================== *)

Module NL2SQL.

(** [prefixes_to_remove] of [_clean_generated_sql]. *)
Definition prefixes_to_remove : list str :=
  [L "SQL:"; L "Query:"; L "SELECT"; L "Here's the SQL query:";
   L "The SQL query is:"; L "Generated SQL:"].

(** [_clean_generated_sql].  Each prefix is tried once, in list order, on
    the text as the earlier ones left it; [sql[len(prefix):]] and
    [sql[select_index:]] cut the text itself at an offset measured on its
    upper-cased form.  (The offset found by [find] is the one of Python
    when the characters before it are ASCII or in the case tables.) *)
Definition _clean_generated_sql (generated_text : str) : str :=
  let sql := strip generated_text in
  let sql :=
    fold_left
      (fun sql prefix =>
         if startswith (upper prefix) (upper sql)
         then strip (skipn (length prefix) sql)
         else sql)
      prefixes_to_remove sql in
  let sql :=
    if negb (startswith (L "SELECT") (upper sql))
    then match str_find (L "SELECT") (upper sql) with
         | Some select_index => skipn select_index sql
         | None => sql
         end
    else sql in
  rstrip_chars (L ".;") sql.

(** What [connection.execute] and [fetchall] answer: the column names and
    the rows, a [SQLAlchemyError], or another exception. *)
Inductive answer (Row : Type) :=
| Fetched (columns : list str) (rows : list Row)
| SQLAlchemyError (msg : str)
| OtherError (msg : str).
Arguments Fetched {Row} columns rows.
Arguments SQLAlchemyError {Row} msg.
Arguments OtherError {Row} msg.

(** The dictionaries returned by [execute_query], one constructor for each
    shape: validation failed (error "Query validation failed"), not
    read-only (error "Only SELECT queries are allowed for security
    reasons"), executed, and the two exception handlers. *)
Inductive response (Records : Type) :=
| ValidationFailed (validation_errors : list str)
| NotReadOnly
| Executed (results : Records) (row_count column_count : nat)
    (columns : list str) (sql_executed : str)
    (validation : QueryValidator.ValidationResult)
| Failed (error : str) (sql_executed : str).
Arguments ValidationFailed {Records} validation_errors.
Arguments NotReadOnly {Records}.
Arguments Executed {Records} results row_count column_count columns
  sql_executed validation.
Arguments Failed {Records} error sql_executed.

Section Generator.

Variable parse : str -> outcome (list Sqlparse.statement).
Variable keyword_order : list str.
Variable read_only_order : list str.
Variable list_of_set : list str -> list str.

(** [self.schema_info]: an empty dictionary ([None]) or a catalog. *)
Variable schema_info : option QueryValidator.SchemaCatalog.

(** The database, and the part of pandas the function uses: building a
    frame from rows and column names (which may raise), its records, its
    length and its columns. *)
Variables Row Frame Records : Type.
Variable connection_execute : str -> answer Row.
Variable DataFrame : list Row -> list str -> outcome Frame.
Variable to_dict_records : Frame -> Records.
Variable frame_len : Frame -> nat.
Variable frame_columns : Frame -> list str.

(** [execute_query]. *)
Definition execute_query (sql_query : str) (limit : Z) : response Records :=
  let validation_result :=
    QueryValidator.validate_query parse keyword_order list_of_set
      sql_query schema_info in
  if negb (QueryValidator.is_valid validation_result)
  then ValidationFailed (QueryValidator.errors validation_result)
  else if negb (QueryValidator.is_read_only keyword_order read_only_order
                  sql_query)
  then NotReadOnly
  else
    let sql_query :=
      if negb (contains (L "LIMIT") (upper sql_query))
         && negb (existsb (fun keyword => contains keyword (upper sql_query))
                    [L "COUNT("; L "SUM("; L "AVG("; L "MAX("; L "MIN("])
      then sql_query ++ L " LIMIT " ++ str_of_Z limit
      else sql_query in
    match connection_execute sql_query with
    | Fetched columns rows =>
        match DataFrame rows columns with
        | Returned df =>
            Executed (to_dict_records df) (frame_len df)
              (length (frame_columns df)) (frame_columns df) sql_query
              validation_result
        | Raised e => Failed (L "Execution error: " ++ e) sql_query
        end
    | SQLAlchemyError e => Failed (L "Database error: " ++ e) sql_query
    | OtherError e => Failed (L "Execution error: " ++ e) sql_query
    end.

End Generator.

End NL2SQL.

(* ================================================================== *)
(** ** [SchemaExtractor]: building and formatting the schema *)
(* ================================================================== *)

Module SchemaExtractor.

(** The parts of the schema dictionary that the extractor builds and
    formats.  A column is [{'name': ..., 'type': ..., 'nullable': ...}];
    [type] is the text that the f-string gives for the type object, and
    [nullable] is [None] when the key is absent. *)
Record ColumnInfo := {
  name : str;
  type : str;
  nullable : option bool
}.

Record ForeignKey := {
  constrained_columns : list str;
  referred_table : str;
  referred_columns : list str
}.

(** What [get_table_schema] returns for a table it could read. *)
Record TableInfo := {
  columns : list ColumnInfo;
  primary_keys : list str;
  foreign_keys : list ForeignKey
}.

Record Relationship := {
  from_table : str;
  from_column : str;
  to_table : str;
  to_column : str
}.

Record Summary := {
  total_tables : nat;
  total_columns : nat;
  total_relationships : nat
}.

(** The dictionary returned by [get_database_schema]. *)
Record Schema := {
  tables : PyDict.dict TableInfo;
  relationships : list Relationship;
  summary : Summary
}.

(** [xs[0]]. *)
Definition first {A : Type} (xs : list A) : outcome A :=
  match xs with
  | x :: _ => Returned x
  | [] => Raised (L "list index out of range")
  end.

(** The line of one column in [format_schema_for_prompt]. *)
Definition column_line (column : ColumnInfo) : str :=
  let col_name := name column in
  let col_type := type column in
  let nullable :=
    if match nullable column with Some b => b | None => true end
    then L "NULL" else L "NOT NULL" in
  L "  - " ++ col_name ++ L ": " ++ col_type ++ L " (" ++ nullable ++ L ")"
  ++ [newline].

(** The loop over the foreign keys of one table. *)
Fixpoint format_foreign_keys (fks : list ForeignKey) (formatted_schema : str)
    : outcome str :=
  match fks with
  | [] => Returned formatted_schema
  | fk :: rest =>
      match first (constrained_columns fk) with
      | Raised e => Raised e
      | Returned from_col =>
          let to_table := referred_table fk in
          match first (referred_columns fk) with
          | Raised e => Raised e
          | Returned to_col =>
              format_foreign_keys rest
                (formatted_schema ++ L "  Foreign Key: " ++ from_col
                 ++ L " -> " ++ to_table ++ L "." ++ to_col ++ [newline])
          end
      end
  end.

(** The loop over [schema['tables'].items()]. *)
Fixpoint format_tables (schema_tables : PyDict.dict TableInfo)
    (formatted_schema : str) : outcome str :=
  match schema_tables with
  | [] => Returned formatted_schema
  | (table_name, table_info) :: rest =>
      let formatted_schema :=
        formatted_schema ++ L "Table: " ++ table_name ++ [newline] in
      let formatted_schema :=
        fold_left
          (fun formatted_schema column =>
             formatted_schema ++ column_line column)
          (columns table_info) formatted_schema in
      let formatted_schema :=
        match primary_keys table_info with
        | [] => formatted_schema
        | pk_columns =>
            formatted_schema ++ L "  Primary Key: "
            ++ join (L ", ") pk_columns ++ [newline]
        end in
      match format_foreign_keys (foreign_keys table_info) formatted_schema
      with
      | Raised e => Raised e
      | Returned formatted_schema =>
          format_tables rest (formatted_schema ++ [newline])
      end
  end.

(** [format_schema_for_prompt]; the argument is [schema['tables']], or
    [None] for an empty dictionary or one without that key. *)
Definition format_schema_for_prompt
    (schema : option (PyDict.dict TableInfo)) : outcome str :=
  match schema with
  | None => Returned (L "No schema information available")
  | Some schema_tables =>
      format_tables schema_tables
        (L "Database Schema:" ++ [newline; newline])
  end.

Section Inspector.

(** The database behind the extractor: whether [connect] succeeds, the
    table names of the inspector, either of which may raise, and what
    [get_table_schema] returns for a table, [None] standing for the empty
    dictionary it returns when the table cannot be read. *)
Variable connect : outcome bool.
Variable get_all_tables : outcome (list str).
Variable get_table_schema : str -> option TableInfo.

(** The loop over the foreign keys of one table in
    [get_database_schema]. *)
Fixpoint add_relationships (table : str) (fks : list ForeignKey)
    (relationships : list Relationship) : outcome (list Relationship) :=
  match fks with
  | [] => Returned relationships
  | fk :: rest =>
      match first (constrained_columns fk) with
      | Raised e => Raised e
      | Returned from_column =>
          match first (referred_columns fk) with
          | Raised e => Raised e
          | Returned to_column =>
              add_relationships table rest
                (relationships ++
                 [{| from_table := table; from_column := from_column;
                     to_table := referred_table fk;
                     to_column := to_column |}])
          end
      end
  end.

(** The loop over the tables. *)
Fixpoint load_tables (all_tables : list str)
    (schema_tables : PyDict.dict TableInfo)
    (relationships : list Relationship)
    : outcome (PyDict.dict TableInfo * list Relationship) :=
  match all_tables with
  | [] => Returned (schema_tables, relationships)
  | table :: rest =>
      match get_table_schema table with
      | Some table_schema =>
          let schema_tables :=
            PyDict.dict_set table table_schema schema_tables in
          match add_relationships table (foreign_keys table_schema)
                  relationships with
          | Raised e => Raised e
          | Returned relationships =>
              load_tables rest schema_tables relationships
          end
      | None => load_tables rest schema_tables relationships
      end
  end.

(** [get_database_schema]: [None] is the empty dictionary returned when
    the connection fails. *)
Definition get_database_schema : outcome (option Schema) :=
  match connect with
  | Raised e => Raised e
  | Returned false => Returned None
  | Returned true =>
      match get_all_tables with
      | Raised e => Raised e
      | Returned all_tables =>
          match load_tables all_tables [] [] with
          | Raised e => Raised e
          | Returned (schema_tables, relationships) =>
              Returned
                (Some
                   {| tables := schema_tables;
                      relationships := relationships;
                      summary :=
                        {| total_tables := length all_tables;
                           total_columns :=
                             list_sum
                               (map (fun table_info =>
                                       length (columns table_info))
                                    (map snd schema_tables));
                           total_relationships := length relationships |}
                   |})
          end
      end
  end.

End Inspector.

End SchemaExtractor.

(* ================================================================== *)
(** ** [app/utils/helpers.py] *)
(* ================================================================== *)

Module Helpers.

Import Sqlparse.

Section Parser.

Variable parse : str -> outcome (list statement).
Variable list_of_set : list str -> list str.

(** [extract_tables_from_sql]: the leaves of type [Name] among the
    top-level tokens of every statement. *)
Definition extract_tables_from_sql (sql_query : str) : list str :=
  match parse sql_query with
  | Returned parsed =>
      let tables :=
        flat_map
          (fun statement =>
             flat_map
               (fun token =>
                  match token with
                  | Leaf ttype v => if ttype_is ttype Name then [v] else []
                  | Group _ _ => []
                  end)
               statement)
          parsed in
      list_of_set tables
  | Raised _ => []
  end.

(** [extract_columns_from_sql]: the leaves of type [Name] directly below
    a top-level token that has children. *)
Definition extract_columns_from_sql (sql_query : str) : list str :=
  match parse sql_query with
  | Returned parsed =>
      let columns :=
        flat_map
          (fun statement =>
             flat_map
               (fun token =>
                  match token with
                  | Group _ subtokens =>
                      flat_map
                        (fun subtoken =>
                           match subtoken with
                           | Leaf ttype v =>
                               if ttype_is ttype Name then [v] else []
                           | Group _ _ => []
                           end)
                        subtokens
                  | Leaf _ _ => []
                  end)
               statement)
          parsed in
      list_of_set columns
  | Raised _ => []
  end.

End Parser.

(** [sanitize_sql_input]: the six markers are removed one after the other,
    each in one pass over the text the earlier removals left. *)
Definition dangerous_chars : list str :=
  [L ";"; L "--"; L "/*"; L "*/"; L "xp_"; L "sp_"].

Definition sanitize_sql_input (user_input : str) : str :=
  let sanitized :=
    fold_left (fun sanitized char => replace char [] sanitized)
      dangerous_chars user_input in
  strip (re_sub (L "\s+") (L " ") sanitized no_flags).

(** The dictionary returned by [format_results_for_display]. *)
Record Display (V : Type) := {
  data : list (PyDict.dict V);
  total_rows : nat;
  displayed_rows : nat;
  columns : list str;
  truncated : bool
}.
Arguments data {V} _.
Arguments total_rows {V} _.
Arguments displayed_rows {V} _.
Arguments columns {V} _.
Arguments truncated {V} _.

(** [format_results_for_display]; [max_rows] is any Python integer. *)
Definition format_results_for_display {V : Type}
    (results : list (PyDict.dict V)) (max_rows : Z) : Display V :=
  match results with
  | [] =>
      {| data := []; total_rows := 0; displayed_rows := 0; columns := [];
         truncated := false |}
  | first :: _ =>
      let truncated := (max_rows <? Z.of_nat (length results))%Z in
      let display_data := FewShotLearning.slice_to results max_rows in
      {| data := display_data;
         total_rows := length results;
         displayed_rows := length display_data;
         columns := QueryValidator.keys first;
         truncated := truncated |}
  end.

(** [validate_natural_language_query]. *)
Definition sql_keywords : list str :=
  [L "SELECT"; L "FROM"; L "WHERE"; L "JOIN"; L "GROUP BY"; L "ORDER BY"].

Definition validate_natural_language_query (query : str) : bool * str :=
  if match query with [] => true | _ => false end
     || match strip query with [] => true | _ => false end
  then (false, L "Query cannot be empty")
  else if length (strip query) <? 3
  then (false, L "Query is too short")
  else if 1000 <? length query
  then (false, L "Query is too long (max 1000 characters)")
  else
    let query_upper := upper query in
    match find (fun keyword => contains keyword query_upper) sql_keywords with
    | Some keyword =>
        (false, L "Query contains SQL keyword '" ++ keyword
                ++ L "'. Please use natural language.")
    | None => (true, L "Valid query")
    end.

End Helpers.

(* ================================================================== *)
(** ** Definitions used to state the properties *)
(* ================================================================== *)

Module Statements.

Import Sqlparse QueryValidator FewShotLearning.

(** The nine structural tests of [get_query_complexity_score]. *)
Inductive indicator :=
| JOIN | GROUP_BY | HAVING | ORDER_BY | LIMIT | WHERE | DISTINCT | UNION
| SUBQUERY.

Definition indicators : list indicator :=
  [JOIN; GROUP_BY; HAVING; ORDER_BY; LIMIT; WHERE; DISTINCT; UNION; SUBQUERY].

(** The condition of each test, as the source writes it. *)
Definition triggered (i : indicator) (sql_query : str) : bool :=
  let sql_upper := upper sql_query in
  match i with
  | JOIN => contains (L "JOIN") sql_upper
  | GROUP_BY => contains (L "GROUP BY") sql_upper
  | HAVING => contains (L "HAVING") sql_upper
  | ORDER_BY => contains (L "ORDER BY") sql_upper
  | LIMIT => contains (L "LIMIT") sql_upper
  | WHERE => contains (L "WHERE") sql_upper
  | DISTINCT => contains (L "DISTINCT") sql_upper
  | UNION => contains (L "UNION") sql_upper
  | SUBQUERY =>
      contains (L "SUBQUERY") sql_upper || contains (L "(") sql_upper
  end.

(** The same tests as the written description lists them: the ninth is
    "any parenthesis".  Used only for comparison with [triggered]. *)
Definition described_triggered (i : indicator) (sql_query : str) : bool :=
  match i with
  | SUBQUERY => contains (L "(") (upper sql_query)
  | _ => triggered i sql_query
  end.

Definition weight (i : indicator) : Z :=
  match i with
  | JOIN | UNION | SUBQUERY => 2
  | _ => 1
  end.

(** What one test adds to the score. *)
Definition points (i : indicator) (sql_query : str) : Z :=
  if triggered i sql_query then weight i else 0%Z.

(** A rule of the pattern matcher only returns statements that begin
    with SELECT. *)
Definition selects (r : option str) : Prop :=
  forall sql, r = Some sql -> startswith (L "SELECT") sql = true.

(** A phase result is consistent when it is invalid exactly when it
    carries an error. *)
Definition consistent (r : Check.t) : Prop :=
  Check.is_valid r = match Check.errors r with [] => true | _ => false end.

(** The exact similarity of a stored example to a query, when the divisor
    is not zero. *)
Definition score (query : str) (e : Example) : Q :=
  Qmake
    (Z.of_nat (length (common_words (lower query)
                         (lower (natural_language e)))))
    (Pos.of_nat (word_count_max (lower query)
                   (lower (natural_language e)))).

Definition kept (query : str) (e : Example) : bool :=
  Qgtb (score query e) threshold.


(** The pairs (score, example) that [get_similar_examples] builds. *)
Definition keyed (query : str) (l : list Example) : list (Q * Example) :=
  map (fun e => (score query e, e)) l.



(** A whitespace tokenizer standing in for [sqlparse.parse] in the
    examples: one statement, one leaf per word. *)
Definition word_token (w : str) : token :=
  if str_eqb (upper w) (L "SELECT") then Leaf Keyword_DML w else Leaf Name w.

Definition words_parse (sql_query : str) : outcome (list statement) :=
  match split sql_query with
  | [] => Returned []
  | ws => Returned [map word_token ws]
  end.

(** [u] is what remains of [s] after some of its first characters. *)
Definition suffix_of (u s : str) : Prop := exists a, s = a ++ u.

(** A character of an upper-cased text that holds no capital I with dot:
    no ASCII lower-case letter, and none of the three letters. *)
Definition upper_text_char (c : char) : bool :=
  negb (is_lower c)
  && negb (existsb (char_eqb c) [dotted_I; dotless_i; long_s]).

Definition upper_text (s : str) : bool := forallb upper_text_char s.

(** A literal character of the forbidden patterns: ASCII, no lower-case
    letter and not K. *)
Definition plain_literal (p : char) : bool :=
  is_ascii p && negb (is_lower p) && negb (char_eqb p (ch "K")).

Definition plain_literals (s : str) : bool := forallb plain_literal s.

(** Whitespace as [sanitize_query] leaves it: every whitespace character
    is a blank that is not followed by another whitespace character. *)
Definition starts_with_space (s : str) : bool :=
  match s with
  | c :: _ => is_space c
  | [] => false
  end.

Fixpoint single_spaced (s : str) : bool :=
  match s with
  | [] => true
  | c :: s' =>
      (if is_space c
       then char_eqb c (ch " ") && negb (starts_with_space s')
       else true)
      && single_spaced s'
  end.

(** The leading literal characters of a pattern. *)
Fixpoint lit_prefix (re : regex) : str :=
  match re with
  | Rep (Lit c) Once :: re' => c :: lit_prefix re'
  | _ => []
  end.

(** The patterns of [sanitize_query] and of the security phase, as
    [compile] reads them. *)
Definition line_comment_re : regex :=
  [Rep (Lit (ch "-")) Once; Rep (Lit (ch "-")) Once; Rep Dot Greedy0; Eol].

Definition block_comment_re : regex :=
  [Rep (Lit (ch "/")) Once; Rep (Lit (ch "*")) Once; Rep Dot Lazy0;
   Rep (Lit (ch "*")) Once; Rep (Lit (ch "/")) Once].

Definition spaces_re : regex := [Rep Space Greedy1].

(** The third substitution of [sanitize_query]. *)
Definition collapse (s : str) : str := sub_re no_flags spaces_re (L " ") s.


(** The text before the first occurrence of [sep]. *)
Fixpoint before (sep : char) (s : str) : str :=
  match s with
  | [] => []
  | c :: s' => if char_eqb c sep then [] else c :: before sep s'
  end.

(** Every match of the continuation fits into the text it is given. *)
Definition bounded (k : str -> option pieces) : Prop :=
  forall s r, k s = Some r -> total r <= length s.

(** No whitespace at either end. *)
Definition trimmed (s : str) : Prop :=
  starts_with_space s = false /\ starts_with_space (rev s) = false.

(** The length of the leading run of characters satisfying [ok]. *)
Fixpoint run (ok : char -> bool) (s : str) : nat :=
  match s with
  | c :: s' => if ok c then S (run ok s') else 0
  | [] => 0
  end.


(** The values of the leaves of type [Name] below a token, at any depth
    and in text order. *)
Fixpoint names (t : token) : list str :=
  match t with
  | Leaf ttype v => if ttype_is ttype Name then [v] else []
  | Group _ ts => flat_map names ts
  end.

(** The tables of a statement are all in the catalog. *)
Definition tables_known (schema_info : option SchemaCatalog)
    (tables_used : list str) : bool :=
  match schema_info with
  | Some schema =>
      forallb (fun table => mem table (keys (tables schema))) tables_used
  | None => true
  end.

(** The errors of the schema phase: one for each table that the catalog
    does not have. *)
Definition missing_tables (schema_info : option SchemaCatalog)
    (tables_used : list str) : list str :=
  match schema_info with
  | Some schema =>
      map (fun table => L "Table '" ++ table ++ L "' does not exist in schema")
        (filter (fun table => negb (mem table (keys (tables schema))))
           tables_used)
  | None => []
  end.

(** The stored dictionary that [add_example] builds. *)
Definition new_example (natural_language sql category difficulty : str)
    : Example :=
  {| natural_language := natural_language; sql := sql;
     category := category; difficulty := difficulty |}.

(** The three lines that [format_examples_for_prompt] writes for the
    example numbered [i]. *)
Definition prompt_block (i : nat) (e : Example) : str :=
  L "Example " ++ str_of_nat i ++ L ":" ++ [newline]
  ++ L "Natural Language: " ++ natural_language e ++ [newline]
  ++ L "SQL: " ++ sql e ++ [newline; newline].

(** A keyword of the pattern occurs in the lower-cased query. *)
Definition pattern_applies (query : str) (entry : str * Pattern) : bool :=
  existsb (fun keyword => contains keyword (lower query))
    (keywords (snd entry)).


(** [u] is a piece of [s]: some characters of [s] come before it and some
    after it. *)
Definition substring_of (u s : str) : Prop := exists a b, s = a ++ u ++ b.

(** The last character of [s] is one of [chars]. *)
Definition ends_with_any (chars s : str) : bool :=
  match rev s with
  | c :: _ => existsb (char_eqb c) chars
  | [] => false
  end.

(** The statement that [execute_query] handed to the database, when it
    did. *)
Definition sql_executed {Records : Type} (r : NL2SQL.response Records)
    : option str :=
  match r with
  | NL2SQL.Executed _ _ _ _ sql _ => Some sql
  | NL2SQL.Failed _ sql => Some sql
  | _ => None
  end.

(** The aggregate calls that keep [execute_query] from adding a LIMIT. *)
Definition aggregates : list str :=
  [L "COUNT("; L "SUM("; L "AVG("; L "MAX("; L "MIN("].

(** One round of the prefix loop of [_clean_generated_sql]. *)
Definition remove_prefix (sql prefix : str) : str :=
  if startswith (upper prefix) (upper sql)
  then strip (skipn (length prefix) sql)
  else sql.

(** A foreign key of which both column lists have a first entry. *)
Definition usable (fk : SchemaExtractor.ForeignKey) : bool :=
  match SchemaExtractor.constrained_columns fk,
        SchemaExtractor.referred_columns fk with
  | _ :: _, _ :: _ => true
  | _, _ => false
  end.

(** The number of foreign keys that the inspector reports for a table it
    can read. *)
Definition foreign_key_count
    (get_table_schema : str -> option SchemaExtractor.TableInfo)
    (table : str) : nat :=
  match get_table_schema table with
  | Some table_schema => length (SchemaExtractor.foreign_keys table_schema)
  | None => 0
  end.

(** The whitespace code points, and a run of the lower-case table of
    which no image is one of them. *)
Definition space_points : list char :=
  [9; 10; 11; 12; 13; 28; 29; 30; 31; 32; 133; 160; 5760; 8192; 8193; 8194;
   8195; 8196; 8197; 8198; 8199; 8200; 8201; 8202; 8232; 8233; 8239; 8287;
   12288]%N.

Definition run_clear (run : N * N * N * N) : bool :=
  let '(first, last, _, image) := run in
  forallb (fun p => negb (in_range image (image + (last - first)) p))
    space_points.

End Statements.

(* ================================================================== *)
(** * Properties *)
(* ================================================================== *)

(** ** Characters and strings *)

Module PyStrFacts.

Import Statements.

#[global] Arguments char_eqb : simpl never.
#[global] Arguments in_range : simpl never.

Local Open Scope N_scope.

Lemma char_eqb_eq a b : char_eqb a b = true <-> a = b.
Proof. unfold char_eqb. apply N.eqb_eq. Qed.

Lemma char_eqb_neq a b : char_eqb a b = false <-> a <> b.
Proof. unfold char_eqb. apply N.eqb_neq. Qed.

Lemma char_eqb_refl a : char_eqb a a = true.
Proof. apply char_eqb_eq. reflexivity. Qed.

Lemma in_range_true lo hi c : in_range lo hi c = true <-> lo <= c <= hi.
Proof.
  unfold in_range. rewrite andb_true_iff, !N.leb_le. tauto.
Qed.

Lemma in_range_false lo hi c :
  in_range lo hi c = false <-> c < lo \/ hi < c.
Proof.
  unfold in_range. rewrite andb_false_iff, !N.leb_gt. tauto.
Qed.

(** Rewrites the tests on code points in the context into arithmetic. *)
Ltac arith_tests :=
  repeat match goal with
    | H : _ && _ = true |- _ => apply andb_true_iff in H; destruct H
    | H : negb _ = true |- _ => apply negb_true_iff in H
    | H : _ || _ = false |- _ => apply orb_false_iff in H; destruct H
    | H : in_range _ _ _ = true |- _ => apply in_range_true in H
    | H : in_range _ _ _ = false |- _ => apply in_range_false in H
    | H : char_eqb _ _ = true |- _ => apply char_eqb_eq in H
    | H : char_eqb _ _ = false |- _ => apply char_eqb_neq in H
    | H : N.ltb _ _ = true |- _ => apply N.ltb_lt in H
    | H : N.ltb _ _ = false |- _ => apply N.ltb_ge in H
    end.

Lemma upper_app a b : upper (a ++ b) = upper a ++ upper b.
Proof. apply flat_map_app. Qed.

Lemma assoc_in {V : Type} c (table : list (char * V)) v :
  assoc c table = Some v -> In (c, v) table.
Proof.
  induction table as [|[k w] table IH]; simpl; [discriminate|].
  destruct (char_eqb c k) eqn:E.
  - apply char_eqb_eq in E. intros H. injection H as ->. left. now subst.
  - intros H. right. now apply IH.
Qed.

Lemma assoc_none {V : Type} c (table : list (char * V)) :
  assoc c table = None -> ~ In c (map fst table).
Proof.
  induction table as [|[k w] table IH]; simpl; [tauto|].
  destruct (char_eqb c k) eqn:E; [discriminate|].
  apply char_eqb_neq in E. intros H [Hk | Hin]; [congruence | now apply IH].
Qed.

(** Folding for case-insensitive matching, by the kind of character. *)
Lemma fold_plain_literal p :
  plain_literal p = true ->
  (65 <= p <= 90 /\ p <> 75 /\ fold_char p = p + 32) \/
  ((p < 65 \/ 90 < p < 97 \/ 122 < p < 128) /\ fold_char p = p).
Proof.
  unfold plain_literal, is_ascii, is_lower, fold_char, is_upper,
    dotted_I, kelvin. intros H. arith_tests.
  change (ch "K") with 75 in *.
  destruct (in_range 65 90 p) eqn:E; arith_tests.
  - left. repeat split; lia.
  - right. destruct (char_eqb p 304) eqn:E1; arith_tests; [lia|].
    destruct (char_eqb p 8490) eqn:E2; arith_tests; [lia|].
    split; [lia | reflexivity].
Qed.

Lemma fold_upper_text c :
  upper_text_char c = true ->
  (65 <= c <= 90 /\ fold_char c = c + 32) \/
  (c = 8490 /\ fold_char c = 107) \/
  ((c < 65 \/ 90 < c < 97 \/ 122 < c) /\
   c <> 304 /\ c <> 305 /\ c <> 383 /\ c <> 8490 /\ fold_char c = c).
Proof.
  unfold upper_text_char, is_lower, fold_char, is_upper, dotted_I,
    dotless_i, long_s, kelvin. cbn [existsb]. intros H. arith_tests.
  destruct (in_range 65 90 c) eqn:E; arith_tests.
  - left. split; [lia | reflexivity].
  - right. destruct (char_eqb c 304) eqn:E1; arith_tests; [congruence|].
    destruct (char_eqb c 8490) eqn:E2; arith_tests.
    + left. split; [assumption | reflexivity].
    + right. repeat split; try assumption; lia.
Qed.

(** On a plain literal and a character of an upper-cased text,
    case-insensitive matching is equality. *)
Lemma ci_match_plain p c :
  plain_literal p = true -> upper_text_char c = true ->
  ci_match p c = true -> p = c.
Proof.
  intros Hp Hc. unfold ci_match. cbv zeta.
  change (ch "i") with 105. change (ch "s") with 115.
  unfold dotless_i, long_s.
  destruct (fold_plain_literal p Hp) as [(Hp1 & Hp2 & ->) | (Hp1 & ->)];
    destruct (fold_upper_text c Hc)
      as [(Hc1 & ->) | [(Hc1 & ->) | (Hc1 & H304 & H305 & H383 & H8490 & ->)]];
    intros H;
    repeat match type of H with
      | _ || _ = true => apply orb_true_iff in H; destruct H as [H | H]
      end;
    arith_tests; lia.
Qed.

Lemma upper_special_upper_text :
  forallb (fun kv => upper_text (snd kv)) upper_special = true.
Proof. vm_compute. reflexivity. Qed.

Lemma upper_special_keys :
  map fst upper_special =
  [223; 305; 329; 383; 496; 7830; 7831; 7832; 7833; 7834;
   64256; 64257; 64258; 64259; 64260; 64261; 64262].
Proof. vm_compute. reflexivity. Qed.

Lemma upper_char_upper_text c :
  c <> dotted_I -> upper_text (upper_char c) = true.
Proof.
  intros Hc. unfold upper_char.
  destruct (is_lower c) eqn:El.
  - unfold upper_text, upper_text_char, is_lower, dotted_I, dotless_i,
      long_s in *. cbn [forallb existsb]. arith_tests.
    rewrite andb_true_r, orb_false_r.
    apply andb_true_iff. split; apply negb_true_iff.
    + apply in_range_false. lia.
    + repeat (apply orb_false_iff; split); apply char_eqb_neq; lia.
  - destruct (assoc c upper_special) as [u|] eqn:E.
    + apply assoc_in in E.
      pose proof upper_special_upper_text as H.
      rewrite forallb_forall in H. exact (H (c, u) E).
    + apply assoc_none in E. rewrite upper_special_keys in E.
      unfold upper_text, upper_text_char, dotted_I, dotless_i, long_s in *.
      cbn [forallb existsb]. rewrite El, andb_true_r, orb_false_r. simpl.
      apply negb_true_iff.
      repeat (apply orb_false_iff; split); apply char_eqb_neq;
        [exact Hc | |];
        intros ->; apply E; simpl; tauto.
Qed.

Lemma upper_upper_text s : ~ In dotted_I s -> upper_text (upper s) = true.
Proof.
  unfold upper_text, upper. induction s as [|c s IH]; intros H;
    [reflexivity|].
  simpl. rewrite forallb_app. apply andb_true_iff. split.
  - apply upper_char_upper_text. intros ->. apply H. now left.
  - apply IH. intros Hin. apply H. now right.
Qed.

Lemma upper_text_suffix u s :
  suffix_of u s -> upper_text s = true -> upper_text u = true.
Proof.
  unfold upper_text. intros [a ->] H. rewrite forallb_app in H.
  now apply andb_true_iff in H.
Qed.

Local Close Scope N_scope.

Lemma str_eqb_eq a b : str_eqb a b = true <-> a = b.
Proof.
  revert b. induction a as [|x a IH]; destruct b as [|y b]; simpl;
    try (split; [discriminate | congruence]); try tauto.
  rewrite andb_true_iff, char_eqb_eq, IH. split.
  - intros [-> ->]. reflexivity.
  - intros E. injection E as -> ->. auto.
Qed.

Lemma startswith_iff p s : startswith p s = true <-> exists r, s = p ++ r.
Proof.
  revert s. induction p as [|x p IH]; intros s; simpl.
  - split; eauto.
  - destruct s as [|y s].
    + split; [discriminate | intros [r Hr]; discriminate].
    + rewrite andb_true_iff, char_eqb_eq, IH. split.
      * intros [-> [r ->]]. eauto.
      * intros [r E]. injection E as -> ->. eauto.
Qed.

Lemma contains_iff n h :
  contains n h = true <-> exists a b, h = a ++ n ++ b.
Proof.
  induction h as [|y h IH]; simpl.
  - rewrite orb_false_r, startswith_iff. split.
    + intros [r ->]. exists [], r. reflexivity.
    + intros [a [b E]]. destruct a; [eauto | discriminate].
  - rewrite orb_true_iff, startswith_iff, IH. split.
    + intros [[r ->] | [a [b ->]]].
      * exists [], r. reflexivity.
      * exists (y :: a), b. reflexivity.
    + intros [a [b E]]. destruct a as [|x a].
      * left. exists b. exact E.
      * right. injection E as _ ->. eauto.
Qed.

Lemma contains_suffix n u s :
  suffix_of u s -> contains n u = true -> contains n s = true.
Proof.
  intros [a ->] H. apply contains_iff in H. destruct H as [x [y ->]].
  apply contains_iff. exists (a ++ x), y. now rewrite <- app_assoc.
Qed.

Lemma startswith_contains n s : startswith n s = true -> contains n s = true.
Proof.
  intros H. destruct s; simpl; rewrite H; reflexivity.
Qed.

Lemma contains_app_l n a b : contains n a = true -> contains n (a ++ b) = true.
Proof.
  intros H. apply contains_iff in H. destruct H as [x [y ->]].
  apply contains_iff. exists x, (y ++ b). now rewrite <- !app_assoc.
Qed.

Lemma contains_upper_variant n pre mid post :
  upper mid = n -> contains n (upper (pre ++ mid ++ post)) = true.
Proof.
  intros <-. apply contains_iff. exists (upper pre), (upper post).
  now rewrite !upper_app.
Qed.

Lemma suffix_of_refl s : suffix_of s s.
Proof. exists []. reflexivity. Qed.

Lemma suffix_of_cons c u s : suffix_of u s -> suffix_of u (c :: s).
Proof. intros [a ->]. exists (c :: a). reflexivity. Qed.

Lemma suffix_of_tail c u s : suffix_of (c :: u) s -> suffix_of u s.
Proof. intros [a ->]. exists (a ++ [c]). now rewrite <- app_assoc. Qed.

End PyStrFacts.

(** ** The complexity score *)

Module ComplexityFacts.

Import Statements QueryValidator PyStrFacts.

Lemma score_as_sum sql_query :
  get_query_complexity_score sql_query =
  Z.min (1 + fold_right (fun i acc => points i sql_query + acc)%Z 0%Z
               indicators) 10.
Proof.
  unfold get_query_complexity_score, points, indicators, triggered.
  cbv zeta. cbv beta iota delta [fold_right weight].
  generalize (contains (L "JOIN") (upper sql_query)),
    (contains (L "GROUP BY") (upper sql_query)),
    (contains (L "HAVING") (upper sql_query)),
    (contains (L "ORDER BY") (upper sql_query)),
    (contains (L "LIMIT") (upper sql_query)),
    (contains (L "WHERE") (upper sql_query)),
    (contains (L "DISTINCT") (upper sql_query)),
    (contains (L "UNION") (upper sql_query)),
    (contains (L "SUBQUERY") (upper sql_query)
     || contains (L "(") (upper sql_query)).
  intros [] [] [] [] [] [] [] [] []; reflexivity.
Qed.

Lemma points_nonneg i s : (0 <= points i s)%Z.
Proof. unfold points. destruct (triggered i s), i; simpl; lia. Qed.

Lemma points_mono i a b :
  (triggered i a = true -> triggered i b = true) ->
  (points i a <= points i b)%Z.
Proof.
  unfold points. intros H. destruct (triggered i a).
  - rewrite H by reflexivity. lia.
  - destruct (triggered i b), i; simpl; lia.
Qed.

Lemma sum_points_mono a b l :
  (forall i, triggered i a = true -> triggered i b = true) ->
  (0 <= fold_right (fun i acc => points i a + acc) 0 l
     <= fold_right (fun i acc => points i b + acc) 0 l)%Z.
Proof.
  intros H. induction l as [|i l IH]; simpl; [lia|].
  pose proof (points_mono i a b (H i)). pose proof (points_nonneg i a). lia.
Qed.

Lemma triggered_app i a t :
  triggered i a = true -> triggered i (a ++ t) = true.
Proof.
  unfold triggered. rewrite upper_app.
  destruct i; try apply contains_app_l.
  rewrite !orb_true_iff. intros [H | H]; [left | right];
    now apply contains_app_l.
Qed.

(** C9 (as amended).  The score lies in [1, 10], and it is monotone in
    the set of triggered tests, where the ninth test is "the upper-cased
    text contains the word SUBQUERY or an opening parenthesis": when every
    test triggered by [a] is triggered by [b] the score of [a] is at most
    that of [b]; in particular text appended to a query never lowers its
    score. *)
Theorem complexity_score_bounded_monotone (a b t : str) :
  (forall i, triggered i a = true -> triggered i b = true) ->
  (1 <= get_query_complexity_score a <= 10)%Z /\
  (get_query_complexity_score a <= get_query_complexity_score b)%Z /\
  (get_query_complexity_score a <= get_query_complexity_score (a ++ t))%Z.
Proof.
  intros H. rewrite !score_as_sum.
  pose proof (sum_points_mono a b indicators H) as Hb.
  pose proof (sum_points_mono a (a ++ t) indicators
                (fun i => triggered_app i a t)) as Ht.
  lia.
Qed.

Lemma complexity_score_bounded_monotone_witness :
  (1 <= get_query_complexity_score (L "SELECT * FROM users") <= 10)%Z /\
  (get_query_complexity_score (L "SELECT * FROM users")
   <= get_query_complexity_score
        (L "SELECT name FROM users WHERE id IN (SELECT 1)"))%Z /\
  (get_query_complexity_score (L "SELECT * FROM users")
   <= get_query_complexity_score
        (L "SELECT * FROM users" ++ L " ORDER BY id"))%Z.
Proof.
  apply (complexity_score_bounded_monotone
           (L "SELECT * FROM users")
           (L "SELECT name FROM users WHERE id IN (SELECT 1)")
           (L " ORDER BY id")).
  intros i; destruct i; vm_compute; intros E; try reflexivity; discriminate E.
Defined.

(** C9, the claim as worded fails: with "any parenthesis" as the ninth
    test, the text "SELECT subquery FROM t" triggers no test at all, yet
    its score is 3 while the score of "SELECT x FROM t" is 1. *)
Lemma complexity_score_described_indicators_counterexample :
  ~ ((forall i, described_triggered i (L "SELECT subquery FROM t") = true ->
                described_triggered i (L "SELECT x FROM t") = true) ->
     (get_query_complexity_score (L "SELECT subquery FROM t")
      <= get_query_complexity_score (L "SELECT x FROM t"))%Z).
Proof.
  intros H.
  assert (Hs : forall i,
             described_triggered i (L "SELECT subquery FROM t") = true ->
             described_triggered i (L "SELECT x FROM t") = true).
  { intros i; destruct i; vm_compute; intros E; discriminate E. }
  specialize (H Hs). vm_compute in H. apply H. reflexivity.
Qed.

End ComplexityFacts.

(** ** Examples and their validation *)

Module ExampleFacts.

Import FewShotLearning.

(** What [validate_example] accepts: two non-empty texts, the second with
    SELECT or FROM in its upper-cased form. *)
Lemma validate_example_accepts natural_language sql :
  validate_example natural_language sql = true <->
  natural_language <> [] /\ sql <> [] /\
  (contains (L "SELECT") (upper sql) = true \/
   contains (L "FROM") (upper sql) = true).
Proof.
  unfold validate_example.
  destruct natural_language as [|c nl]; [split; [discriminate | tauto]|].
  destruct sql as [|d q]; [split; [discriminate | tauto]|].
  cbv zeta. cbn [existsb].
  destruct (contains (L "SELECT") (upper (d :: q)));
    destruct (contains (L "FROM") (upper (d :: q))); simpl.
  - split; [intros _|reflexivity].
    split; [discriminate|]. split; [discriminate | now left].
  - split; [intros _|reflexivity].
    split; [discriminate|]. split; [discriminate | now left].
  - split; [intros _|reflexivity].
    split; [discriminate|]. split; [discriminate | now right].
  - split; [discriminate|]. intros (_ & _ & [H | H]); discriminate H.
Qed.

(** C8, the behaviour of the code at the input of the repository's own
    unit test: a statement with FROM but without SELECT is accepted. *)
Theorem validate_example_accepts_without_select :
  validate_example (L "Show me users") (L "DELETE FROM users") = true /\
  contains (L "SELECT") (upper (L "DELETE FROM users")) = false.
Proof. split; reflexivity. Qed.

End ExampleFacts.

(** ** The pattern matcher *)

Module PatternMatcherFacts.

Import Statements MockNL2SQL.

Ltac split_rule :=
  repeat match goal with
         | |- context [if ?c then _ else _] => destruct c
         | |- context [match ?o with Some _ => _ | None => _ end] =>
             destruct o
         end.

Section Rules.

Variables (query : str) (tables : list str).

Lemma show_all_selects : selects (show_all query tables).
Proof.
  unfold selects, show_all. intros sql.
  split_rule; intros E; try discriminate E; injection E as <-; reflexivity.
Qed.

Lemma count_records_selects : selects (count_records query tables).
Proof.
  unfold selects, count_records. intros sql.
  split_rule; intros E; try discriminate E; injection E as <-; reflexivity.
Qed.

Lemma price_condition_selects : selects (price_condition query tables).
Proof.
  unfold selects, price_condition. intros sql.
  split_rule; intros E; try discriminate E; injection E as <-; reflexivity.
Qed.

Lemma find_records_selects : selects (find_records query tables).
Proof.
  unfold selects, find_records. intros sql.
  pose proof price_condition_selects as P. unfold selects in P.
  destruct (any_in _ _); [|discriminate].
  destruct (price_condition query tables) as [p|].
  - intros E. injection E as <-. now apply P.
  - split_rule; intros E; try discriminate E; injection E as <-; reflexivity.
Qed.

Lemma top_n_selects : selects (top_n query tables).
Proof.
  unfold selects, top_n. intros sql.
  split_rule; intros E; try discriminate E; injection E as <-; reflexivity.
Qed.

Lemma orders_customers_selects : selects (orders_customers query tables).
Proof.
  unfold selects, orders_customers. intros sql.
  split_rule; intros E; try discriminate E; injection E as <-; reflexivity.
Qed.

Lemma products_categories_selects :
  selects (products_categories query tables).
Proof.
  unfold selects, products_categories. intros sql.
  split_rule; intros E; try discriminate E; injection E as <-; reflexivity.
Qed.

Lemma fallback_selects : startswith (L "SELECT") (fallback tables) = true.
Proof. unfold fallback. destruct (mem _ _), tables; reflexivity. Qed.

Lemma orelse_selects r next :
  selects r -> startswith (L "SELECT") next = true ->
  startswith (L "SELECT") (orelse r next) = true.
Proof.
  intros H Hn. destruct r as [sql|]; simpl; [apply H; reflexivity | exact Hn].
Qed.

End Rules.

Lemma no_tables_no_rule query :
  show_all query [] = None /\ count_records query [] = None /\
  find_records query [] = None /\ top_n query [] = None /\
  orders_customers query [] = None /\ products_categories query [] = None.
Proof.
  unfold show_all, count_records, find_records, price_condition, top_n,
    orders_customers, products_categories. simpl.
  rewrite !andb_false_r. simpl.
  repeat split; split_rule; reflexivity.
Qed.

(** C5.  For every query, every list of table names and every schema the
    pattern matcher returns a statement that begins with SELECT (so it is
    not empty), and with no table at all it returns the constant
    "SELECT 1".  The function is total: it never fails. *)
Theorem pattern_match_always_select (Schema : Type) (query : str)
    (tables : list str) (schema : Schema) :
  (exists rest, _pattern_match_sql query tables schema = L "SELECT" ++ rest)
  /\ _pattern_match_sql query tables schema <> []
  /\ _pattern_match_sql query [] schema = L "SELECT 1".
Proof.
  assert (H : startswith (L "SELECT")
                (_pattern_match_sql query tables schema) = true).
  { unfold _pattern_match_sql.
    repeat (apply orelse_selects;
            [first [ apply show_all_selects | apply count_records_selects
                   | apply find_records_selects | apply top_n_selects
                   | apply orders_customers_selects
                   | apply products_categories_selects ] |]).
    apply fallback_selects. }
  apply PyStrFacts.startswith_iff in H. destruct H as [rest E].
  split; [eauto|]. split.
  - rewrite E. discriminate.
  - unfold _pattern_match_sql.
    destruct (no_tables_no_rule query) as (-> & -> & -> & -> & -> & ->).
    reflexivity.
Qed.

(** The two scenarios of the description. *)
Example show_all_users :
  _pattern_match_sql (L "Show me all users") [L "users"; L "products"] tt
  = L "SELECT * FROM users".
Proof. vm_compute. reflexivity. Qed.

Example top_five_products :
  _pattern_match_sql (L "Get the top 5 most expensive products")
    [L "products"] tt
  = L "SELECT * FROM products ORDER BY price DESC LIMIT 5".
Proof. vm_compute. reflexivity. Qed.

End PatternMatcherFacts.

(** ** The validation pipeline *)

Module ValidatorFacts.

Import Statements Sqlparse QueryValidator PyStrFacts.

Lemma reject_consistent r msg : consistent (reject r msg).
Proof.
  unfold consistent, reject. simpl. destruct (Check.errors r); reflexivity.
Qed.

Lemma reject_invalid r msg : Check.is_valid (reject r msg) = false.
Proof. reflexivity. Qed.

(** A loop that only ever rejects keeps a consistent result consistent,
    and keeps an invalid result invalid. *)
Lemma fold_reject_consistent {A : Type} (test : A -> bool) (msg : A -> str)
    (l : list A) (r : Check.t) :
  consistent r ->
  consistent
    (fold_left (fun r x => if test x then reject r (msg x) else r) l r).
Proof.
  revert r. induction l as [|x l IH]; simpl; intros r Hr; [exact Hr|].
  apply IH. destruct (test x); [apply reject_consistent | exact Hr].
Qed.

Lemma fold_reject_invalid {A : Type} (test : A -> bool) (msg : A -> str)
    (l : list A) (r : Check.t) :
  Check.is_valid r = false ->
  Check.is_valid
    (fold_left (fun r x => if test x then reject r (msg x) else r) l r)
  = false.
Proof.
  revert r. induction l as [|x l IH]; simpl; intros r Hr; [exact Hr|].
  apply IH. destruct (test x); [reflexivity | exact Hr].
Qed.

Lemma fold_reject_hit {A : Type} (test : A -> bool) (msg : A -> str)
    (l : list A) (r : Check.t) x :
  In x l -> test x = true ->
  Check.is_valid
    (fold_left (fun r x => if test x then reject r (msg x) else r) l r)
  = false.
Proof.
  revert r. induction l as [|y l IH]; simpl; intros r Hin Hx; [tauto|].
  destruct Hin as [E | Hin].
  - subst y. rewrite Hx. now apply fold_reject_invalid.
  - now apply IH.
Qed.

Lemma fold_reject_none {A : Type} (test : A -> bool) (msg : A -> str)
    (l : list A) (r : Check.t) :
  (forall x, In x l -> test x = false) ->
  fold_left (fun r x => if test x then reject r (msg x) else r) l r = r.
Proof.
  revert r. induction l as [|y l IH]; simpl; intros r H; [reflexivity|].
  rewrite (H y) by now left. apply IH. intros x Hx. apply H. now right.
Qed.

Section Environment.

Variable parse : str -> outcome (list statement).
Variable keyword_order : list str.
Variable list_of_set : list str -> list str.

Lemma security_consistent sql_query :
  consistent (_validate_security keyword_order sql_query).
Proof.
  unfold _validate_security. cbv zeta.
  match goal with |- consistent (if ?c then _ else _) => destruct c end;
    [apply reject_consistent|].
  match goal with |- consistent (if ?c then _ else _) => destruct c end;
    [apply reject_consistent|].
  apply fold_reject_consistent. apply fold_reject_consistent. reflexivity.
Qed.

Lemma security_rejects_keyword sql_query keyword :
  In keyword keyword_order ->
  contains keyword (upper sql_query) = true ->
  Check.is_valid (_validate_security keyword_order sql_query) = false.
Proof.
  intros Hin Hc. unfold _validate_security. cbv zeta.
  match goal with |- Check.is_valid (if ?c then _ else _) = _ =>
    destruct c end; [reflexivity|].
  match goal with |- Check.is_valid (if ?c then _ else _) = _ =>
    destruct c end; [reflexivity|].
  apply fold_reject_invalid.
  now apply (fold_reject_hit
               (fun keyword => contains keyword (upper sql_query))
               (fun keyword => L "Dangerous keyword '" ++ keyword
                               ++ L "' detected")
               keyword_order _ keyword).
Qed.


Lemma syntax_consistent sql_query :
  consistent (_validate_syntax parse sql_query).
Proof.
  unfold _validate_syntax. cbv zeta.
  destruct (parse sql_query) as [[|st sts]|e];
    try apply reject_consistent.
  destruct (_is_select_statement st); simpl;
    [reflexivity | apply reject_consistent].
Qed.

(** The syntax phase fails exactly in the three ways the source lists. *)
Lemma syntax_fails_iff sql_query :
  Check.is_valid (_validate_syntax parse sql_query) = false <->
  (exists e, parse sql_query = Raised e) \/
  parse sql_query = Returned [] \/
  (exists st sts, parse sql_query = Returned (st :: sts) /\
                  _is_select_statement st = false).
Proof.
  unfold _validate_syntax. cbv zeta.
  destruct (parse sql_query) as [[|st sts]|e]; simpl.
  - split; auto.
  - destruct (_is_select_statement st) eqn:E; simpl; split.
    + discriminate.
    + intros [[e He] | [He | (st' & sts' & He & Hs)]]; try discriminate.
      injection He as <- <-. congruence.
    + intros _. right. right. eauto.
    + reflexivity.
  - split; eauto.
Qed.

Lemma schema_check_shape sql_query schema :
  let r := _validate_against_schema parse list_of_set sql_query schema in
  SchemaCheck.is_valid r =
  match SchemaCheck.errors r with [] => true | _ => false end.
Proof.
  unfold _validate_against_schema. cbv zeta.
  set (step_col := fun (result : SchemaCheck.t) (column_info : ColumnRef) => _).
  set (step_tab := fun (result : SchemaCheck.t) (table : str) => _).
  set (r0 := {| SchemaCheck.is_valid := true; SchemaCheck.errors := [];
                SchemaCheck.warnings := [] |}).
  assert (Htab : forall l r,
             SchemaCheck.is_valid r =
               match SchemaCheck.errors r with [] => true | _ => false end ->
             SchemaCheck.is_valid (fold_left step_tab l r) =
               match SchemaCheck.errors (fold_left step_tab l r) with
               | [] => true | _ => false end).
  { induction l as [|x l IH]; simpl; intros r Hr; [exact Hr|].
    apply IH. unfold step_tab.
    destruct (negb _); [|exact Hr]. simpl.
    destruct (SchemaCheck.errors r); reflexivity. }
  assert (Hcol : forall l r,
             SchemaCheck.is_valid r =
               match SchemaCheck.errors r with [] => true | _ => false end ->
             SchemaCheck.is_valid (fold_left step_col l r) =
               match SchemaCheck.errors (fold_left step_col l r) with
               | [] => true | _ => false end).
  { induction l as [|x l IH]; simpl; intros r Hr; [exact Hr|].
    apply IH. unfold step_col.
    destruct (table x) as [[|c tn]|]; try exact Hr.
    destruct (dict_get _ _); try exact Hr.
    destruct (column x); try exact Hr.
    destruct (negb _); exact Hr. }
  apply Hcol, Htab. reflexivity.
Qed.

(** In the result of [validate_query] the flag is a function of the
    error list alone. *)
Lemma validity_from_errors sql_query schema_info :
  let r := validate_query parse keyword_order list_of_set sql_query
             schema_info in
  is_valid r = match errors r with [] => true | _ => false end.
Proof.
  unfold validate_query. cbv zeta.
  pose proof (syntax_consistent sql_query) as Hsyn.
  pose proof (security_consistent sql_query) as Hsec.
  unfold consistent in Hsyn, Hsec.
  destruct (Check.is_valid (_validate_syntax parse sql_query)); simpl.
  - destruct (Check.is_valid (_validate_security keyword_order sql_query));
      simpl.
    + destruct schema_info as [schema|]; simpl; [|reflexivity].
      pose proof (schema_check_shape sql_query schema) as Hsch.
      cbv zeta in Hsch.
      destruct (SchemaCheck.is_valid
                  (_validate_against_schema parse list_of_set sql_query
                     schema));
        simpl; [reflexivity|].
      destruct (SchemaCheck.errors _); [discriminate | reflexivity].
    + destruct (Check.errors (_validate_security keyword_order sql_query))
        as [|e es]; [discriminate|].
      destruct schema_info as [schema|]; simpl; [|reflexivity].
      destruct (SchemaCheck.is_valid _); simpl; reflexivity.
  - destruct (Check.errors (_validate_syntax parse sql_query));
      [discriminate | reflexivity].
Qed.

Lemma validity_iff_errors sql_query schema_info :
  let r := validate_query parse keyword_order list_of_set sql_query
             schema_info in
  is_valid r = false <-> errors r <> [].
Proof.
  cbv zeta. rewrite validity_from_errors.
  destruct (errors _); split; congruence.
Qed.

Lemma insecure_is_invalid sql_query schema_info :
  Check.is_valid (_validate_security keyword_order sql_query) = false ->
  is_valid (validate_query parse keyword_order list_of_set sql_query
              schema_info) = false.
Proof.
  intros Hsec. unfold validate_query. cbv zeta.
  destruct (Check.is_valid (_validate_syntax parse sql_query)); simpl;
    [|reflexivity].
  rewrite Hsec. simpl.
  destruct schema_info as [schema|]; simpl; [|reflexivity].
  destruct (SchemaCheck.is_valid _); reflexivity.
Qed.

(** C1.  A text that contains DROP TABLE in any letter case (a piece
    [mid] whose upper-cased form is "DROP TABLE") is rejected by
    [validate_query], with or without a schema, whatever the parser
    answers and in whatever order the keyword set is visited: the flag is
    false and the error list is not empty. *)
Theorem drop_table_is_rejected (pre mid post : str)
    (schema_info : option SchemaCatalog) :
  Permutation keyword_order dangerous_keywords ->
  upper mid = L "DROP TABLE" ->
  let r := validate_query parse keyword_order list_of_set
             (pre ++ mid ++ post) schema_info in
  is_valid r = false /\ errors r <> [].
Proof.
  intros Horder Hmid. cbv zeta.
  assert (Hinv : is_valid (validate_query parse keyword_order list_of_set
                             (pre ++ mid ++ post) schema_info) = false).
  { apply insecure_is_invalid.
    apply (security_rejects_keyword _ (L "DROP")).
    { apply (Permutation_in _ (Permutation_sym Horder)). now left. }
    apply contains_iff.
    exists (upper pre), (L " TABLE" ++ upper post).
    rewrite !upper_app, Hmid. reflexivity. }
  split; [exact Hinv|]. now apply validity_iff_errors.
Qed.

(** C2.  In every result of [validate_query] the flag is false exactly
    when the error list is not empty; and the flag depends on the error
    list only: two results with the same errors have the same flag,
    whatever their warnings and suggestions are. *)
Theorem validity_determined_by_errors (sql_query : str)
    (schema_info : option SchemaCatalog) :
  let r := validate_query parse keyword_order list_of_set sql_query
             schema_info in
  (is_valid r = false <-> errors r <> []) /\
  (forall sql_query' schema_info',
     let r' := validate_query parse keyword_order list_of_set sql_query'
                 schema_info' in
     errors r' = errors r -> is_valid r' = is_valid r).
Proof.
  cbv zeta. split; [apply validity_iff_errors|].
  intros sql' schema' E. rewrite !validity_from_errors, E. reflexivity.
Qed.

(** C6.  When the syntax phase fails, [validate_query] returns at once:
    the flag is false, the errors are those of the syntax phase and
    nothing else, there are no warnings and no suggestions, the query
    type is still 'unknown' and no table or column is reported. *)
Theorem syntax_failure_short_circuits (sql_query : str)
    (schema_info : option SchemaCatalog) :
  Check.is_valid (_validate_syntax parse sql_query) = false ->
  validate_query parse keyword_order list_of_set sql_query schema_info =
  {| is_valid := false;
     errors := Check.errors (_validate_syntax parse sql_query);
     warnings := [];
     suggestions := [];
     query_type := L "unknown";
     tables_used := [];
     columns_used := [] |}.
Proof.
  intros H. unfold validate_query. cbv zeta. rewrite H. reflexivity.
Qed.

End Environment.

Lemma drop_table_is_rejected_witness :
  upper (L "Drop Table") = L "DROP TABLE" /\
  let r := validate_query words_parse dangerous_keywords to_set
             (L "SELECT * FROM users; " ++ L "Drop Table" ++ L " users;")
             None in
  is_valid r = false /\ errors r <> [].
Proof.
  split; [reflexivity|].
  apply (drop_table_is_rejected words_parse dangerous_keywords to_set
           (L "SELECT * FROM users; ") (L "Drop Table") (L " users;") None).
  - apply Permutation_refl.
  - reflexivity.
Defined.

Lemma validity_determined_by_errors_witness :
  let r := validate_query words_parse dangerous_keywords to_set
             (L "SELECT 1") None in
  let r' := validate_query words_parse dangerous_keywords to_set
              (L "SELECT * FROM users") None in
  errors r' = errors r /\ suggestions r' <> suggestions r /\
  is_valid r' = is_valid r.
Proof.
  cbv zeta. split; [reflexivity|]. split; [vm_compute; discriminate|].
  apply (proj2 (validity_determined_by_errors words_parse dangerous_keywords
                  to_set (L "SELECT 1") None)
           (L "SELECT * FROM users") None).
  reflexivity.
Defined.

Lemma syntax_failure_short_circuits_witness :
  Check.is_valid (_validate_syntax words_parse (L "DELETE FROM users"))
  = false /\
  validate_query words_parse dangerous_keywords to_set
    (L "DELETE FROM users") None =
  {| is_valid := false;
     errors := [L "Query must be a SELECT statement"];
     warnings := [];
     suggestions := [];
     query_type := L "unknown";
     tables_used := [];
     columns_used := [] |}.
Proof.
  split; [reflexivity|].
  apply (syntax_failure_short_circuits words_parse dangerous_keywords to_set
           (L "DELETE FROM users") None).
  reflexivity.
Defined.

End ValidatorFacts.

(** ** The example retriever *)

Module RetrieverFacts.

Import Statements FewShotLearning.



(** *** The stable descending sort *)

Section Sort.

Variable A : Type.
Implicit Types (x y : Q * A) (l : list (Q * A)).







End Sort.

(** *** The loop and the ranking *)

Section Ranking.

Variable query : str.






Lemma score_returned e :
  word_count_max (lower query) (lower (natural_language e)) <> 0 ->
  similarity_score (lower query) (lower (natural_language e))
  = Returned (score query e).
Proof.
  unfold similarity_score, score. intros H.
  destruct (word_count_max _ _) eqn:E; [congruence | reflexivity].
Qed.

Lemma collect_returns examples acc :
  (forall e, In e examples ->
     word_count_max (lower query) (lower (natural_language e)) <> 0) ->
  collect (lower query) examples acc =
  Returned (acc ++ keyed query (filter (kept query) examples)).
Proof.
  revert acc. induction examples as [|e l IH]; simpl; intros acc H.
  - now rewrite app_nil_r.
  - rewrite score_returned by (apply H; now left).
    rewrite IH by (intros e' He'; apply H; now right).
    unfold kept. destruct (Qgtb (score query e) threshold); simpl;
      [now rewrite <- app_assoc | reflexivity].
Qed.

Lemma collect_raises examples acc :
  split (lower query) = [] ->
  (exists e, In e examples /\ split (lower (natural_language e)) = []) ->
  collect (lower query) examples acc = Raised (L "division by zero").
Proof.
  intros Hq. revert acc.
  induction examples as [|e l IH]; simpl; intros acc [e0 [Hin He0]];
    [contradiction|].
  unfold similarity_score, word_count_max. rewrite Hq. simpl.
  destruct (split (lower (natural_language e))) as [|w ws] eqn:Ee;
    [reflexivity|].
  simpl. apply IH. exists e0. split; [|exact He0].
  destruct Hin as [<- | Hin]; [congruence | exact Hin].
Qed.

End Ranking.




(** C10.  If the query has no word and an example whose text has no word
    is added to the store (nothing prevents it), [get_similar_examples]
    raises the division error instead of returning a list. *)
Theorem similar_examples_divides_by_zero (examples : list Example)
    (natural_language sql category difficulty query : str) (limit : Z) :
  split (lower query) = [] ->
  split (lower natural_language) = [] ->
  get_similar_examples
    (add_example examples natural_language sql category difficulty)
    query limit
  = Raised (L "division by zero").
Proof.
  intros Hq Hn. unfold get_similar_examples, add_example.
  rewrite collect_raises; [reflexivity | exact Hq |].
  eexists. split; [apply in_or_app; right; now left | exact Hn].
Qed.

Lemma similar_examples_divides_by_zero_witness :
  split (lower (L "  ")) = [] /\
  split (lower (L "")) = [] /\
  get_similar_examples
    (add_example default_examples (L "") (L "SELECT 1") (L "custom")
       (L "medium"))
    (L "  ") 3
  = Raised (L "division by zero").
Proof.
  split; [reflexivity|]. split; [reflexivity|].
  apply (similar_examples_divides_by_zero default_examples (L "")
           (L "SELECT 1") (L "custom") (L "medium") (L "  ") 3);
    reflexivity.
Defined.

(** A tie: both examples score 1/2 and come back in store order, after
    the better one stored last. *)
Example ties_keep_store_order :
  get_similar_examples
    [mk "list orders" "SELECT * FROM orders" "custom" "easy";
     mk "list users" "SELECT * FROM users" "custom" "easy";
     mk "list" "SELECT 1" "custom" "easy"]
    (L "LIST") 5
  = Returned
      [mk "list" "SELECT 1" "custom" "easy";
       mk "list orders" "SELECT * FROM orders" "custom" "easy";
       mk "list users" "SELECT * FROM users" "custom" "easy"].
Proof. vm_compute. reflexivity. Qed.

(** Two further limits of the description.  A negative [limit] does not
    bound the result: it drops that many entries from the end of the
    ranking.  And a stored text may be non-empty and still have no word. *)
Lemma negative_limit_drops_last :
  option_map (@length Example)
    (match get_similar_examples default_examples (L "Show me all users") (-1)
     with
     | Returned l => Some l
     | Raised _ => None
     end)
  = Some 3.
Proof. vm_compute. reflexivity. Qed.

Lemma blank_text_divides_by_zero :
  get_similar_examples [mk " " "SELECT 1 FROM t" "custom" "medium"] (L "") 3
  = Raised (L "division by zero").
Proof. vm_compute. reflexivity. Qed.

End RetrieverFacts.

(** ** The pattern matcher of [re] *)

Module ReFacts.

Import Statements PyStrFacts.

Lemma search_some fl re s i r :
  search fl re s = Some (i, r) ->
  exists u, suffix_of u s /\ match_here fl re u = Some r.
Proof.
  revert i. induction s as [|c s IH]; simpl; intros i H.
  - destruct (match_here fl re []) eqn:E; [|discriminate].
    injection H as _ <-. exists []. split; [apply suffix_of_refl | exact E].
  - destruct (match_here fl re (c :: s)) eqn:E.
    + injection H as _ <-. exists (c :: s).
      split; [apply suffix_of_refl | exact E].
    + destruct (search fl re s) as [[j r']|]; [|discriminate].
      injection H as _ <-. destruct (IH j eq_refl) as [u [Hu Hm]].
      exists u. split; [now apply suffix_of_cons | exact Hm].
Qed.

Lemma search_none fl re s :
  search fl re s = None ->
  forall u, suffix_of u s -> match_here fl re u = None.
Proof.
  induction s as [|c s IH]; simpl; intros H u [a Ha].
  - destruct a; [|discriminate]. simpl in Ha. subst u.
    destruct (match_here fl re []); [discriminate | reflexivity].
  - destruct (match_here fl re (c :: s)) eqn:E; [discriminate|].
    destruct a as [|x a]; simpl in Ha.
    + now subst u.
    + injection Ha as _ ->. apply IH; [|now exists a].
      destruct (search fl re (a ++ u)) as [[j r']|];
        [discriminate | reflexivity].
Qed.

Lemma search_found fl re s u r :
  suffix_of u s -> match_here fl re u = Some r ->
  search fl re s <> None.
Proof.
  intros Hu Hm Hs. rewrite (search_none fl re s Hs u Hu) in Hm.
  discriminate.
Qed.

Lemma first_piece_some o r : first_piece o = Some r -> o <> None.
Proof. destruct o; simpl; congruence. Qed.

Lemma option_map_some {A B : Type} (f : A -> B) o r :
  option_map f o = Some r -> o <> None.
Proof. destruct o; simpl; congruence. Qed.

Lemma rep_greedy_some ok k s r :
  rep_greedy ok k s = Some r ->
  exists u, suffix_of u s /\ k u <> None.
Proof.
  revert r. induction s as [|c s IH]; simpl; intros r H.
  - exists []. split; [apply suffix_of_refl | eapply first_piece_some; eauto].
  - destruct (ok c).
    + destruct (rep_greedy ok k s) as [r'|] eqn:E.
      * destruct (IH r' eq_refl) as [u [Hu Hk]].
        exists u. split; [now apply suffix_of_cons | exact Hk].
      * exists (c :: s).
        split; [apply suffix_of_refl | eapply first_piece_some; eauto].
    + exists (c :: s).
      split; [apply suffix_of_refl | eapply first_piece_some; eauto].
Qed.


(** A match starts with the literal characters the pattern starts with:
    exactly, or, under IGNORECASE, when the pattern has plain literals
    and the text is an upper-cased one. *)
Lemma match_lit_prefix fl re t :
  IGNORECASE fl = false \/
  (upper_text t = true /\ plain_literals (lit_prefix re) = true) ->
  match_here fl re t <> None ->
  startswith (lit_prefix re) t = true.
Proof.
  revert t. induction re as [|n re IH]; intros t Hfl Hm; [reflexivity|].
  destruct n as [[p| | | |] [| | |] | a q |]; try reflexivity.
  cbn [lit_prefix startswith].
  destruct t as [|c t]; [exfalso; now apply Hm|].
  cbn [match_here match_node match_quant rep_once atom_ok] in Hm.
  assert (Hpc : (if IGNORECASE fl then ci_match p c else char_eqb p c)
                = true -> p = c).
  { destruct Hfl as [-> | [Ht Hp]]; [apply char_eqb_eq|].
    destruct (IGNORECASE fl); [|apply char_eqb_eq].
    unfold upper_text, plain_literals in Ht, Hp. cbn [lit_prefix forallb] in *.
    apply andb_true_iff in Ht, Hp. apply ci_match_plain; tauto. }
  destruct (if IGNORECASE fl then _ else _); [|now contradiction Hm].
  rewrite (Hpc eq_refl), char_eqb_refl. cbn [andb].
  apply IH.
  - destruct Hfl as [H | [Ht Hp]]; [now left | right].
    unfold upper_text, plain_literals in *. cbn [lit_prefix forallb] in *.
    apply andb_true_iff in Ht, Hp. tauto.
  - intros E. apply Hm. now rewrite E.
Qed.

(** A pattern of the shape  c \s* rest  matches only where, after [c]
    and some of the text, [rest] matches. *)
Lemma match_after_separator fl p a re t :
  match_here fl (Rep (Lit p) Once :: Rep a Greedy0 :: re) t <> None ->
  exists u, suffix_of u t /\ match_here fl re u <> None.
Proof.
  simpl. destruct t as [|c t]; simpl; [intros H; now contradiction H|].
  destruct (if IGNORECASE fl then _ else _);
    [|intros H; now contradiction H].
  destruct (rep_greedy (atom_ok fl a) (match_here fl re) t) as [r|] eqn:E;
    [|simpl; intros H; now contradiction H].
  intros _. destruct (rep_greedy_some _ _ _ _ E) as [u [Hu Hk]].
  exists u. split; [now apply suffix_of_cons | exact Hk].
Qed.

(** Checks of the matcher on small texts: a line comment ends at the
    line end, block comments are removed one by one, whitespace after a
    keyword is given back when the next word needs it, and the group of
    a match is the digits after "top". *)
Example sub_line_comments :
  re_sub (L "--.*$") [] (L "a -- x
b -- y") re_MULTILINE = L "a 
b ".
Proof. vm_compute. reflexivity. Qed.

Example sub_block_comments :
  re_sub (L "/\*.*?\*/") [] (L "a/* x */b/* y */c /* open") re_DOTALL
  = L "abc /* open".
Proof. vm_compute. reflexivity. Qed.

Example sub_whitespace :
  re_sub (L "\s+") (L " ") (L "  a 	 b
c ") no_flags = L " a b c ".
Proof. vm_compute. reflexivity. Qed.

Example search_tautology_delete :
  truthy (re_search (L "DELETE\s+FROM\s+\w+\s+WHERE\s+1\s*=\s*1")
            (L "DELETE  FROM T WHERE 1 =1") re_IGNORECASE) = true /\
  truthy (re_search (L "DELETE\s+FROM\s+\w+\s+WHERE\s+1\s*=\s*1")
            (L "DELETE FROM T WHERE ID = 1") re_IGNORECASE) = false.
Proof. vm_compute. split; reflexivity. Qed.

Example search_top_group :
  option_map group1
    (re_search (L "top\s+(\d+)") (L "the top   25 of 100") no_flags)
  = Some (L "25").
Proof. vm_compute. reflexivity. Qed.

End ReFacts.

(** ** The security phase *)

Module SecurityFacts.

Import Statements Sqlparse QueryValidator PyStrFacts ReFacts ValidatorFacts.

Ltac in_list := simpl; repeat first [left; reflexivity | right].

Ltac compile_pattern H :=
  match type of H with
  | context [compile ?p] =>
      let c := eval vm_compute in (compile p) in
      change (compile p) with c in H
  end.

(** Every forbidden pattern begins with a denylisted keyword, or with a
    semicolon, whitespace and such a keyword; so in an upper-cased text
    without capital I with dot it can only match where that keyword
    stands. *)
Lemma forbidden_needs_keyword pattern s :
  In pattern forbidden_patterns ->
  upper_text s = true ->
  truthy (re_search pattern s re_IGNORECASE) = true ->
  exists keyword, In keyword dangerous_keywords /\ contains keyword s = true.
Proof.
  intros Hin Hs H. unfold re_search in H.
  unfold forbidden_patterns in Hin. simpl in Hin.
  repeat destruct Hin as [<- | Hin]; try contradiction;
    compile_pattern H; cbv beta iota in H;
    match type of H with
    | context [search ?fl ?re s] =>
        destruct (search fl re s) as [[i r]|] eqn:E; [|discriminate H];
        destruct (search_some fl re s i r E) as [u [Hu Hm]]
    end;
    assert (Hm' : match_here re_IGNORECASE
                    ltac:(match type of Hm with
                          | match_here _ ?re _ = _ => exact re end) u
                  <> None) by congruence.
  all: first
    [ (* keyword first *)
      match type of Hm' with
      | match_here _ (Rep (Lit 59%N) Once :: _) _ <> None => fail 1
      | match_here _ ?re _ <> None =>
          exists (lit_prefix re); split; [in_list|];
          apply (contains_suffix _ u s Hu), startswith_contains;
          apply (match_lit_prefix re_IGNORECASE re u);
            [right; split; [exact (upper_text_suffix u s Hu Hs) | reflexivity]
            | exact Hm']
      end
    | (* semicolon, whitespace, keyword *)
      match type of Hm' with
      | match_here _ (Rep (Lit ?p) Once :: Rep ?a Greedy0 :: ?re) _ <> None =>
          destruct (match_after_separator re_IGNORECASE p a re u Hm')
            as [v [Hv Hk]];
          exists (lit_prefix re); split; [in_list|];
          apply (contains_suffix _ u s Hu), (contains_suffix _ v u Hv),
            startswith_contains;
          apply (match_lit_prefix re_IGNORECASE re v);
            [right; split;
             [exact (upper_text_suffix v u Hv (upper_text_suffix u s Hu Hs))
             | reflexivity]
            | exact Hk]
      end ].
Qed.

(** Every pattern text of the validator lies in the modelled fragment. *)
Lemma forbidden_patterns_compile :
  forallb (fun pattern => match compile pattern with
                          | Some _ => true
                          | None => false
                          end) forbidden_patterns = true.
Proof. vm_compute. reflexivity. Qed.

Lemma sanitize_patterns_compile :
  compile (L "--.*$") = Some line_comment_re /\
  compile (L "/\*.*?\*/") = Some block_comment_re /\
  compile (L "\s+") = Some spaces_re.
Proof. vm_compute. repeat split. Qed.

(** The chained statement of the description: four errors, among them
    the keyword, two patterns and the statement count. *)
Example chained_drop_errors :
  _validate_security dangerous_keywords
    (L "SELECT * FROM users; DROP TABLE users;") =
  {| Check.is_valid := false;
     Check.errors :=
       [L "Dangerous keyword 'DROP' detected";
        L "Forbidden pattern detected: DROP\s+TABLE";
        L "Forbidden pattern detected: ;\s*DROP";
        L "Multiple SQL statements not allowed"] |}.
Proof. vm_compute. reflexivity. Qed.

(** C4 (as amended).  A text without the letter capital I with dot
    (U+0130) that begins with SELECT, whose upper-cased form contains
    none of the eleven denylisted keywords, that has at most one ';' and
    neither "--" nor "/*", passes the security phase, in whatever order
    the keyword set is visited: the flag is true and the phase reports no
    error. *)
Theorem security_accepts_clean_select (keyword_order : list str)
    (sql_query : str) :
  Permutation keyword_order dangerous_keywords ->
  ~ In dotted_I sql_query ->
  startswith (L "SELECT") sql_query = true ->
  (forall keyword, In keyword dangerous_keywords ->
     contains keyword (upper sql_query) = false) ->
  count (L ";") sql_query <= 1 ->
  contains (L "--") sql_query = false ->
  contains (L "/*") sql_query = false ->
  _validate_security keyword_order sql_query
  = {| Check.is_valid := true; Check.errors := [] |}.
Proof.
  intros Horder Hdot _ Hkw Hsemi Hline Hblock. unfold _validate_security.
  cbv zeta.
  rewrite (fold_reject_none
             (fun keyword => contains keyword (upper sql_query))
             (fun keyword => L "Dangerous keyword '" ++ keyword
                             ++ L "' detected")
             keyword_order _
             (fun keyword Hin =>
                Hkw keyword (Permutation_in keyword Horder Hin))).
  rewrite fold_reject_none.
  - apply Nat.ltb_ge in Hsemi. rewrite Hsemi, Hline, Hblock. reflexivity.
  - intros pattern Hp.
    destruct (truthy (re_search pattern (upper sql_query) re_IGNORECASE))
      eqn:E; [|reflexivity].
    destruct (forbidden_needs_keyword pattern (upper sql_query) Hp
                (upper_upper_text sql_query Hdot) E)
      as [keyword [Hin Hc]].
    rewrite (Hkw keyword Hin) in Hc. discriminate.
Qed.

Lemma security_accepts_clean_select_witness :
  _validate_security dangerous_keywords (L "SELECT * FROM users WHERE id = 1")
  = {| Check.is_valid := true; Check.errors := [] |}.
Proof.
  apply (security_accepts_clean_select dangerous_keywords
           (L "SELECT * FROM users WHERE id = 1")).
  - apply Permutation_refl.
  - vm_compute. intros H.
    repeat (destruct H as [H | H]; [discriminate H|]). exact H.
  - reflexivity.
  - intros keyword Hin. simpl in Hin.
    repeat destruct Hin as [<- | Hin]; try reflexivity; contradiction.
  - vm_compute. lia.
  - reflexivity.
  - reflexivity.
Defined.

(** C4, the claim as worded fails.  Take "SELECT 1; INSERT" with capital
    I with dot (U+0130) in the place of the I of INSERT.  Upper-casing
    leaves that letter as it is, so the text contains no denylisted
    keyword; but matching with IGNORECASE takes it for an I, and the
    pattern for a chained INSERT matches. *)
Lemma security_rejects_dotted_capital_i :
  let sql_query := L "SELECT 1; " ++ [dotted_I] ++ L "NSERT" in
  startswith (L "SELECT") sql_query = true /\
  (forall keyword, In keyword dangerous_keywords ->
     contains keyword (upper sql_query) = false) /\
  count (L ";") sql_query <= 1 /\
  contains (L "--") sql_query = false /\
  contains (L "/*") sql_query = false /\
  _validate_security dangerous_keywords sql_query
  = {| Check.is_valid := false;
       Check.errors := [L "Forbidden pattern detected: ;\s*INSERT"] |}.
Proof.
  cbv zeta. split; [reflexivity|]. split.
  { intros keyword Hin. simpl in Hin.
    repeat destruct Hin as [<- | Hin]; try (vm_compute; reflexivity).
    contradiction. }
  split; [vm_compute; lia|].
  split; [reflexivity|]. split; [reflexivity|].
  vm_compute. reflexivity.
Qed.

End SecurityFacts.

(** ** [sanitize_query] *)

Module SanitizeFacts.

Import Statements QueryValidator PyStrFacts ReFacts.

#[local] Arguments char_eqb : simpl never.

(** *** Whitespace runs *)

Lemma rep_greedy_run ok s :
  rep_greedy ok (fun _ => Some []) s = Some [run ok s].
Proof.
  induction s as [|c s IH]; simpl; [reflexivity|].
  destruct (ok c); [|reflexivity]. now rewrite IH.
Qed.

Lemma match_spaces fl s :
  match_here fl spaces_re s =
  match s with
  | c :: s' => if is_space c then Some [S (run is_space s')] else None
  | [] => None
  end.
Proof.
  destruct s as [|c s]; simpl; [reflexivity|].
  destruct (is_space c); [|reflexivity].
  now rewrite rep_greedy_run.
Qed.

Lemma sub_from_run fl re repl s :
  sub_from fl re repl (run is_space s) s
  = sub_from fl re repl 0 (drop_spaces s).
Proof.
  induction s as [|c s IH]; simpl; [reflexivity|].
  destruct (is_space c); [exact IH | reflexivity].
Qed.

Lemma collapse_nil : collapse [] = [].
Proof. reflexivity. Qed.

Lemma collapse_cons c s :
  collapse (c :: s) =
  if is_space c then ch " " :: collapse (drop_spaces s)
  else c :: collapse s.
Proof.
  unfold collapse, sub_re.
  change (sub_from no_flags spaces_re (L " ") 0 (c :: s))
    with (match match_here no_flags spaces_re (c :: s) with
          | Some r =>
              L " " ++
              match total r with
              | O => c :: sub_from no_flags spaces_re (L " ") 0 s
              | S k => sub_from no_flags spaces_re (L " ") k s
              end
          | None => c :: sub_from no_flags spaces_re (L " ") 0 s
          end).
  rewrite match_spaces. destruct (is_space c); [|reflexivity].
  simpl total. rewrite Nat.add_0_r, sub_from_run. reflexivity.
Qed.

Lemma drop_spaces_no_space s : starts_with_space (drop_spaces s) = false.
Proof.
  induction s as [|c s IH]; simpl; [reflexivity|].
  destruct (is_space c) eqn:E; [exact IH | simpl; exact E].
Qed.

Lemma drop_spaces_length s : length (drop_spaces s) <= length s.
Proof.
  induction s as [|c s IH]; simpl; [lia|].
  destruct (is_space c); simpl; lia.
Qed.


Lemma drop_spaces_suffix s : suffix_of (drop_spaces s) s.
Proof.
  induction s as [|c s IH]; simpl; [apply suffix_of_refl|].
  destruct (is_space c); [now apply suffix_of_cons | apply suffix_of_refl].
Qed.

Lemma collapse_head s : starts_with_space (collapse s) = starts_with_space s.
Proof.
  destruct s as [|c s]; [reflexivity|]. rewrite collapse_cons. simpl.
  destruct (is_space c) eqn:E; simpl; [reflexivity | exact E].
Qed.

Lemma collapse_single_spaced s : single_spaced (collapse s) = true.
Proof.
  remember (length s) as n eqn:Hn.
  assert (Hle : length s <= n) by lia. clear Hn.
  revert s Hle. induction n as [|n IH]; intros s Hle.
  - destruct s; [reflexivity | simpl in Hle; lia].
  - destruct s as [|c s]; [reflexivity|]. simpl in Hle.
    rewrite collapse_cons. destruct (is_space c) eqn:E.
    + simpl. rewrite collapse_head, drop_spaces_no_space. simpl.
      apply IH. pose proof (drop_spaces_length s). lia.
    + simpl. rewrite E. simpl. apply IH. lia.
Qed.


Lemma collapse_length s : length (collapse s) <= length s.
Proof.
  remember (length s) as n eqn:Hn.
  assert (Hle : length s <= n) by lia. rewrite Hn. clear Hn.
  revert s Hle. induction n as [|n IH]; intros s Hle.
  - destruct s; [simpl; lia | simpl in Hle; lia].
  - destruct s as [|c s]; [simpl; lia|]. simpl in Hle.
    rewrite collapse_cons. pose proof (drop_spaces_length s).
    destruct (is_space c); simpl.
    + assert (length (collapse (drop_spaces s)) <= length (drop_spaces s))
        by (apply IH; lia). lia.
    + assert (length (collapse s) <= length s) by (apply IH; lia). lia.
Qed.

(** *** Prefixes, suffixes and [strip] *)

Lemma single_spaced_suffix u s :
  suffix_of u s -> single_spaced s = true -> single_spaced u = true.
Proof.
  intros [a ->]. induction a as [|c a IH]; simpl; [auto|].
  intros H. apply andb_true_iff in H. now apply IH.
Qed.

Lemma starts_with_space_app a b :
  starts_with_space (a ++ b) = false -> starts_with_space a = false.
Proof. destruct a; simpl; auto. Qed.

Lemma single_spaced_prefix a b :
  single_spaced (a ++ b) = true -> single_spaced a = true.
Proof.
  induction a as [|c a IH]; simpl; [reflexivity|]. intros H.
  apply andb_true_iff in H. destruct H as [Hc Hs].
  rewrite (IH Hs), andb_true_r. destruct (is_space c); [|reflexivity].
  apply andb_true_iff in Hc. destruct Hc as [Hc Hn].
  rewrite Hc. simpl. apply negb_true_iff in Hn. apply negb_true_iff.
  now apply starts_with_space_app with b.
Qed.

Lemma rstrip_prefix s : exists b, s = rstrip s ++ b.
Proof.
  unfold rstrip. destruct (drop_spaces_suffix (rev s)) as [a Ha].
  exists (rev a). rewrite <- rev_app_distr, <- Ha. now rewrite rev_involutive.
Qed.

Lemma strip_single_spaced s :
  single_spaced s = true -> single_spaced (strip s) = true.
Proof.
  intros H. unfold strip. destruct (rstrip_prefix (lstrip s)) as [b Hb].
  apply single_spaced_prefix with b. rewrite <- Hb.
  apply single_spaced_suffix with s; [apply drop_spaces_suffix | exact H].
Qed.

Lemma strip_trimmed s : trimmed (strip s).
Proof.
  unfold trimmed, strip. split.
  - destruct (rstrip_prefix (lstrip s)) as [b Hb].
    apply starts_with_space_app with b. rewrite <- Hb.
    apply drop_spaces_no_space.
  - unfold rstrip. rewrite rev_involutive. apply drop_spaces_no_space.
Qed.


Lemma strip_incl s c : In c (strip s) -> In c s.
Proof.
  unfold strip. intros H.
  destruct (rstrip_prefix (lstrip s)) as [b Hb].
  destruct (drop_spaces_suffix s) as [a Ha]. unfold lstrip in *.
  rewrite Ha. apply in_or_app. right. rewrite Hb. apply in_or_app. now left.
Qed.

Lemma strip_length s : length (strip s) <= length s.
Proof.
  unfold strip. destruct (rstrip_prefix (lstrip s)) as [b Hb].
  pose proof (drop_spaces_length s) as Hl. unfold lstrip in *.
  apply (f_equal (@length char)) in Hb. rewrite length_app in Hb. lia.
Qed.

Lemma contains_char c s : contains [c] s = true <-> In c s.
Proof.
  rewrite contains_iff. split.
  - intros [a [b ->]]. apply in_or_app. right. now left.
  - intros H. apply in_split in H. destruct H as [a [b ->]].
    exists a, b. reflexivity.
Qed.

(** *** The text before the first semicolon *)

Lemma split_on_head sep cur s :
  hd [] (split_on sep cur s) = rev cur ++ before sep s.
Proof.
  revert cur. induction s as [|c s IH]; simpl; intros cur.
  - now rewrite app_nil_r.
  - destruct (char_eqb c sep); simpl; [now rewrite app_nil_r|].
    rewrite IH. simpl. now rewrite <- app_assoc.
Qed.

Lemma split_sep_head sep s : hd [] (split_sep sep s) = before sep s.
Proof. unfold split_sep. now rewrite split_on_head. Qed.

Lemma before_prefix sep s : exists b, s = before sep s ++ b.
Proof.
  induction s as [|c s [b IH]]; simpl; [now exists []|].
  destruct (char_eqb c sep); [now exists (c :: s)|].
  exists b. simpl. now rewrite <- IH.
Qed.

Lemma before_without sep s : ~ In sep (before sep s).
Proof.
  induction s as [|c s IH]; simpl; [tauto|].
  destruct (char_eqb c sep) eqn:E; simpl; [tauto|].
  intros [-> | H]; [|tauto]. now rewrite char_eqb_refl in E.
Qed.

Lemma before_length sep s : length (before sep s) <= length s.
Proof.
  destruct (before_prefix sep s) as [b Hb].
  apply (f_equal (@length char)) in Hb. rewrite length_app in Hb. lia.
Qed.

(** *** Where nothing matches, [re.sub] changes nothing *)





(** *** The shape of a sanitized text *)

Lemma sanitize_unfold s :
  sanitize_query s =
  let a := sub_re re_MULTILINE line_comment_re [] s in
  let b := sub_re re_DOTALL block_comment_re [] a in
  let c := strip (collapse b) in
  if contains (L ";") c then strip (before (ch ";") c) else c.
Proof.
  unfold sanitize_query, re_sub. cbv zeta.
  change (compile (L "--.*$")) with (Some line_comment_re).
  change (compile (L "/\*.*?\*/")) with (Some block_comment_re).
  change (compile (L "\s+")) with (Some spaces_re).
  cbv beta iota. fold (collapse
    (sub_re re_DOTALL block_comment_re []
       (sub_re re_MULTILINE line_comment_re [] s))).
  now rewrite split_sep_head.
Qed.

Lemma sanitize_shape s :
  let t := sanitize_query s in
  single_spaced t = true /\ trimmed t /\ contains (L ";") t = false.
Proof.
  cbv zeta. rewrite sanitize_unfold. cbv zeta.
  set (c := strip (collapse _)).
  assert (Hc : single_spaced c = true)
    by (apply strip_single_spaced, collapse_single_spaced).
  destruct (contains (L ";") c) eqn:E.
  - split; [|split].
    + apply strip_single_spaced.
      destruct (before_prefix (ch ";") c) as [b Hb].
      apply single_spaced_prefix with b. now rewrite <- Hb.
    + apply strip_trimmed.
    + destruct (contains (L ";") (strip (before (ch ";") c))) eqn:E';
        [|reflexivity].
      apply contains_char, strip_incl in E'.
      now apply before_without in E'.
  - split; [exact Hc|]. split; [apply strip_trimmed | exact E].
Qed.


(** *** A substitution by the empty text only shortens *)

Lemma total_bump r : total (bump r) <= S (total r).
Proof. destruct r; simpl; lia. Qed.

Lemma first_piece_total o (s : str) r :
  (forall r', o = Some r' -> total r' <= length s) ->
  first_piece o = Some r -> total r <= length s.
Proof.
  intros H E. destruct o as [r'|]; simpl in E; [|discriminate].
  injection E as <-. simpl. now apply H.
Qed.

Lemma rep_greedy_total ok k : bounded k -> bounded (rep_greedy ok k).
Proof.
  intros Hk s. induction s as [|c s IH]; simpl; intros r H.
  - apply (first_piece_total (k []) []); [|exact H]. intros r'. apply Hk.
  - assert (Hf : first_piece (k (c :: s)) = Some r ->
                 total r <= S (length s)).
    { apply (first_piece_total (k (c :: s)) (c :: s)). intros r'. apply Hk. }
    destruct (ok c); [|now apply Hf].
    destruct (rep_greedy ok k s) as [r0|]; [|now apply Hf].
    injection H as <-. pose proof (total_bump r0).
    pose proof (IH r0 eq_refl). lia.
Qed.

Lemma rep_lazy_total ok k : bounded k -> bounded (rep_lazy ok k).
Proof.
  intros Hk s. induction s as [|c s IH]; simpl; intros r H.
  - destruct (k []) as [r'|] eqn:E; [|discriminate].
    injection H as <-. simpl. now apply (Hk []).
  - destruct (k (c :: s)) as [r'|] eqn:E.
    + injection H as <-. simpl. now apply (Hk (c :: s)).
    + destruct (ok c); [|discriminate].
      destruct (rep_lazy ok k s) as [r0|]; [|discriminate].
      injection H as <-. pose proof (total_bump r0).
      pose proof (IH r0 eq_refl). lia.
Qed.

Lemma match_quant_total q ok k : bounded k -> bounded (match_quant q ok k).
Proof.
  intros Hk. destruct q; simpl.
  - intros [|c s] r; simpl; [discriminate|].
    destruct (ok c); [|discriminate].
    destruct (k s) as [r'|] eqn:E; simpl; [|discriminate].
    intros H. injection H as <-. simpl. pose proof (Hk s r' E). lia.
  - now apply rep_greedy_total.
  - intros [|c s] r; simpl; [discriminate|].
    destruct (ok c); [|discriminate].
    destruct (rep_greedy ok k s) as [r'|] eqn:E; simpl; [|discriminate].
    intros H. injection H as <-. pose proof (total_bump r').
    pose proof (rep_greedy_total ok k Hk s r' E). lia.
  - now apply rep_lazy_total.
Qed.

Lemma match_here_total fl re : bounded (match_here fl re).
Proof.
  induction re as [|n re IH]; simpl.
  - intros s r H. injection H as <-. simpl. lia.
  - destruct n as [a q | a q |]; unfold match_node;
      try now apply match_quant_total.
    intros s r. destruct (at_eol fl s); [|discriminate].
    apply first_piece_total. intros r'. apply IH.
Qed.

Lemma sub_from_length fl re k s :
  k <= length s -> length (sub_from fl re [] k s) <= length s - k.
Proof.
  revert k. induction s as [|c s IH]; intros k Hk.
  - simpl in Hk. destruct k; [|lia]. simpl.
    destruct (match_here fl re []); simpl; lia.
  - destruct k as [|k]; simpl in *.
    + destruct (match_here fl re (c :: s)) as [r|] eqn:E; simpl.
      * pose proof (match_here_total fl re (c :: s) r E) as Hr.
        simpl in Hr. destruct (total r) as [|j]; simpl.
        -- pose proof (IH 0). lia.
        -- pose proof (IH j). lia.
      * pose proof (IH 0). lia.
    + pose proof (IH k). lia.
Qed.

Lemma sub_re_length fl re s : length (sub_re fl re [] s) <= length s.
Proof. unfold sub_re. pose proof (sub_from_length fl re 0 s). lia. Qed.


(** *** Comments are found *)





Lemma sanitize_length_chain s :
  let a := sub_re re_MULTILINE line_comment_re [] s in
  let b := sub_re re_DOTALL block_comment_re [] a in
  length (sanitize_query s) <= length b /\ length b <= length a /\
  length a <= length s.
Proof.
  cbv zeta. rewrite sanitize_unfold. cbv zeta.
  set (a := sub_re re_MULTILINE line_comment_re [] s).
  set (b := sub_re re_DOTALL block_comment_re [] a).
  split; [|split; apply sub_re_length].
  pose proof (strip_length (collapse b)). pose proof (collapse_length b).
  destruct (contains _ _); [|lia].
  pose proof (strip_length (before (ch ";") (strip (collapse b)))).
  pose proof (before_length (ch ";") (strip (collapse b))). lia.
Qed.





End SanitizeFacts.

(** ** The phases of the validator, put together *)

Module PipelineFacts.

Import Statements Sqlparse QueryValidator PyStrFacts ValidatorFacts.

(** Induction on a token and, for a group, on all of its children. *)
Lemma token_nested_ind (P : token -> Prop) :
  (forall ttype v, P (Leaf ttype v)) ->
  (forall cls ts, Forall P ts -> P (Group cls ts)) ->
  forall t, P t.
Proof.
  intros Hleaf Hgroup. fix IH 1. intros [ttype v | cls ts].
  - apply Hleaf.
  - apply Hgroup. induction ts as [|t ts IHts]; constructor;
      [apply IH | exact IHts].
Qed.

Lemma fold_extract ts acc :
  Forall (fun t => extract_from_token t = (names t, [])) ts ->
  fold_left
    (fun acc t =>
       let (tabs, cols) := extract_from_token t in
       (fst acc ++ tabs, snd acc ++ cols)) ts acc
  = (fst acc ++ flat_map names ts, snd acc).
Proof.
  intros H. revert acc. induction H as [|t ts Ht Hts IH]; intros acc;
    cbn [fold_left flat_map].
  - rewrite app_nil_r. now destruct acc.
  - rewrite IH, Ht. cbn [fst snd]. now rewrite app_nil_r, <- app_assoc.
Qed.

(** A token yields the names below it as tables, and no column. *)
Lemma extract_from_token_eq t : extract_from_token t = (names t, []).
Proof.
  induction t as [ttype v | cls ts IH] using token_nested_ind.
  - cbn [extract_from_token names].
    destruct (ttype_is ttype Name); reflexivity.
  - cbn [extract_from_token names]. now rewrite (fold_extract ts _ IH).
Qed.

Lemma extract_from_tokens_eq ts :
  extract_from_tokens ts = (flat_map names ts, []).
Proof.
  unfold extract_from_tokens. rewrite fold_extract; [reflexivity|].
  apply Forall_forall. intros t _. apply extract_from_token_eq.
Qed.

Lemma filter_none {A : Type} (f : A -> bool) l :
  forallb f l = true -> filter (fun x => negb (f x)) l = [].
Proof.
  induction l as [|x l IH]; cbn [forallb filter]; [reflexivity|].
  intros H. apply andb_true_iff in H. destruct H as [Hx Hl].
  rewrite Hx. cbn [negb]. now apply IH.
Qed.

(** A passing security phase has found nothing. *)
Lemma fold_reject_valid {A : Type} (test : A -> bool) (msg : A -> str)
    (l : list A) (r : Check.t) :
  Check.is_valid
    (fold_left (fun r x => if test x then reject r (msg x) else r) l r)
  = true ->
  Check.is_valid r = true /\ forall x, In x l -> test x = false.
Proof.
  intros H. split.
  - destruct (Check.is_valid r) eqn:E; [reflexivity|].
    now rewrite fold_reject_invalid in H.
  - intros x Hx. destruct (test x) eqn:E; [|reflexivity].
    now rewrite (fold_reject_hit test msg l r x Hx E) in H.
Qed.

Lemma security_valid_inv keyword_order sql_query :
  Check.is_valid (_validate_security keyword_order sql_query) = true ->
  (forall keyword, In keyword keyword_order ->
     contains keyword (upper sql_query) = false) /\
  (forall pattern, In pattern forbidden_patterns ->
     truthy (re_search pattern (upper sql_query) re_IGNORECASE) = false) /\
  count (L ";") sql_query <= 1 /\
  contains (L "--") sql_query = false /\
  contains (L "/*") sql_query = false.
Proof.
  unfold _validate_security. cbv zeta.
  destruct (contains (L "--") sql_query || contains (L "/*") sql_query)
    eqn:Ec; [discriminate|].
  destruct (1 <? count (L ";") sql_query) eqn:Es; [discriminate|].
  intros H.
  apply fold_reject_valid in H. destruct H as [H Hp].
  apply fold_reject_valid in H. destruct H as [_ Hk].
  apply orb_false_iff in Ec. apply Nat.ltb_ge in Es.
  repeat split; try tauto; assumption.
Qed.

Section Environment.

Variable parse : str -> outcome (list statement).
Variable keyword_order : list str.
Variable list_of_set : list str -> list str.

(** What [_extract_query_info] reports. *)
Lemma query_info_eq sql_query :
  _extract_query_info parse list_of_set sql_query =
  match parse sql_query with
  | Returned (statement :: _) =>
      {| Info.query_type :=
           if _is_select_statement statement then L "SELECT"
           else L "unknown";
         Info.tables_used := list_of_set (flat_map names statement);
         Info.columns_used := [] |}
  | _ => {| Info.query_type := L "unknown"; Info.tables_used := [];
            Info.columns_used := [] |}
  end.
Proof.
  unfold _extract_query_info, _extract_tables_and_columns. cbv zeta.
  destruct (parse sql_query) as [[|st sts]|e]; try reflexivity.
  rewrite extract_from_tokens_eq. reflexivity.
Qed.

Lemma query_info_columns sql_query :
  Info.columns_used (_extract_query_info parse list_of_set sql_query) = [].
Proof.
  rewrite query_info_eq.
  destruct (parse sql_query) as [[|st sts]|e]; reflexivity.
Qed.

(** The loop of the schema phase over the tables. *)
Lemma schema_tables_loop available l (r : SchemaCheck.t) :
  let step := fun (result : SchemaCheck.t) (table : str) =>
    if negb (mem table available)
    then {| SchemaCheck.is_valid := false;
            SchemaCheck.errors := SchemaCheck.errors result ++
              [L "Table '" ++ table ++ L "' does not exist in schema"];
            SchemaCheck.warnings := SchemaCheck.warnings result |}
    else result in
  SchemaCheck.is_valid (fold_left step l r)
  = SchemaCheck.is_valid r && forallb (fun table => mem table available) l
  /\ SchemaCheck.warnings (fold_left step l r) = SchemaCheck.warnings r
  /\ SchemaCheck.errors (fold_left step l r)
     = SchemaCheck.errors r ++
       map (fun table => L "Table '" ++ table ++ L "' does not exist in schema")
         (filter (fun table => negb (mem table available)) l).
Proof.
  cbv zeta. revert r. induction l as [|t l IH]; intros r;
    cbn [fold_left forallb filter map].
  - now rewrite andb_true_r, app_nil_r.
  - destruct (IH (if negb (mem t available)
                  then {| SchemaCheck.is_valid := false;
                          SchemaCheck.errors := SchemaCheck.errors r ++
                            [L "Table '" ++ t ++ L "' does not exist in schema"];
                          SchemaCheck.warnings := SchemaCheck.warnings r |}
                  else r)) as (Hv & Hw & He).
    rewrite Hv, Hw, He.
    destruct (mem t available); cbn [negb map SchemaCheck.is_valid
      SchemaCheck.errors SchemaCheck.warnings andb].
    + auto.
    + rewrite andb_false_r. rewrite <- app_assoc. auto.
Qed.

Lemma schema_phase_eq sql_query schema :
  let r := _validate_against_schema parse list_of_set sql_query schema in
  let used := Info.tables_used
                (_extract_query_info parse list_of_set sql_query) in
  SchemaCheck.is_valid r
  = forallb (fun table => mem table (keys (tables schema))) used
  /\ SchemaCheck.warnings r = []
  /\ SchemaCheck.errors r
     = map (fun table => L "Table '" ++ table ++ L "' does not exist in schema")
         (filter (fun table => negb (mem table (keys (tables schema)))) used).
Proof.
  cbv zeta. unfold _validate_against_schema. cbv zeta.
  rewrite query_info_columns. cbn [fold_left].
  apply (schema_tables_loop (keys (tables schema))).
Qed.

(** The phases of [validate_query], put together. *)
Lemma validate_query_flag sql_query schema_info :
  is_valid (validate_query parse keyword_order list_of_set sql_query
              schema_info)
  = Check.is_valid (_validate_syntax parse sql_query)
    && Check.is_valid (_validate_security keyword_order sql_query)
    && tables_known schema_info
         (Info.tables_used (_extract_query_info parse list_of_set sql_query)).
Proof.
  unfold validate_query. cbv zeta.
  destruct (Check.is_valid (_validate_syntax parse sql_query)); simpl;
    [|reflexivity].
  destruct schema_info as [schema|]; simpl.
  - destruct (schema_phase_eq sql_query schema) as (Hv & _ & _).
    cbv zeta in Hv. rewrite Hv.
    destruct (Check.is_valid (_validate_security keyword_order sql_query));
      simpl; destruct (forallb _ _); reflexivity.
  - destruct (Check.is_valid (_validate_security keyword_order sql_query));
      reflexivity.
Qed.

Lemma syntax_valid_inv sql_query :
  Check.is_valid (_validate_syntax parse sql_query) = true ->
  exists statement rest,
    parse sql_query = Returned (statement :: rest) /\
    _is_select_statement statement = true.
Proof.
  unfold _validate_syntax. cbv zeta.
  destruct (parse sql_query) as [[|st sts]|e]; try discriminate.
  destruct (_is_select_statement st) eqn:E; [|discriminate].
  intros _. eauto.
Qed.

Lemma valid_query_phases sql_query schema_info :
  is_valid (validate_query parse keyword_order list_of_set sql_query
              schema_info) = true ->
  Check.is_valid (_validate_syntax parse sql_query) = true /\
  Check.is_valid (_validate_security keyword_order sql_query) = true.
Proof.
  intros H. rewrite validate_query_flag in H.
  apply andb_true_iff in H. destruct H as [H _].
  now apply andb_true_iff in H.
Qed.

(** X1.  Whatever [validate_query] accepts is a SELECT without any of the
    marks of the security phase: the parser returned a statement whose
    first token reads SELECT, the upper-cased text contains none of the
    eleven denylisted keywords and matches none of the fourteen forbidden
    patterns, and the text has at most one semicolon and neither of the
    comment markers. *)
Theorem valid_query_is_safe (sql_query : str)
    (schema_info : option SchemaCatalog) :
  Permutation keyword_order dangerous_keywords ->
  is_valid (validate_query parse keyword_order list_of_set sql_query
              schema_info) = true ->
  (exists statement rest,
     parse sql_query = Returned (statement :: rest) /\
     _is_select_statement statement = true) /\
  (forall keyword, In keyword dangerous_keywords ->
     contains keyword (upper sql_query) = false) /\
  (forall pattern, In pattern forbidden_patterns ->
     truthy (re_search pattern (upper sql_query) re_IGNORECASE) = false) /\
  count (L ";") sql_query <= 1 /\
  contains (L "--") sql_query = false /\
  contains (L "/*") sql_query = false.
Proof.
  intros Horder H. apply valid_query_phases in H. destruct H as [Hsyn Hsec].
  split; [now apply syntax_valid_inv|].
  destruct (security_valid_inv keyword_order sql_query Hsec) as (Hk & Hrest).
  split; [|exact Hrest].
  intros keyword Hin. apply Hk.
  now apply (Permutation_in _ (Permutation_sym Horder)).
Qed.

(** X2.  The reported query type is 'SELECT' exactly when the syntax
    phase passed; in every other case it is still 'unknown'. *)
Theorem query_type_tells_syntax (sql_query : str)
    (schema_info : option SchemaCatalog) :
  let r := validate_query parse keyword_order list_of_set sql_query
             schema_info in
  (Check.is_valid (_validate_syntax parse sql_query) = true ->
   query_type r = L "SELECT") /\
  (Check.is_valid (_validate_syntax parse sql_query) = false ->
   query_type r = L "unknown").
Proof.
  cbv zeta. unfold validate_query. cbv zeta. split; intros H; rewrite H.
  - cbn [negb]. cbv beta iota.
    destruct (syntax_valid_inv sql_query H) as (st & sts & Hp & Hs).
    assert (Hq : Info.query_type
                   (_extract_query_info parse list_of_set sql_query)
                 = L "SELECT").
    { rewrite query_info_eq, Hp. cbn [Info.query_type]. now rewrite Hs. }
    destruct (if negb (Check.is_valid _) then _ else _) as [valid errs].
    destruct schema_info as [schema|].
    + destruct (if negb (SchemaCheck.is_valid _) then _ else _).
      exact Hq.
    + exact Hq.
  - reflexivity.
Qed.

(** X3.  No column is ever recorded: [columns_used] is empty for every
    text and every parser, the schema phase therefore never warns about a
    column, and every warning of [validate_query] is one of the
    performance phase. *)
Theorem no_column_is_ever_checked (sql_query : str)
    (schema_info : option SchemaCatalog) :
  let r := validate_query parse keyword_order list_of_set sql_query
             schema_info in
  columns_used r = [] /\
  (forall schema,
     SchemaCheck.warnings
       (_validate_against_schema parse list_of_set sql_query schema) = []) /\
  warnings r =
    if Check.is_valid (_validate_syntax parse sql_query)
    then Perf.warnings (_validate_performance sql_query)
    else [].
Proof.
  cbv zeta.
  assert (Hw : forall schema,
             SchemaCheck.warnings
               (_validate_against_schema parse list_of_set sql_query schema)
             = []).
  { intros schema. now destruct (schema_phase_eq sql_query schema)
      as (_ & Hw & _). }
  unfold validate_query. cbv zeta.
  destruct (Check.is_valid (_validate_syntax parse sql_query));
    cbn [negb]; cbv beta iota.
  - destruct (if negb (Check.is_valid _) then _ else _) as [valid errs].
    destruct schema_info as [schema|].
    + destruct (if negb (SchemaCheck.is_valid _) then _ else _).
      cbn [columns_used warnings]. rewrite Hw, query_info_columns. auto.
    + cbn [columns_used warnings]. rewrite query_info_columns. auto.
  - auto.
Qed.

(** X4.  Once the syntax phase has passed, the errors of [validate_query]
    are those of the security phase followed by one error for each
    reported table that the catalog does not have (none without a
    catalog), and the flag is true exactly when the security phase passed
    and every reported table is in the catalog. *)
Theorem errors_accumulate_after_syntax (sql_query : str)
    (schema_info : option SchemaCatalog) :
  Check.is_valid (_validate_syntax parse sql_query) = true ->
  let r := validate_query parse keyword_order list_of_set sql_query
             schema_info in
  errors r =
    Check.errors (_validate_security keyword_order sql_query)
    ++ missing_tables schema_info (tables_used r) /\
  is_valid r =
    Check.is_valid (_validate_security keyword_order sql_query)
    && tables_known schema_info (tables_used r).
Proof.
  intros Hsyn. cbv zeta.
  assert (Hused : tables_used
                    (validate_query parse keyword_order list_of_set
                       sql_query schema_info)
                  = Info.tables_used
                      (_extract_query_info parse list_of_set sql_query)).
  { unfold validate_query. cbv zeta. rewrite Hsyn. cbn [negb]. cbv beta iota.
    destruct (if negb (Check.is_valid _) then _ else _) as [valid errs].
    destruct schema_info as [schema|]; [|reflexivity].
    now destruct (if negb (SchemaCheck.is_valid _) then _ else _). }
  split.
  - rewrite Hused. unfold validate_query. cbv zeta. rewrite Hsyn.
    cbn [negb]. cbv beta iota.
    pose proof (security_consistent keyword_order sql_query) as Hsec.
    unfold consistent in Hsec.
    assert (He : snd (if negb (Check.is_valid
                                 (_validate_security keyword_order sql_query))
                      then (false,
                            [] ++ Check.errors
                                    (_validate_security keyword_order
                                       sql_query))
                      else (true, []))
                 = Check.errors (_validate_security keyword_order sql_query)).
    { destruct (Check.is_valid (_validate_security keyword_order sql_query));
        cbn [negb snd]; [|reflexivity].
      destruct (Check.errors _); [reflexivity | discriminate]. }
    destruct (if negb (Check.is_valid _) then _ else _) as [valid errs].
    cbn [snd] in He. subst errs.
    destruct schema_info as [schema|]; cbn [missing_tables].
    + destruct (schema_phase_eq sql_query schema) as (Hv & _ & Herr).
      cbv zeta in Hv, Herr. rewrite Herr.
      destruct (SchemaCheck.is_valid _) eqn:E; cbn [negb errors];
        [|reflexivity].
      symmetry in Hv. rewrite (filter_none _ _ Hv). now rewrite app_nil_r.
    + cbn [errors]. now rewrite app_nil_r.
  - rewrite Hused, validate_query_flag, Hsyn. reflexivity.
Qed.

(** X5.  With a catalog, every name the parser marks as a [Name] leaf,
    at any depth of the first statement, is checked as a table: if one of
    them is not a table of the catalog, the text is rejected, and when
    the syntax phase passed the error names it.  (A column name that the
    parser marks this way is therefore demanded as a table.) *)
Theorem every_name_must_be_a_table (sql_query : str) (schema : SchemaCatalog)
    (statement : statement) (rest : list Sqlparse.statement) (v : str) :
  (forall l x, In x l -> In x (list_of_set l)) ->
  parse sql_query = Returned (statement :: rest) ->
  In v (flat_map names statement) ->
  mem v (keys (tables schema)) = false ->
  let r := validate_query parse keyword_order list_of_set sql_query
             (Some schema) in
  is_valid r = false /\
  (Check.is_valid (_validate_syntax parse sql_query) = true ->
   In (L "Table '" ++ v ++ L "' does not exist in schema") (errors r)).
Proof.
  intros Hset Hparse Hv Hmem. cbv zeta.
  assert (Hin : In v (Info.tables_used
                        (_extract_query_info parse list_of_set sql_query))).
  { rewrite query_info_eq, Hparse. cbn [Info.tables_used]. now apply Hset. }
  split.
  - rewrite validate_query_flag. cbn [tables_known].
    assert (Hf : forallb (fun table => mem table (keys (tables schema)))
                   (Info.tables_used
                      (_extract_query_info parse list_of_set sql_query))
                 = false).
    { destruct (forallb _ _) eqn:E; [|reflexivity].
      rewrite forallb_forall in E. now rewrite (E v Hin) in Hmem. }
    rewrite Hf. apply andb_false_r.
  - intros Hsyn.
    unfold validate_query. cbv zeta. rewrite Hsyn. cbn [negb]. cbv beta iota.
    destruct (if negb (Check.is_valid _) then _ else _) as [valid errs].
    destruct (schema_phase_eq sql_query schema) as (Hvalid & _ & Herr).
    cbv zeta in Hvalid, Herr.
    assert (Hmsg : In (L "Table '" ++ v ++ L "' does not exist in schema")
                     (SchemaCheck.errors
                        (_validate_against_schema parse list_of_set
                           sql_query schema))).
    { rewrite Herr.
      apply (in_map (fun table => L "Table '" ++ table
                                  ++ L "' does not exist in schema")).
      apply filter_In. split; [exact Hin | now rewrite Hmem]. }
    destruct (SchemaCheck.is_valid _) eqn:E.
    + exfalso. symmetry in Hvalid. rewrite forallb_forall in Hvalid.
      now rewrite (Hvalid v Hin) in Hmem.
    + cbn [negb errors]. apply in_or_app. now right.
Qed.

End Environment.

Lemma to_set_keeps l x : In x l -> In x (to_set l).
Proof. intros H. unfold to_set. now apply nodup_In. Qed.

Lemma valid_query_is_safe_witness :
  let sql_query := L "SELECT * FROM users WHERE id = 1" in
  is_valid (validate_query words_parse dangerous_keywords to_set sql_query
              None) = true /\
  (forall keyword, In keyword dangerous_keywords ->
     contains keyword (upper sql_query) = false) /\
  count (L ";") sql_query <= 1.
Proof.
  cbv zeta.
  assert (H : is_valid (validate_query words_parse dangerous_keywords to_set
                          (L "SELECT * FROM users WHERE id = 1") None)
              = true) by (vm_compute; reflexivity).
  split; [exact H|].
  destruct (valid_query_is_safe words_parse dangerous_keywords to_set
              (L "SELECT * FROM users WHERE id = 1") None
              (Permutation_refl _) H) as (_ & Hk & _ & Hs & _).
  split; assumption.
Defined.

Lemma query_type_tells_syntax_witness :
  Check.is_valid (_validate_syntax words_parse (L "SELECT 1; DROP TABLE t"))
  = true /\
  query_type (validate_query words_parse dangerous_keywords to_set
                (L "SELECT 1; DROP TABLE t") None) = L "SELECT".
Proof.
  assert (H : Check.is_valid
                (_validate_syntax words_parse (L "SELECT 1; DROP TABLE t"))
              = true) by (vm_compute; reflexivity).
  split; [exact H|].
  exact (proj1 (query_type_tells_syntax words_parse dangerous_keywords to_set
                  (L "SELECT 1; DROP TABLE t") None) H).
Defined.

Lemma errors_accumulate_after_syntax_witness :
  let schema :=
    Some {| tables := [(L "users", {| columns := [{| name := L "id" |}] |})] |}
  in
  errors (validate_query words_parse dangerous_keywords to_set
            (L "SELECT id FROM users -- x") schema)
  = [L "SQL comments not allowed for security reasons";
     L "Table 'id' does not exist in schema";
     L "Table 'FROM' does not exist in schema";
     L "Table '--' does not exist in schema";
     L "Table 'x' does not exist in schema"].
Proof.
  cbv zeta.
  rewrite (proj1 (errors_accumulate_after_syntax words_parse
                    dangerous_keywords to_set (L "SELECT id FROM users -- x")
                    _ ltac:(vm_compute; reflexivity))).
  vm_compute. reflexivity.
Defined.

Lemma every_name_must_be_a_table_witness :
  let schema :=
    {| tables := [(L "users", {| columns := [{| name := L "name" |}] |})] |} in
  is_valid (validate_query words_parse dangerous_keywords to_set
              (L "SELECT name FROM users") (Some schema)) = false.
Proof.
  cbv zeta.
  refine (proj1 (every_name_must_be_a_table words_parse dangerous_keywords
                   to_set (L "SELECT name FROM users") _
                   (map word_token (split (L "SELECT name FROM users"))) []
                   (L "name") to_set_keeps _ _ _)).
  - vm_compute. reflexivity.
  - vm_compute. left. reflexivity.
  - vm_compute. reflexivity.
Defined.

(** X6.  [_validate_performance] gives at most two warnings and three
    suggestions, and for a text whose upper-cased form contains LIMIT the
    only warning left is the one about several FROM clauses and the only
    suggestion left is the one about WHERE. *)
Theorem performance_advice_bounds (sql_query : str) :
  let r := _validate_performance sql_query in
  length (Perf.warnings r) <= 2 /\
  length (Perf.suggestions r) <= 3 /\
  (contains (L "LIMIT") (upper sql_query) = true ->
   incl (Perf.warnings r)
     [L "Multiple FROM clauses without JOIN may cause cartesian products"] /\
   incl (Perf.suggestions r)
     [L "Consider adding WHERE clause for better performance"]).
Proof.
  cbv zeta. unfold _validate_performance. cbv zeta.
  generalize (contains (L "SELECT *") (upper sql_query)),
    (contains (L "LIMIT") (upper sql_query)),
    (contains (L "SELECT") (upper sql_query)),
    (contains (L "WHERE") (upper sql_query)),
    (1 <? count (L "FROM") (upper sql_query)),
    (contains (L "JOIN") (upper sql_query)),
    (contains (L "ORDER BY") (upper sql_query)).
  intros [] [] [] [] [] [] [];
    cbn [andb negb Perf.warnings Perf.suggestions app length];
    (split; [lia|]); (split; [lia|]); intros H; try discriminate H;
    split; intros x Hx; first [exact Hx | destruct Hx].
Qed.

Lemma performance_advice_bounds_witness :
  contains (L "LIMIT") (upper (L "select * from a, b order by 1 limit 5"))
  = true /\
  incl
    (Perf.suggestions
       (_validate_performance (L "select * from a, b order by 1 limit 5")))
    [L "Consider adding WHERE clause for better performance"].
Proof.
  assert (H : contains (L "LIMIT")
                (upper (L "select * from a, b order by 1 limit 5")) = true)
    by (vm_compute; reflexivity).
  split; [exact H|].
  exact (proj2 (proj2 (proj2 (performance_advice_bounds
                                (L "select * from a, b order by 1 limit 5")))
                  H)).
Defined.

Lemma existsb_perm {A : Type} (f : A -> bool) l l' :
  Permutation l l' -> existsb f l = existsb f l'.
Proof.
  intros P. destruct (existsb f l') eqn:E.
  - apply existsb_exists in E. destruct E as [x [Hx Hf]].
    apply existsb_exists. exists x. split; [|exact Hf].
    now apply (Permutation_in _ (Permutation_sym P)).
  - destruct (existsb f l) eqn:E'; [|reflexivity].
    apply existsb_exists in E'. destruct E' as [x [Hx Hf]].
    assert (existsb f l' = true); [|congruence].
    apply existsb_exists. exists x. split; [|exact Hf].
    now apply (Permutation_in _ P).
Qed.

(** X7.  The answer of [is_read_only] does not depend on the order in
    which the two keyword sets are visited: it is true exactly when the
    upper-cased text contains none of the eleven denylisted keywords and
    at least one of SELECT, SHOW, DESCRIBE, EXPLAIN, WITH. *)
Theorem read_only_iff (keyword_order read_only_order : list str)
    (sql_query : str) :
  Permutation keyword_order dangerous_keywords ->
  Permutation read_only_order read_only_keywords ->
  (is_read_only keyword_order read_only_order sql_query = true <->
   (forall keyword, In keyword dangerous_keywords ->
      contains keyword (upper sql_query) = false) /\
   (exists keyword, In keyword read_only_keywords /\
      contains keyword (upper sql_query) = true)).
Proof.
  intros Hk Hr. unfold is_read_only. cbv zeta.
  rewrite (existsb_perm _ _ _ Hk), (existsb_perm _ _ _ Hr).
  destruct (existsb _ dangerous_keywords) eqn:Ed.
  - split; [discriminate|]. intros [Hnone _].
    apply existsb_exists in Ed. destruct Ed as [kw [Hin Hc]].
    now rewrite (Hnone kw Hin) in Hc.
  - assert (Hnone : forall keyword, In keyword dangerous_keywords ->
                      contains keyword (upper sql_query) = false).
    { intros kw Hin.
      destruct (contains kw (upper sql_query)) eqn:E; [|reflexivity].
      assert (existsb (fun keyword => contains keyword (upper sql_query))
                dangerous_keywords = true); [|congruence].
      apply existsb_exists. eauto. }
    destruct (existsb _ read_only_keywords) eqn:Er.
    + split; [|reflexivity]. intros _. split; [exact Hnone|].
      apply existsb_exists in Er. exact Er.
    + split; [discriminate|]. intros [_ [kw [Hin Hc]]].
      assert (existsb (fun keyword => contains keyword (upper sql_query))
                read_only_keywords = true); [|congruence].
      apply existsb_exists. eauto.
Qed.

Lemma read_only_iff_witness :
  is_read_only dangerous_keywords read_only_keywords
    (L "select name from users") = true.
Proof.
  apply (read_only_iff dangerous_keywords read_only_keywords
           (L "select name from users") (Permutation_refl _)
           (Permutation_refl _)).
  split.
  - intros keyword Hin. simpl in Hin.
    repeat destruct Hin as [<- | Hin]; try (vm_compute; reflexivity).
    contradiction.
  - exists (L "SELECT"). split; [now left | vm_compute; reflexivity].
Defined.

(** X8.  The keywords are looked for as substrings of the upper-cased
    text.  A text that holds a denylisted keyword anywhere, in any letter
    case and also inside a longer word (a piece [mid] whose upper-cased
    form is the keyword), is not read-only and does not pass the security
    phase, whatever else it contains. *)
Theorem keyword_inside_a_word_is_rejected
    (keyword_order read_only_order : list str) (keyword pre mid post : str) :
  Permutation keyword_order dangerous_keywords ->
  In keyword dangerous_keywords ->
  upper mid = keyword ->
  is_read_only keyword_order read_only_order (pre ++ mid ++ post) = false /\
  Check.is_valid (_validate_security keyword_order (pre ++ mid ++ post))
  = false.
Proof.
  intros Hk Hin Hmid.
  assert (Hc : contains keyword (upper (pre ++ mid ++ post)) = true)
    by now apply contains_upper_variant.
  assert (Hin' : In keyword keyword_order)
    by now apply (Permutation_in _ (Permutation_sym Hk)).
  split.
  - unfold is_read_only. cbv zeta.
    assert (E : existsb
                  (fun keyword => contains keyword
                                    (upper (pre ++ mid ++ post)))
                  keyword_order = true).
    { apply existsb_exists. eauto. }
    now rewrite E.
  - now apply (security_rejects_keyword keyword_order _ keyword).
Qed.

Lemma keyword_inside_a_word_is_rejected_witness :
  is_read_only dangerous_keywords read_only_keywords
    (L "SELECT " ++ L "create" ++ L "d_at FROM users") = false /\
  Check.is_valid
    (_validate_security dangerous_keywords
       (L "SELECT " ++ L "create" ++ L "d_at FROM users")) = false.
Proof.
  apply (keyword_inside_a_word_is_rejected dangerous_keywords
           read_only_keywords (L "CREATE") (L "SELECT ") (L "create")
           (L "d_at FROM users")).
  - apply Permutation_refl.
  - simpl. tauto.
  - vm_compute. reflexivity.
Defined.

End PipelineFacts.

(** ** The example store, its statistics and its patterns *)

Module StoreFacts.

Import Statements QueryValidator PyDict FewShotLearning PyStrFacts.

(** X9.  An example added with [add_example] is filed at the end of its
    category and of its difficulty, whatever its texts are (nothing is
    validated); the lists of the other categories and difficulties do not
    change. *)
Theorem added_example_is_filed (examples : list Example)
    (natural_language sql category difficulty wanted : str) :
  let store :=
    add_example examples natural_language sql category difficulty in
  let e := new_example natural_language sql category difficulty in
  get_examples_by_category store wanted
  = get_examples_by_category examples wanted
    ++ (if str_eqb category wanted then [e] else []) /\
  get_examples_by_difficulty store wanted
  = get_examples_by_difficulty examples wanted
    ++ (if str_eqb difficulty wanted then [e] else []).
Proof.
  cbv zeta.
  unfold get_examples_by_category, get_examples_by_difficulty, add_example,
    new_example.
  rewrite !filter_app. cbn [filter FewShotLearning.category
    FewShotLearning.difficulty].
  split; reflexivity.
Qed.

(** *** Counting dictionaries *)

Lemma str_eqb_refl a : str_eqb a a = true.
Proof. now apply str_eqb_eq. Qed.




Lemma keys_dict_set {V : Type} key (v : V) (d : dict V) :
  keys (dict_set key v d)
  = if mem key (keys d) then keys d else keys d ++ [key].
Proof.
  unfold keys, mem. induction d as [|[k' v'] d IH];
    cbn [dict_set map existsb fst app]; [reflexivity|].
  destruct (str_eqb key k'); cbn [orb map fst]; [reflexivity|].
  rewrite IH. now destruct (existsb (str_eqb key) (map fst d)).
Qed.

Lemma mem_true x l : mem x l = true <-> In x l.
Proof.
  unfold mem. rewrite existsb_exists. split.
  - intros [y [Hy E]]. apply str_eqb_eq in E. now subst.
  - intros H. exists x. split; [exact H | apply str_eqb_refl].
Qed.






(** *** Patterns *)

Lemma find_first {A : Type} (f : A -> bool) l x :
  find f l = Some x ->
  exists before after,
    l = before ++ x :: after /\ f x = true /\
    forall y, In y before -> f y = false.
Proof.
  induction l as [|a l IH]; cbn [find]; [discriminate|].
  destruct (f a) eqn:E.
  - intros H. injection H as <-. exists [], l. repeat split; auto.
    intros y [].
  - intros H. destruct (IH H) as (b & c & -> & Hx & Hb).
    exists (a :: b), c. repeat split; auto.
    intros y [<- | Hy]; auto.
Qed.

Lemma find_none_existsb {A : Type} (f : A -> bool) l :
  find f l = None <-> existsb f l = false.
Proof.
  induction l as [|a l IH]; cbn [find existsb]; [tauto|].
  destruct (f a); cbn [orb]; [split; discriminate | exact IH].
Qed.

Lemma patterns_loop query patterns acc :
  fold_left
    (fun matching_patterns entry =>
       match find (fun keyword => contains keyword (lower query))
               (keywords (snd entry)) with
       | Some keyword =>
           matching_patterns ++
           [{| name := fst entry; info := snd entry;
               matched_keyword := keyword |}]
       | None => matching_patterns
       end)
    patterns acc
  = acc ++ get_patterns_for_query patterns query.
Proof.
  unfold get_patterns_for_query. cbv zeta. revert acc.
  induction patterns as [|p l IH]; intros acc; cbn [fold_left].
  - now rewrite app_nil_r.
  - rewrite IH. rewrite (IH (match find _ _ with Some _ => _ | None => _ end)).
    destruct (find _ (keywords (snd p))); cbn [app];
      [now rewrite <- app_assoc | reflexivity].
Qed.

(** X11.  [get_patterns_for_query] reports the patterns of which a keyword
    occurs in the lower-cased query, each once and in dictionary order;
    and the keyword reported for a pattern is the first of its list that
    occurs, not every one that does. *)
Theorem patterns_matched_in_order (patterns : dict Pattern) (query : str) :
  let found := get_patterns_for_query patterns query in
  map (fun m => (name m, info m)) found
  = filter (pattern_applies query) patterns /\
  Forall
    (fun m =>
       exists before after,
         keywords (info m) = before ++ matched_keyword m :: after /\
         contains (matched_keyword m) (lower query) = true /\
         forall keyword, In keyword before ->
           contains keyword (lower query) = false)
    found.
Proof.
  cbv zeta. induction patterns as [|[n p] l [IHm IHf]].
  - split; [reflexivity | constructor].
  - unfold get_patterns_for_query. cbv zeta. cbn [fold_left].
    rewrite patterns_loop. cbn [filter fst snd]. unfold pattern_applies at 1.
    cbn [snd].
    destruct (find _ (keywords p)) as [keyword|] eqn:E.
    + assert (Ee : existsb (fun keyword => contains keyword (lower query))
                     (keywords p) = true).
      { destruct (existsb _ (keywords p)) eqn:Ee; [reflexivity|].
        apply find_none_existsb in Ee. congruence. }
      rewrite Ee. cbn [app map name info]. rewrite IHm.
      split; [reflexivity|].
      constructor; [|exact IHf]. cbn [info matched_keyword].
      now apply find_first in E.
    + apply find_none_existsb in E. rewrite E. cbn [app].
      split; assumption.
Qed.

Lemma patterns_matched_in_order_witness :
  map (fun m => (name m, info m))
    (get_patterns_for_query default_patterns
       (L "Count the number of orders per customer"))
  = filter (pattern_applies (L "Count the number of orders per customer"))
      default_patterns.
Proof.
  exact (proj1 (patterns_matched_in_order default_patterns
                  (L "Count the number of orders per customer"))).
Defined.

(** The scenario of the description: counting per customer matches the
    counting pattern and the grouping pattern. *)
Example count_per_customer_patterns :
  map (fun m => (name m, matched_keyword m))
    (get_patterns_for_query default_patterns
       (L "Count the number of orders per customer"))
  = [(L "count", L "count"); (L "group_by", L "per")].
Proof. vm_compute. reflexivity. Qed.

(** *** The prompt text *)

Lemma format_from_app i examples formatted :
  format_from i examples formatted
  = formatted ++ format_from i examples [].
Proof.
  revert i formatted. induction examples as [|e l IH]; intros i formatted;
    cbn [format_from].
  - now rewrite app_nil_r.
  - rewrite IH. rewrite (IH (S i) (_ ++ _)).
    cbn [app]. now rewrite <- !app_assoc.
Qed.

Lemma format_from_cons i e l :
  format_from i (e :: l) [] = prompt_block i e ++ format_from (S i) l [].
Proof.
  cbn [format_from]. rewrite format_from_app. unfold prompt_block.
  rewrite <- !app_assoc. reflexivity.
Qed.

Lemma format_from_block i l n e :
  nth_error l n = Some e ->
  contains (prompt_block (i + n) e) (format_from i l []) = true.
Proof.
  revert i n. induction l as [|a l IH]; intros i n H.
  - destruct n; discriminate.
  - rewrite format_from_cons. destruct n as [|n]; cbn [nth_error] in H.
    + injection H as ->. rewrite Nat.add_0_r.
      apply contains_iff. exists [], (format_from (S i) l []). reflexivity.
    + replace (i + S n) with (S i + n) by lia.
      apply (contains_suffix _ (format_from (S i) l []));
        [now exists (prompt_block i a) | now apply IH].
Qed.

(** X12.  [format_examples_for_prompt] answers the empty text exactly for
    the empty list; otherwise the text begins with the heading, and the
    example at position [n] (counted from 0) stands in it as the block
    numbered [n + 1] with its two texts unchanged. *)
Theorem prompt_holds_every_example (examples : list Example) :
  (format_examples_for_prompt examples = [] <-> examples = []) /\
  (examples <> [] ->
   startswith (L "Example queries:" ++ [newline; newline])
     (format_examples_for_prompt examples) = true) /\
  (forall n e, nth_error examples n = Some e ->
     contains (prompt_block (S n) e) (format_examples_for_prompt examples)
     = true).
Proof.
  destruct examples as [|a l].
  - repeat split; try tauto. intros [|n] e H; discriminate.
  - unfold format_examples_for_prompt. rewrite format_from_app.
    split; [|split].
    + split; discriminate.
    + intros _. apply startswith_iff. eauto.
    + intros n e H.
      apply (contains_suffix _ (format_from 1 (a :: l) []));
        [eexists; reflexivity|].
      now apply (format_from_block 1).
Qed.

Lemma prompt_holds_every_example_witness :
  contains
    (L "Example 2:" ++ [newline]
     ++ L "Natural Language: Find users who signed up last month")
    (format_examples_for_prompt default_examples) = true.
Proof.
  pose proof (proj2 (proj2 (prompt_holds_every_example default_examples))
                1 _ eq_refl) as H.
  apply contains_iff in H. destruct H as (a & b & H).
  apply contains_iff. exists a. eexists. rewrite H.
  unfold prompt_block. cbn [nth_error default_examples].
  change (str_of_nat 2) with (L "2").
  rewrite <- !app_assoc. reflexivity.
Defined.

End StoreFacts.

(** ** The mock generator *)

Module GeneratorFacts.

Import Statements Sqlparse QueryValidator FewShotLearning MockNL2SQL.
Import PyStrFacts ValidatorFacts PatternMatcherFacts RetrieverFacts.
Import PipelineFacts.

Lemma pattern_match_selects {Schema : Type} query tables (schema : Schema) :
  startswith (L "SELECT") (_pattern_match_sql query tables schema) = true.
Proof.
  unfold _pattern_match_sql.
  repeat (apply orelse_selects;
          [first [ apply show_all_selects | apply count_records_selects
                 | apply find_records_selects | apply top_n_selects
                 | apply orders_customers_selects
                 | apply products_categories_selects ] |]).
  apply fallback_selects.
Qed.

Section Generator.

Variable parse : str -> outcome (list statement).
Variable keyword_order : list str.
Variable list_of_set : list str -> list str.
Variable is_initialized : bool.
Variable get_database_schema : outcome (option SchemaCatalog).
Variable get_all_tables : outcome (list str).
Variable examples : list Example.

Let generate :=
  generate_sql parse keyword_order list_of_set is_initialized
    get_database_schema get_all_tables examples.

(** X13.  [generate_sql] never raises and answers in one of two shapes.
    Either there is no statement: the text is empty, the confidence is 0
    and no validation is attached.  Or the statement begins with SELECT,
    it is the one the validator was run on with the schema the extractor
    returned, the reported tables are the validator's, and the confidence
    is 0.8 when the validator accepted it and 0.3 when it did not. *)
Theorem generated_sql_is_empty_or_select (natural_language_query : str) :
  let g := generate natural_language_query in
  (Generation.sql_query g = [] /\ Qeq (Generation.confidence g) 0 /\
   Generation.validation g = None /\ Generation.tables_used g = []) \/
  (startswith (L "SELECT") (Generation.sql_query g) = true /\
   exists schema,
     get_database_schema = Returned schema /\
     let v := validate_query parse keyword_order list_of_set
                (Generation.sql_query g) schema in
     Generation.validation g = Some v /\
     Generation.tables_used g = tables_used v /\
     Generation.confidence g
     = if is_valid v then Qmake 4 5 else Qmake 3 10).
Proof.
  cbv zeta. unfold generate, generate_sql.
  destruct is_initialized; cbn [negb];
    [|left; repeat split; reflexivity].
  destruct get_database_schema as [schema|e];
    [|left; repeat split; reflexivity].
  destruct get_all_tables as [tables|e];
    [|left; repeat split; reflexivity].
  destruct (get_similar_examples examples natural_language_query 3)
    as [similar|e]; [|left; repeat split; reflexivity].
  right. cbv zeta. cbn [Generation.sql_query Generation.validation
    Generation.tables_used Generation.confidence].
  split; [apply pattern_match_selects|].
  exists schema. repeat split.
Qed.

(** X14.  A question without a word, asked of an initialized generator
    whose store holds an example without a word, gets no statement at
    all: the division by zero of the retriever is caught, the text is
    empty and the explanation reports the error, although the pattern
    matcher itself would have answered. *)
Theorem blank_question_gets_no_sql (natural_language_query : str) :
  is_initialized = true ->
  (exists schema, get_database_schema = Returned schema) ->
  (exists tables, get_all_tables = Returned tables) ->
  split (lower natural_language_query) = [] ->
  (exists e, In e examples /\ split (lower (natural_language e)) = []) ->
  generate natural_language_query
  = no_sql (L "Error generating SQL: division by zero").
Proof.
  intros Hinit [schema Hs] [tables Ht] Hq He.
  unfold generate, generate_sql. rewrite Hinit, Hs, Ht. cbn [negb].
  unfold get_similar_examples.
  rewrite (collect_raises natural_language_query examples [] Hq He).
  reflexivity.
Qed.

(** X15.  The denylist also judges the generator's own output.  When the
    question asks to show all of a table whose name holds a denylisted
    keyword (such as a table "updates"), the statement the pattern
    matcher builds for it is rejected by the validator and comes back
    with confidence 0.3. *)
Theorem table_named_like_a_keyword (natural_language_query : str)
    (schema : option SchemaCatalog) (all_tables : list str)
    (table keyword : str) :
  Permutation keyword_order dangerous_keywords ->
  is_initialized = true ->
  get_database_schema = Returned schema ->
  get_all_tables = Returned all_tables ->
  (exists similar,
     get_similar_examples examples natural_language_query 3
     = Returned similar) ->
  any_in [L "show me all"; L "get all"; L "list all"; L "display all"]
    (lower natural_language_query) = true ->
  first_mentioned all_tables (lower natural_language_query) = Some table ->
  In keyword dangerous_keywords ->
  contains keyword (upper table) = true ->
  let g := generate natural_language_query in
  Generation.sql_query g = L "SELECT * FROM " ++ table /\
  Generation.confidence g = Qmake 3 10 /\
  exists v, Generation.validation g = Some v /\ is_valid v = false.
Proof.
  intros Hk Hinit Hs Ht [similar Hsim] Hany Hfirst Hin Hc. cbv zeta.
  unfold generate, generate_sql. rewrite Hinit, Hs, Ht, Hsim. cbn [negb].
  cbv zeta. cbn [Generation.sql_query Generation.validation
    Generation.confidence].
  assert (Hsql : _pattern_match_sql natural_language_query all_tables schema
                 = L "SELECT * FROM " ++ table).
  { unfold _pattern_match_sql, show_all. rewrite Hany, Hfirst. reflexivity. }
  rewrite Hsql.
  assert (Hinv : is_valid (validate_query parse keyword_order list_of_set
                             (L "SELECT * FROM " ++ table) schema) = false).
  { apply insecure_is_invalid.
    apply (security_rejects_keyword keyword_order _ keyword).
    - now apply (Permutation_in _ (Permutation_sym Hk)).
    - rewrite upper_app. apply (contains_suffix _ (upper table));
        [eexists; reflexivity | exact Hc]. }
  rewrite Hinv. split; [reflexivity|]. split; [reflexivity|].
  eexists. split; [reflexivity | exact Hinv].
Qed.

End Generator.

Section Executor.

Variable parse : str -> outcome (list statement).
Variable keyword_order : list str.
Variable list_of_set : list str -> list str.
Variable is_initialized : bool.
Variable V : Type.
Variable database : str -> outcome (list str * list (list V) * Q).

Let execute :=
  execute_sql parse keyword_order list_of_set is_initialized V database.

(** X16.  [execute_sql] asks the database only for a text that
    [validate_query] accepts.  A rejected text gets the error dictionary
    with the validator's errors joined by "; ", whatever the database
    would have answered; and an answer without an error means that the
    generator was initialized, the text was accepted (so it holds no
    denylisted keyword, at most one semicolon and no comment marker) and
    the database returned, with [row_count] the number of fetched
    rows. *)
Theorem execute_sql_validates_first (sql_query : str) :
  Permutation keyword_order dangerous_keywords ->
  let v := validate_query parse keyword_order list_of_set sql_query None in
  (is_initialized = true -> is_valid v = false ->
   execute sql_query
   = no_results V (L "Invalid SQL query: " ++ join (L "; ") (errors v))) /\
  (Execution.error (execute sql_query) = None ->
   is_initialized = true /\ is_valid v = true /\
   (forall keyword, In keyword dangerous_keywords ->
      contains keyword (upper sql_query) = false) /\
   count (L ";") sql_query <= 1 /\
   contains (L "--") sql_query = false /\
   contains (L "/*") sql_query = false /\
   exists columns rows seconds,
     database sql_query = Returned (columns, rows, seconds) /\
     Execution.row_count (execute sql_query) = length rows /\
     length (Execution.results (execute sql_query)) = length rows).
Proof.
  intros Hk. cbv zeta. unfold execute, execute_sql. cbv zeta. split.
  - intros -> ->. reflexivity.
  - destruct is_initialized; cbn [negb]; [|discriminate].
    destruct (is_valid (validate_query parse keyword_order list_of_set
                          sql_query None)) eqn:Hv; cbn [negb];
      [|discriminate].
    destruct (valid_query_phases parse keyword_order list_of_set sql_query
                None Hv) as [_ Hsec].
    destruct (security_valid_inv keyword_order sql_query Hsec)
      as (Hkw' & _ & Hsemi & Hline & Hblock).
    assert (Hkw : forall keyword, In keyword dangerous_keywords ->
                    contains keyword (upper sql_query) = false).
    { intros keyword Hin. apply Hkw'.
      now apply (Permutation_in _ (Permutation_sym Hk)). }
    destruct (database sql_query) as [[[columns rows] seconds]|e];
      [|discriminate].
    intros _. repeat (split; [assumption || reflexivity|]).
    exists columns, rows, seconds.
    cbn [Execution.row_count Execution.results].
    destruct rows; cbn [length]; rewrite ?length_map; auto.
Qed.

End Executor.

Lemma blank_question_gets_no_sql_witness :
  generate_sql words_parse dangerous_keywords to_set true (Returned None)
    (Returned [L "users"])
    (add_example default_examples (L " ") (L "SELECT 1") (L "custom")
       (L "medium"))
    (L "")
  = no_sql (L "Error generating SQL: division by zero").
Proof.
  apply (blank_question_gets_no_sql words_parse dangerous_keywords to_set
           true (Returned None) (Returned [L "users"])).
  - reflexivity.
  - eexists. reflexivity.
  - eexists. reflexivity.
  - reflexivity.
  - eexists. split; [apply in_or_app; right; now left | reflexivity].
Defined.

Lemma table_named_like_a_keyword_witness :
  let g := generate_sql words_parse dangerous_keywords to_set true
             (Returned None) (Returned [L "users"; L "updates"])
             default_examples (L "Show me all updates") in
  Generation.sql_query g = L "SELECT * FROM " ++ L "updates" /\
  Generation.confidence g = Qmake 3 10 /\
  exists v, Generation.validation g = Some v /\ is_valid v = false.
Proof.
  apply (table_named_like_a_keyword words_parse dangerous_keywords to_set
           true (Returned None) (Returned [L "users"; L "updates"])
           default_examples (L "Show me all updates") None
           [L "users"; L "updates"] (L "updates") (L "UPDATE")).
  - apply Permutation_refl.
  - reflexivity.
  - reflexivity.
  - reflexivity.
  - eexists. vm_compute. reflexivity.
  - vm_compute. reflexivity.
  - vm_compute. reflexivity.
  - simpl. tauto.
  - vm_compute. reflexivity.
Defined.

Lemma execute_sql_validates_first_witness :
  let database := fun _ : str =>
    Returned ([L "id"], [[1]; [2]], Qmake 1 100) in
  execute_sql words_parse dangerous_keywords to_set true nat database
    (L "SELECT id FROM users; DROP TABLE users")
  = no_results nat
      (L "Invalid SQL query: Dangerous keyword 'DROP' detected; Forbidden pattern detected: DROP\s+TABLE; Forbidden pattern detected: ;\s*DROP").
Proof.
  cbv zeta.
  rewrite (proj1 (execute_sql_validates_first words_parse dangerous_keywords
                    to_set true nat _
                    (L "SELECT id FROM users; DROP TABLE users")
                    (Permutation_refl _))
             eq_refl ltac:(vm_compute; reflexivity)).
  vm_compute. reflexivity.
Defined.

End GeneratorFacts.

(** ** Cleaning and executing a generated statement *)

Module CleanFacts.

Import Statements QueryValidator NL2SQL.
Import PyStrFacts SanitizeFacts.

Lemma substring_refl s : substring_of s s.
Proof. exists [], []. now rewrite app_nil_r. Qed.

Lemma substring_trans u v s :
  substring_of u v -> substring_of v s -> substring_of u s.
Proof.
  intros (a & b & ->) (c & d & ->). exists (c ++ a), (b ++ d).
  now rewrite <- !app_assoc.
Qed.

Lemma strip_substring s : substring_of (strip s) s.
Proof.
  unfold strip. destruct (rstrip_prefix (lstrip s)) as [b Hb].
  destruct (drop_spaces_suffix s) as [a Ha]. unfold lstrip in *.
  exists a, b. now rewrite <- Hb.
Qed.

Lemma skipn_substring n (s : str) : substring_of (skipn n s) s.
Proof.
  exists (firstn n s), []. now rewrite app_nil_r, firstn_skipn.
Qed.

Lemma drop_chars_suffix chars s : suffix_of (drop_chars chars s) s.
Proof.
  induction s as [|c s IH]; cbn [drop_chars]; [apply suffix_of_refl|].
  destruct (existsb _ chars); [now apply suffix_of_cons | apply suffix_of_refl].
Qed.

Lemma rstrip_chars_prefix chars s : exists b, s = rstrip_chars chars s ++ b.
Proof.
  unfold rstrip_chars. destruct (drop_chars_suffix chars (rev s)) as [a Ha].
  exists (rev a). rewrite <- rev_app_distr, <- Ha. now rewrite rev_involutive.
Qed.

Lemma rstrip_chars_substring chars s : substring_of (rstrip_chars chars s) s.
Proof.
  destruct (rstrip_chars_prefix chars s) as [b Hb]. now exists [], b.
Qed.

Lemma drop_chars_head chars s :
  match drop_chars chars s with
  | c :: _ => existsb (char_eqb c) chars = false
  | [] => True
  end.
Proof.
  induction s as [|c s IH]; cbn [drop_chars]; [exact I|].
  destruct (existsb (char_eqb c) chars) eqn:E; [exact IH | exact E].
Qed.

Lemma rstrip_chars_end chars s :
  ends_with_any chars (rstrip_chars chars s) = false.
Proof.
  unfold ends_with_any, rstrip_chars. rewrite rev_involutive.
  pose proof (drop_chars_head chars (rev s)) as H.
  destruct (drop_chars chars (rev s)); [reflexivity | exact H].
Qed.

Lemma contains_upper_substring n u s :
  substring_of u s -> contains n (upper u) = true ->
  contains n (upper s) = true.
Proof.
  intros (a & b & ->) H. apply contains_iff in H. destruct H as (x & y & H).
  apply contains_iff. exists (upper a ++ x), (y ++ upper b).
  rewrite !upper_app, H. now rewrite <- !app_assoc.
Qed.

Lemma remove_prefix_substring sql prefix :
  substring_of (remove_prefix sql prefix) sql.
Proof.
  unfold remove_prefix. destruct (startswith _ _); [|apply substring_refl].
  apply substring_trans with (skipn (length prefix) sql);
    [apply strip_substring | apply skipn_substring].
Qed.

Lemma remove_prefixes_substring prefixes sql :
  substring_of (fold_left remove_prefix prefixes sql) sql.
Proof.
  revert sql. induction prefixes as [|p l IH]; intros sql; cbn [fold_left].
  - apply substring_refl.
  - apply substring_trans with (remove_prefix sql p);
      [apply IH | apply remove_prefix_substring].
Qed.

Lemma clean_unfold generated_text :
  _clean_generated_sql generated_text =
  let sql := fold_left remove_prefix prefixes_to_remove
               (strip generated_text) in
  rstrip_chars (L ".;")
    (if negb (startswith (L "SELECT") (upper sql))
     then match str_find (L "SELECT") (upper sql) with
          | Some select_index => skipn select_index sql
          | None => sql
          end
     else sql).
Proof. reflexivity. Qed.

Lemma clean_tail_substring sql :
  substring_of
    (rstrip_chars (L ".;")
       (if negb (startswith (L "SELECT") (upper sql))
        then match str_find (L "SELECT") (upper sql) with
             | Some select_index => skipn select_index sql
             | None => sql
             end
        else sql))
    sql.
Proof.
  eapply substring_trans; [apply rstrip_chars_substring|].
  destruct (negb _); [|apply substring_refl].
  destruct (str_find _ _); [apply skipn_substring | apply substring_refl].
Qed.

(** X17.  [_clean_generated_sql] only cuts: its result is a piece of the
    generated text, with nothing added or changed inside, and it does not
    end with a full stop or a semicolon. *)
Theorem clean_only_cuts (generated_text : str) :
  substring_of (_clean_generated_sql generated_text) generated_text /\
  ends_with_any (L ".;") (_clean_generated_sql generated_text) = false.
Proof.
  rewrite clean_unfold. cbv zeta. split.
  - eapply substring_trans; [apply clean_tail_substring|].
    eapply substring_trans; [apply remove_prefixes_substring|].
    apply strip_substring.
  - apply rstrip_chars_end.
Qed.

(** X18.  "SELECT" is itself one of the prefixes that are removed.  So a
    generated text that, once stripped, begins with SELECT in any letter
    case and holds no second SELECT comes back without any SELECT: what
    follows the keyword is returned, and the result no longer begins with
    SELECT. *)
Theorem clean_drops_a_leading_select (generated_text : str) :
  startswith (L "SELECT") (upper (strip generated_text)) = true ->
  contains (L "SELECT") (upper (skipn 6 (strip generated_text))) = false ->
  contains (L "SELECT") (upper (_clean_generated_sql generated_text)) = false
  /\ startswith (L "SELECT") (upper (_clean_generated_sql generated_text))
     = false
  /\ substring_of (_clean_generated_sql generated_text)
       (skipn 6 (strip generated_text)).
Proof.
  intros Hstart Hrest.
  assert (Hsub : substring_of (_clean_generated_sql generated_text)
                   (skipn 6 (strip generated_text))).
  { rewrite clean_unfold. cbv zeta.
    eapply substring_trans; [apply clean_tail_substring|].
    change (fold_left remove_prefix prefixes_to_remove
              (strip generated_text))
      with (fold_left remove_prefix
              [L "Here's the SQL query:"; L "The SQL query is:";
               L "Generated SQL:"]
              (remove_prefix
                 (remove_prefix
                    (remove_prefix (strip generated_text) (L "SQL:"))
                    (L "Query:"))
                 (L "SELECT"))).
    eapply substring_trans; [apply remove_prefixes_substring|].
    assert (H1 : remove_prefix (strip generated_text) (L "SQL:")
                 = strip generated_text).
    { unfold remove_prefix. apply startswith_iff in Hstart.
      destruct Hstart as [r ->]. reflexivity. }
    rewrite H1.
    assert (H2 : remove_prefix (strip generated_text) (L "Query:")
                 = strip generated_text).
    { unfold remove_prefix. apply startswith_iff in Hstart.
      destruct Hstart as [r ->]. reflexivity. }
    rewrite H2.
    unfold remove_prefix at 1.
    change (upper (L "SELECT")) with (L "SELECT"). rewrite Hstart.
    apply strip_substring. }
  assert (Hnone : contains (L "SELECT")
                    (upper (_clean_generated_sql generated_text)) = false).
  { destruct (contains _ (upper (_clean_generated_sql generated_text)))
      eqn:E; [|reflexivity].
    now rewrite (contains_upper_substring _ _ _ Hsub E) in Hrest. }
  split; [exact Hnone|]. split; [|exact Hsub].
  destruct (startswith (L "SELECT")
              (upper (_clean_generated_sql generated_text))) eqn:E;
    [|reflexivity].
  apply startswith_contains in E. congruence.
Qed.

Lemma clean_drops_a_leading_select_witness :
  _clean_generated_sql (L "  SELECT * FROM users;  ") = L "* FROM users" /\
  startswith (L "SELECT")
    (upper (_clean_generated_sql (L "  SELECT * FROM users;  "))) = false.
Proof.
  split; [vm_compute; reflexivity|].
  apply (clean_drops_a_leading_select (L "  SELECT * FROM users;  "));
    vm_compute; reflexivity.
Defined.

(** *** Where the cut falls *)

Lemma str_find_some sub s i :
  str_find sub s = Some i -> startswith sub (skipn i s) = true.
Proof.
  revert i. induction s as [|c s IH]; intros i; cbn [str_find].
  - destruct (startswith sub []) eqn:E; [|discriminate].
    intros H. injection H as <-. exact E.
  - destruct (startswith sub (c :: s)) eqn:E.
    + intros H. injection H as <-. exact E.
    + destruct (str_find sub s) as [j|]; [|discriminate].
      intros H. injection H as <-. cbn [skipn]. now apply IH.
Qed.

Lemma str_find_none sub s : str_find sub s = None -> contains sub s = false.
Proof.
  induction s as [|c s IH]; cbn [str_find contains].
  - destruct (startswith sub []); [discriminate | reflexivity].
  - destruct (startswith sub (c :: s)); [discriminate|].
    destruct (str_find sub s); [discriminate|]. intros _. now apply IH.
Qed.

Lemma ascii_upper_char c :
  is_ascii c = true -> exists x, upper_char c = [x].
Proof.
  intros H. unfold upper_char. destruct (is_lower c); [eauto|].
  destruct (assoc c upper_special) as [u|] eqn:E; [|eauto]. exfalso.
  apply assoc_in in E. apply (in_map fst) in E. cbn [fst] in E.
  rewrite upper_special_keys in E. unfold is_ascii in H.
  apply N.ltb_lt in H. cbn [In] in E.
  repeat destruct E as [E | E]; try (subst c; vm_compute in H; discriminate H).
  exact E.
Qed.

Lemma upper_skipn n s :
  forallb is_ascii s = true -> upper (skipn n s) = skipn n (upper s).
Proof.
  revert n. induction s as [|c s IH]; intros n H.
  - now destruct n.
  - destruct n as [|n]; [reflexivity|]. cbn [forallb] in H.
    apply andb_true_iff in H. destruct H as [Hc Hs].
    destruct (ascii_upper_char c Hc) as [x Hx].
    unfold upper. cbn [flat_map skipn]. rewrite Hx. cbn [app skipn].
    now apply IH.
Qed.

Lemma ascii_substring u s :
  substring_of u s -> forallb is_ascii s = true -> forallb is_ascii u = true.
Proof.
  intros (a & b & ->) H. rewrite !forallb_app in H.
  apply andb_true_iff in H. destruct H as [_ H].
  now apply andb_true_iff in H.
Qed.

Lemma drop_chars_split chars s :
  exists t, s = t ++ drop_chars chars s /\
            forallb (fun c => existsb (char_eqb c) chars) t = true.
Proof.
  induction s as [|c s (t & Ht & Hall)]; cbn [drop_chars].
  - now exists [].
  - destruct (existsb (char_eqb c) chars) eqn:E.
    + exists (c :: t). cbn [app forallb]. rewrite E, Hall.
      split; [now f_equal | reflexivity].
    + now exists [].
Qed.

Lemma rstrip_chars_split chars s :
  exists t, s = rstrip_chars chars s ++ t /\
            forallb (fun c => existsb (char_eqb c) chars) t = true.
Proof.
  unfold rstrip_chars. destruct (drop_chars_split chars (rev s))
    as (t & Ht & Hall).
  exists (rev t). split.
  - rewrite <- rev_app_distr, <- Ht. now rewrite rev_involutive.
  - rewrite forallb_forall in *. intros c Hc. apply Hall.
    now apply in_rev.
Qed.

Lemma startswith_app_inside p a b :
  (forall c, In c b -> ~ In c p) ->
  startswith p (a ++ b) = true -> startswith p a = true.
Proof.
  revert a. induction p as [|x p IH]; intros a Hb; [reflexivity|].
  destruct a as [|y a]; cbn [app].
  - destruct b as [|y b]; cbn [startswith]; [discriminate|].
    intros H. apply andb_true_iff in H. destruct H as [H _].
    apply char_eqb_eq in H. subst y. exfalso.
    apply (Hb x); now left.
  - cbn [startswith]. intros H. apply andb_true_iff in H.
    destruct H as [Hx H]. rewrite Hx. cbn [andb]. apply IH; [|exact H].
    intros c Hc Hp. apply (Hb c Hc). now right.
Qed.

Lemma rstrip_keeps_select s :
  startswith (L "SELECT") (upper s) = true ->
  startswith (L "SELECT") (upper (rstrip_chars (L ".;") s)) = true.
Proof.
  destruct (rstrip_chars_split (L ".;") s) as (t & Ht & Hall).
  intros H. rewrite Ht, upper_app in H.
  apply (startswith_app_inside _ _ (upper t)); [|exact H].
  intros c Hc Hp. unfold upper in Hc. apply in_flat_map in Hc.
  destruct Hc as (x & Hx & Hc). rewrite forallb_forall in Hall.
  specialize (Hall x Hx). cbn [existsb L map list_ascii_of_string] in Hall.
  rewrite orb_false_r in Hall. apply orb_true_iff in Hall.
  destruct Hall as [E | E]; apply char_eqb_eq in E; subst x;
    vm_compute in Hc; destruct Hc as [<- | []];
    vm_compute in Hp; repeat destruct Hp as [Hp | Hp]; try discriminate Hp;
    exact Hp.
Qed.

(** X19.  On an ASCII text the last step of [_clean_generated_sql] does
    what its comment says: the result begins with SELECT, in any letter
    case, unless no SELECT is left after the prefixes were removed, and
    then the result holds no SELECT at all.  (The offset of the cut is
    taken on the upper-cased text; a letter whose upper-case form is
    longer, such as the sharp s, moves it.) *)
Theorem clean_result_begins_with_select (generated_text : str) :
  forallb is_ascii generated_text = true ->
  startswith (L "SELECT") (upper (_clean_generated_sql generated_text)) = true
  \/ contains (L "SELECT") (upper (_clean_generated_sql generated_text))
     = false.
Proof.
  intros Hascii. rewrite clean_unfold. cbv zeta.
  set (sql := fold_left remove_prefix prefixes_to_remove
                (strip generated_text)).
  assert (Hsql : forallb is_ascii sql = true).
  { apply (ascii_substring sql generated_text); [|exact Hascii].
    eapply substring_trans; [apply remove_prefixes_substring|].
    apply strip_substring. }
  destruct (startswith (L "SELECT") (upper sql)) eqn:Es; cbn [negb].
  - left. now apply rstrip_keeps_select.
  - destruct (str_find (L "SELECT") (upper sql)) as [i|] eqn:Ef.
    + left. apply rstrip_keeps_select. rewrite upper_skipn by exact Hsql.
      now apply str_find_some.
    + right. apply str_find_none in Ef.
      destruct (contains _ (upper (rstrip_chars _ sql))) eqn:E;
        [|reflexivity].
      now rewrite (contains_upper_substring _ _ _
                     (rstrip_chars_substring _ sql) E) in Ef.
Qed.

Lemma clean_result_begins_with_select_witness :
  startswith (L "SELECT")
    (upper (_clean_generated_sql (L "The SQL query is: select 1;"))) = true.
Proof.
  destruct (clean_result_begins_with_select
              (L "The SQL query is: select 1;")
              ltac:(vm_compute; reflexivity)) as [H | H].
  - exact H.
  - vm_compute in H. discriminate H.
Defined.

(** With a sharp s before the keyword the cut falls one character late:
    the result holds a SELECT and does not begin with it. *)
Example clean_cuts_late_after_sharp_s :
  _clean_generated_sql ([223%N] ++ L " SELECT 1 UNION SELECT 2")
  = L "ELECT 1 UNION SELECT 2".
Proof. vm_compute. reflexivity. Qed.

Section Generator.

Variable parse : str -> outcome (list Sqlparse.statement).
Variable keyword_order : list str.
Variable read_only_order : list str.
Variable list_of_set : list str -> list str.
Variable schema_info : option SchemaCatalog.
Variables Row Frame Records : Type.
Variable connection_execute : str -> answer Row.
Variable DataFrame : list Row -> list str -> outcome Frame.
Variable to_dict_records : Frame -> Records.
Variable frame_len : Frame -> nat.
Variable frame_columns : Frame -> list str.

Let execute :=
  execute_query parse keyword_order read_only_order list_of_set schema_info
    Row Frame Records connection_execute DataFrame to_dict_records
    frame_len frame_columns.

(** X20.  [execute_query] hands a statement to the database only after
    [validate_query] accepted the text and [is_read_only] agreed; the
    statement is the text itself or the text followed by " LIMIT " and
    the limit, and in either case its upper-cased form contains LIMIT or
    one of the aggregate calls COUNT(, SUM(, AVG(, MAX(, MIN(.  A text
    that is not accepted is answered by the validator's errors. *)
Theorem execute_query_gate (sql_query : str) (limit : Z) :
  let v := validate_query parse keyword_order list_of_set sql_query
             schema_info in
  (is_valid v = false ->
   execute sql_query limit = ValidationFailed (errors v)) /\
  (forall sent, sql_executed (execute sql_query limit) = Some sent ->
     is_valid v = true /\
     is_read_only keyword_order read_only_order sql_query = true /\
     (sent = sql_query \/
      sent = sql_query ++ L " LIMIT " ++ str_of_Z limit) /\
     (contains (L "LIMIT") (upper sent) = true \/
      existsb (fun keyword => contains keyword (upper sent)) aggregates
      = true)).
Proof.
  cbv zeta. unfold execute, execute_query. cbv zeta. split.
  - intros ->. reflexivity.
  - intros sent.
    destruct (is_valid _) eqn:Hv; cbn [negb]; [|discriminate].
    destruct (is_read_only _ _ _) eqn:Hr; cbn [negb]; [|discriminate].
    fold aggregates.
    set (sent' :=
           if negb (contains (L "LIMIT") (upper sql_query))
              && negb (existsb
                         (fun keyword => contains keyword (upper sql_query))
                         aggregates)
           then sql_query ++ L " LIMIT " ++ str_of_Z limit
           else sql_query).
    assert (Hshape :
              (sent' = sql_query \/
               sent' = sql_query ++ L " LIMIT " ++ str_of_Z limit) /\
              (contains (L "LIMIT") (upper sent') = true \/
               existsb (fun keyword => contains keyword (upper sent'))
                 aggregates = true)).
    { subst sent'.
      destruct (contains (L "LIMIT") (upper sql_query)) eqn:El; cbn [negb andb].
      - split; [now left | left; exact El].
      - destruct (existsb _ aggregates) eqn:Ea; cbn [negb].
        + split; [now left | right; exact Ea].
        + split; [now right|]. left.
          apply contains_iff.
          exists (upper sql_query ++ L " "), (L " " ++ upper (str_of_Z limit)).
          rewrite !upper_app. rewrite <- !app_assoc. reflexivity. }
    intros H.
    assert (Hsent : sent = sent').
    { destruct (connection_execute sent') as [columns rows|e|e];
        [destruct (DataFrame rows columns)|..]; cbn [sql_executed] in H;
        now injection H as <-. }
    subst sent. tauto.
Qed.

End Generator.

Lemma execute_query_gate_witness :
  sql_executed
    (execute_query words_parse dangerous_keywords read_only_keywords to_set
       None nat unit unit (fun _ => Fetched [L "id"] [1; 2])
       (fun _ _ => Returned tt) (fun _ => tt) (fun _ => 2)
       (fun _ => [L "id"]) (L "SELECT id FROM users") 100)
  = Some (L "SELECT id FROM users LIMIT 100").
Proof.
  assert (H : exists sent,
             sql_executed
               (execute_query words_parse dangerous_keywords
                  read_only_keywords to_set None nat unit unit
                  (fun _ => Fetched [L "id"] [1; 2])
                  (fun _ _ => Returned tt) (fun _ => tt) (fun _ => 2)
                  (fun _ => [L "id"]) (L "SELECT id FROM users") 100)
             = Some sent) by (eexists; vm_compute; reflexivity).
  destruct H as [sent H]. rewrite H. f_equal.
  destruct (proj2 (execute_query_gate words_parse dangerous_keywords
                     read_only_keywords to_set None nat unit unit
                     (fun _ => Fetched [L "id"] [1; 2])
                     (fun _ _ => Returned tt) (fun _ => tt) (fun _ => 2)
                     (fun _ => [L "id"]) (L "SELECT id FROM users") 100)
             sent H) as (_ & _ & [E | E] & _).
  - exfalso. rewrite E in H. vm_compute in H. discriminate H.
  - rewrite E. vm_compute. reflexivity.
Defined.

End CleanFacts.

(** ** The helper functions *)

Module HelperFacts.

Import Statements Sqlparse QueryValidator FewShotLearning Helpers.
Import PyStrFacts RetrieverFacts SecurityFacts SanitizeFacts PipelineFacts.

(** *** [sanitize_sql_input] *)

Lemma replace_from_incl old k s c :
  In c (replace_from old [] k s) -> In c s.
Proof.
  revert k. induction s as [|x s IH]; intros k; cbn [replace_from];
    [tauto|].
  destruct k as [|k].
  - destruct (startswith old (x :: s)); cbn [app].
    + intros H. right. now apply IH in H.
    + intros [<- | H]; [now left | right; now apply IH in H].
  - intros H. right. now apply IH in H.
Qed.

Lemma replace_from_length old k s :
  length (replace_from old [] k s) <= length s.
Proof.
  revert k. induction s as [|x s IH]; intros k; cbn [replace_from length];
    [lia|].
  destruct k as [|k].
  - destruct (startswith old (x :: s)); cbn [app length].
    + specialize (IH (length old - 1)). lia.
    + specialize (IH 0). lia.
  - specialize (IH k). lia.
Qed.

Lemma flat_map_singleton (s : str) : flat_map (fun c => [c]) s = s.
Proof. induction s as [|c s IH]; cbn [flat_map app]; congruence. Qed.

Lemma replace_incl old s c : In c (replace old [] s) -> In c s.
Proof.
  unfold replace. destruct old as [|o old].
  - cbn [app]. now rewrite flat_map_singleton.
  - apply replace_from_incl.
Qed.

Lemma replace_length old s : length (replace old [] s) <= length s.
Proof.
  unfold replace. destruct old as [|o old].
  - cbn [app]. rewrite flat_map_singleton. lia.
  - apply replace_from_length.
Qed.

Lemma replace_char_gone c s : ~ In c (replace [c] [] s).
Proof.
  unfold replace. induction s as [|x s IH]; cbn [replace_from length];
    [tauto|].
  cbn [startswith Nat.sub]. rewrite andb_true_r.
  destruct (char_eqb c x) eqn:E; cbn [app]; [exact IH|].
  intros [-> | H]; [now rewrite char_eqb_refl in E | now apply IH].
Qed.

Lemma collapse_incl s c : In c (collapse s) -> In c s \/ c = ch " ".
Proof.
  remember (length s) as n eqn:Hn.
  assert (Hle : length s <= n) by lia. clear Hn.
  revert s Hle. induction n as [|n IH]; intros s Hle.
  - destruct s; [intros [] | simpl in Hle; lia].
  - destruct s as [|x s]; [intros []|]. simpl in Hle.
    rewrite collapse_cons. destruct (is_space x).
    + intros [<- | H]; [now right|].
      apply IH in H; [|pose proof (drop_spaces_length s); lia].
      destruct H as [H | H]; [left | now right].
      right. destruct (drop_spaces_suffix s) as [a ->].
      apply in_or_app. now right.
    + intros [<- | H]; [left; now left|].
      apply IH in H; [|lia]. destruct H as [H | H]; [left; now right | now right].
Qed.

Lemma sanitize_sql_input_unfold user_input :
  sanitize_sql_input user_input =
  strip (collapse (fold_left (fun sanitized char => replace char [] sanitized)
                     dangerous_chars user_input)).
Proof.
  unfold sanitize_sql_input, re_sub. cbv zeta.
  destruct sanitize_patterns_compile as (_ & _ & ->). reflexivity.
Qed.

Lemma removals_incl markers s c :
  In c (fold_left (fun sanitized char => replace char [] sanitized)
          markers s) -> In c s.
Proof.
  revert s. induction markers as [|m l IH]; intros s; cbn [fold_left];
    [tauto|].
  intros H. apply IH in H. now apply replace_incl in H.
Qed.

Lemma removals_length markers s :
  length (fold_left (fun sanitized char => replace char [] sanitized)
            markers s) <= length s.
Proof.
  revert s. induction markers as [|m l IH]; intros s; cbn [fold_left];
    [lia|].
  pose proof (IH (replace m [] s)). pose proof (replace_length m s). lia.
Qed.

(** X21.  The text that [sanitize_sql_input] returns holds no semicolon,
    its whitespace is single blanks with none at either end, and it is
    not longer than the input.  (The markers of two and three characters
    are each removed in one pass and can be left by a later removal.) *)
Theorem sanitized_input_shape (user_input : str) :
  let sanitized := sanitize_sql_input user_input in
  ~ In (ch ";") sanitized /\
  single_spaced sanitized = true /\
  trimmed sanitized /\
  length sanitized <= length user_input.
Proof.
  cbv zeta. rewrite sanitize_sql_input_unfold. repeat split.
  - intros H. apply strip_incl in H. apply collapse_incl in H.
    destruct H as [H | H]; [|vm_compute in H; discriminate H].
    unfold dangerous_chars in H. cbn [fold_left] in H.
    apply (removals_incl [L "--"; L "/*"; L "*/"; L "xp_"; L "sp_"]) in H.
    now apply (replace_char_gone (ch ";")) in H.
  - apply strip_single_spaced, collapse_single_spaced.
  - apply strip_trimmed.
  - apply strip_trimmed.
  - pose proof (strip_length
                  (collapse (fold_left
                               (fun sanitized char => replace char [] sanitized)
                               dangerous_chars user_input))).
    pose proof (collapse_length
                  (fold_left (fun sanitized char => replace char [] sanitized)
                     dangerous_chars user_input)).
    pose proof (removals_length dangerous_chars user_input). lia.
Qed.

(** A marker that a later removal leaves behind. *)
Example sanitize_sql_input_leaves_a_marker :
  sanitize_sql_input (L "1 -/*- DROP TABLE users") = L "1 -- DROP TABLE users".
Proof. vm_compute. reflexivity. Qed.

(** *** [sanitize_query] and the statement count *)

Lemma count_char_absent c s : ~ In c s -> count [c] s = 0.
Proof.
  unfold count. induction s as [|x s IH]; cbn [count_from]; [reflexivity|].
  intros H. cbn [startswith]. rewrite andb_true_r.
  destruct (char_eqb c x) eqn:E.
  - apply char_eqb_eq in E. subst x. exfalso. apply H. now left.
  - apply IH. intros Hin. apply H. now right.
Qed.

(** X22.  The text that [sanitize_query] returns holds no semicolon, so
    the statement count of the security phase is satisfied by every
    sanitized text; its whitespace is single blanks with none at either
    end, and it is not longer than the input. *)
Theorem sanitized_query_is_one_statement (sql_query : str) :
  let sanitized := sanitize_query sql_query in
  ~ In (ch ";") sanitized /\
  (1 <? count (L ";") sanitized) = false /\
  single_spaced sanitized = true /\
  trimmed sanitized /\
  length sanitized <= length sql_query.
Proof.
  cbv zeta. destruct (sanitize_shape sql_query) as (Hs & Ht & Hc).
  cbv zeta in Hs, Ht, Hc.
  assert (Hno : ~ In (ch ";") (sanitize_query sql_query)).
  { intros H. apply contains_char in H.
    change [ch ";"] with (L ";") in H. congruence. }
  split; [exact Hno|]. split.
  - change (L ";") with [ch ";"]. now rewrite count_char_absent.
  - split; [exact Hs|]. split; [exact Ht|].
    pose proof (sanitize_length_chain sql_query) as H. cbv zeta in H. lia.
Qed.

(** *** [format_results_for_display] *)

(** X23.  [format_results_for_display] shows a prefix of the rows;
    [truncated] is true exactly when fewer rows are shown than there
    are, for every integer [max_rows]; and when [max_rows] is not
    negative the number of rows shown is the smaller of [max_rows] and
    the number of rows. *)
Theorem display_truncation {V : Type} (results : list (PyDict.dict V))
    (max_rows : Z) :
  let d := format_results_for_display results max_rows in
  (exists rest, results = data d ++ rest) /\
  total_rows d = length results /\
  displayed_rows d = length (data d) /\
  (truncated d = true <-> displayed_rows d < total_rows d) /\
  ((0 <= max_rows)%Z ->
   displayed_rows d = Nat.min (Z.to_nat max_rows) (length results)).
Proof.
  cbv zeta. unfold format_results_for_display.
  destruct results as [|first rest].
  - cbn [data total_rows displayed_rows truncated length].
    repeat split; try discriminate; try lia. now exists [].
  - set (results := first :: rest).
    cbn [data total_rows displayed_rows truncated].
    unfold slice_to.
    assert (Hlen : 0 < length results) by (cbn [results length]; lia).
    clearbody results.
    split; [|split; [reflexivity|split; [reflexivity|]]].
    + destruct (0 <=? max_rows)%Z; eexists; symmetry; apply firstn_skipn.
    + rewrite Z.ltb_lt.
      destruct (Z.leb_spec 0 max_rows) as [Hpos | Hneg];
        rewrite length_firstn; split; try split; intros; lia.
Qed.

Lemma display_truncation_witness :
  displayed_rows
    (format_results_for_display
       [[(L "id", 1)]; [(L "id", 2)]; [(L "id", 3)]] 2)
  = Nat.min (Z.to_nat 2) 3.
Proof.
  apply (proj2 (proj2 (proj2 (proj2
           (display_truncation [[(L "id", 1)]; [(L "id", 2)]; [(L "id", 3)]]
              2))))).
  lia.
Defined.

(** *** [validate_natural_language_query] *)

Lemma find_none_all {A : Type} (f : A -> bool) l :
  find f l = None <-> forall x, In x l -> f x = false.
Proof.
  induction l as [|a l IH]; cbn [find].
  - split; [intros _ x [] | reflexivity].
  - destruct (f a) eqn:E.
    + split; [discriminate|]. intros H. rewrite (H a) in E by now left.
      discriminate.
    + rewrite IH. split.
      * intros H x [<- | Hx]; auto.
      * intros H x Hx. apply H. now right.
Qed.

(** X24.  [validate_natural_language_query] accepts a question exactly
    when its stripped form has at least 3 characters, the question itself
    has at most 1000, and its upper-cased form contains none of SELECT,
    FROM, WHERE, JOIN, GROUP BY, ORDER BY; and then the message is "Valid
    query". *)
Theorem accepted_question_iff (query : str) :
  (fst (validate_natural_language_query query) = true <->
   3 <= length (strip query) /\ length query <= 1000 /\
   forall keyword, In keyword sql_keywords ->
     contains keyword (upper query) = false) /\
  (fst (validate_natural_language_query query) = true ->
   snd (validate_natural_language_query query) = L "Valid query").
Proof.
  unfold validate_natural_language_query. cbv zeta.
  destruct (match query with [] => true | _ => false end
            || match strip query with [] => true | _ => false end) eqn:E0.
  - cbn [fst]. split; [|discriminate]. split; [discriminate|].
    intros (H3 & _ & _). apply orb_true_iff in E0.
    destruct E0 as [E0 | E0].
    + destruct query; [|discriminate]. cbn in H3. lia.
    + destruct (strip query); [|discriminate]. cbn in H3. lia.
  - destruct (Nat.ltb_spec (length (strip query)) 3) as [H3 | H3].
    + cbn [fst]. split; [|discriminate]. split; [discriminate | lia].
    + destruct (Nat.ltb_spec 1000 (length query)) as [Hl | Hl].
      * cbn [fst]. split; [|discriminate]. split; [discriminate | lia].
      * destruct (find _ sql_keywords) as [keyword|] eqn:Ef.
        -- cbn [fst]. split; [|discriminate]. split; [discriminate|].
           intros (_ & _ & Hk). apply find_some in Ef.
           destruct Ef as [Hin Hc]. now rewrite (Hk keyword Hin) in Hc.
        -- cbn [fst snd]. split; [|reflexivity]. split; [|reflexivity].
           intros _. repeat split; try assumption.
           now apply find_none_all.
Qed.

Lemma accepted_question_iff_witness :
  fst (validate_natural_language_query (L "Show me all users")) = true /\
  snd (validate_natural_language_query (L "Show me all users"))
  = L "Valid query".
Proof.
  assert (H : fst (validate_natural_language_query (L "Show me all users"))
              = true) by (vm_compute; reflexivity).
  split; [exact H|].
  exact (proj2 (accepted_question_iff (L "Show me all users")) H).
Defined.

(** *** An accepted question has a word *)

Lemma accepted_not_blank query :
  fst (validate_natural_language_query query) = true -> strip query <> [].
Proof.
  unfold validate_natural_language_query.
  destruct (match query with [] => true | _ => false end
            || match strip query with [] => true | _ => false end) eqn:E0;
    [discriminate|].
  intros _. apply orb_false_iff in E0. destruct E0 as [_ E0].
  now destruct (strip query).
Qed.

Lemma all_space_strip s :
  forallb is_space s = true -> strip s = [].
Proof.
  intros H. unfold strip, lstrip.
  assert (E : drop_spaces s = []).
  { induction s as [|c s IH]; [reflexivity|]. cbn [forallb] in H.
    apply andb_true_iff in H. destruct H as [Hc Hs].
    cbn [drop_spaces]. rewrite Hc. now apply IH. }
  now rewrite E.
Qed.

Lemma is_space_points c : is_space c = true -> In c space_points.
Proof.
  unfold is_space. cbn [existsb]. intros H.
  repeat (apply orb_true_iff in H; destruct H as [H | H]);
    try discriminate;
    first [apply in_range_true in H | apply char_eqb_eq in H];
    unfold space_points; cbn [In]; lia.
Qed.

Lemma run_image_clear c run l :
  run_clear run = true -> run_image c run = Some l -> is_space l = false.
Proof.
  destruct run as [[[first last] step] image]. unfold run_clear, run_image.
  intros Hclear H.
  destruct (in_range first last c && N.eqb ((c - first) mod step) 0)%N
    eqn:E; [|discriminate].
  injection H as <-. apply andb_true_iff in E. destruct E as [E _].
  apply in_range_true in E.
  destruct (is_space (image + (c - first))%N) eqn:Es; [|reflexivity].
  apply is_space_points in Es.
  rewrite forallb_forall in Hclear. specialize (Hclear _ Es).
  apply negb_true_iff, in_range_false in Hclear. lia.
Qed.

Lemma lower_simple_clear c runs l :
  forallb run_clear runs = true ->
  lower_simple c runs = Some l -> is_space l = false.
Proof.
  induction runs as [|run runs IH]; cbn [forallb lower_simple];
    [discriminate|].
  intros Hclear. apply andb_true_iff in Hclear.
  destruct Hclear as [Hrun Hruns].
  destruct (run_image c run) as [l'|] eqn:E.
  - intros H. injection H as <-. exact (run_image_clear _ _ _ Hrun E).
  - now apply IH.
Qed.

Lemma lower_char_not_space c :
  is_space c = false ->
  exists c' rest, lower_char c = c' :: rest /\ is_space c' = false.
Proof.
  intros Hc. unfold lower_char. destruct (is_upper c) eqn:Eu.
  - eexists _, []. split; [reflexivity|].
    unfold is_upper in Eu. apply in_range_true in Eu.
    unfold is_space. cbn [existsb].
    repeat (apply orb_false_iff; split);
      first [reflexivity | apply in_range_false; lia | apply char_eqb_neq; lia].
  - destruct (is_ascii c).
    + exists c, []. split; [reflexivity | exact Hc].
    + destruct (char_eqb c dotted_I).
      * eexists _, _. split; [reflexivity | vm_compute; reflexivity].
      * destruct (lower_simple c lower_runs) as [l|] eqn:El.
        -- exists l, []. split; [reflexivity|].
           apply (lower_simple_clear c lower_runs); [|exact El].
           vm_compute. reflexivity.
        -- exists c, []. split; [reflexivity | exact Hc].
Qed.

Lemma split_words_nonempty cur s :
  cur <> [] \/ existsb (fun c => negb (is_space c)) s = true ->
  split_words cur s <> [].
Proof.
  revert cur. induction s as [|c s IH]; intros cur H; cbn [split_words].
  - destruct H as [H | H]; [|discriminate]. now destruct cur.
  - destruct (is_space c) eqn:E.
    + destruct cur; [|discriminate]. apply IH.
      destruct H as [H | H]; [congruence|]. cbn [existsb] in H.
      rewrite E in H. now right.
    + apply IH. left. discriminate.
Qed.

Lemma lower_from_keeps_a_word before s :
  existsb (fun c => negb (is_space c)) s = true ->
  existsb (fun c => negb (is_space c)) (lower_from before s) = true.
Proof.
  revert before.
  induction s as [|c s IH]; intros before; cbn [existsb lower_from];
    [discriminate|].
  rewrite existsb_app. intros H. apply orb_true_iff in H.
  destruct H as [H | H].
  - apply negb_true_iff in H. destruct (char_eqb c capital_sigma).
    + destruct (final_sigma before s); reflexivity.
    + destruct (lower_char_not_space c H) as (c' & rest & -> & Hc').
      cbn [existsb]. now rewrite Hc'.
  - rewrite (IH _ H). apply orb_true_r.
Qed.

Lemma lower_keeps_a_word s :
  existsb (fun c => negb (is_space c)) s = true ->
  existsb (fun c => negb (is_space c)) (lower s) = true.
Proof. apply lower_from_keeps_a_word. Qed.

Lemma strip_nonempty_word s :
  strip s <> [] -> existsb (fun c => negb (is_space c)) s = true.
Proof.
  intros H. destruct (existsb _ s) eqn:E; [reflexivity|]. exfalso.
  apply H, all_space_strip. apply forallb_forall. intros c Hc.
  destruct (is_space c) eqn:Ec; [reflexivity|].
  assert (existsb (fun c => negb (is_space c)) s = true); [|congruence].
  apply existsb_exists. exists c. now rewrite Ec.
Qed.

(** X25.  A question that [validate_natural_language_query] accepts has
    at least one word, so [get_similar_examples] answers it with a list
    for every store and every limit: the division by zero needs a
    question without a word. *)
Theorem accepted_question_is_retrievable (query : str)
    (examples : list Example) (limit : Z) :
  fst (validate_natural_language_query query) = true ->
  split (lower query) <> [] /\
  exists similar, get_similar_examples examples query limit = Returned similar.
Proof.
  intros H. apply accepted_not_blank in H.
  assert (Hw : split (lower query) <> []).
  { unfold split. apply split_words_nonempty. right.
    now apply lower_keeps_a_word, strip_nonempty_word. }
  split; [exact Hw|].
  unfold get_similar_examples. rewrite collect_returns.
  - eexists. reflexivity.
  - intros e _. unfold word_count_max.
    destruct (split (lower query)); [congruence|]. cbn [length]. lia.
Qed.

Lemma accepted_question_is_retrievable_witness :
  exists similar,
    get_similar_examples
      (add_example default_examples (L " ") (L "SELECT 1") (L "custom")
         (L "medium"))
      (L "Show me all users") 3
    = Returned similar.
Proof.
  apply (accepted_question_is_retrievable (L "Show me all users")).
  vm_compute. reflexivity.
Defined.

(** *** The name extractors *)

Section Parser.

Variable parse : str -> outcome (list statement).
Variable list_of_set : list str -> list str.

(** X26.  For a text of one statement, every name that
    [extract_tables_from_sql] or [extract_columns_from_sql] reports is
    among the tables that the validator reports for it: the validator
    files the names at every depth, column names included, as tables. *)
Theorem helper_names_are_validator_tables (sql_query : str)
    (statement : statement) (t : str) :
  (forall l x, In x (list_of_set l) <-> In x l) ->
  parse sql_query = Returned [statement] ->
  In t (extract_tables_from_sql parse list_of_set sql_query) \/
  In t (extract_columns_from_sql parse list_of_set sql_query) ->
  In t (Info.tables_used (_extract_query_info parse list_of_set sql_query)).
Proof.
  intros Hset Hparse H. rewrite query_info_eq, Hparse.
  cbn [Info.tables_used]. apply Hset.
  unfold extract_tables_from_sql, extract_columns_from_sql in H.
  rewrite Hparse in H. cbv zeta in H. cbn [flat_map] in H.
  rewrite !app_nil_r in H.
  destruct H as [H | H]; apply (proj1 (Hset _ _)) in H;
    apply in_flat_map in H;
    destruct H as (token & Htok & H); apply in_flat_map; exists token;
    (split; [exact Htok|]).
  - destruct token as [ttype v | cls ts]; [exact H | destruct H].
  - destruct token as [ttype v | cls ts]; [destruct H|].
    cbn [names]. apply in_flat_map in H. destruct H as (sub & Hsub & H).
    apply in_flat_map. exists sub. split; [exact Hsub|].
    destruct sub as [ttype v | cls' ts']; [exact H | destruct H].
Qed.

End Parser.

Lemma helper_names_are_validator_tables_witness :
  In (L "users")
    (Info.tables_used
       (_extract_query_info words_parse to_set (L "SELECT name FROM users"))).
Proof.
  apply (helper_names_are_validator_tables words_parse to_set
           (L "SELECT name FROM users")
           (map word_token (split (L "SELECT name FROM users")))
           (L "users")).
  - intros l x. unfold to_set. apply nodup_In.
  - vm_compute. reflexivity.
  - left. vm_compute. right. right. left. reflexivity.
Defined.

End HelperFacts.

(** ** The schema extractor *)

Module SchemaFacts.

Import Statements QueryValidator PyDict SchemaExtractor.
Import PyStrFacts StoreFacts.

Lemma format_foreign_keys_usable fks formatted :
  forallb usable fks = true ->
  exists rest, format_foreign_keys fks formatted = Returned (formatted ++ rest).
Proof.
  revert formatted. induction fks as [|fk fks IH]; intros formatted H;
    cbn [format_foreign_keys].
  - exists []. now rewrite app_nil_r.
  - cbn [forallb] in H. apply andb_true_iff in H. destruct H as [Hfk Hfks].
    unfold usable in Hfk.
    destruct (constrained_columns fk) as [|a ca]; [discriminate|].
    destruct (referred_columns fk) as [|b cb]; [discriminate|].
    cbn [first].
    destruct (IH (formatted ++ L "  Foreign Key: " ++ a ++ L " -> "
                  ++ referred_table fk ++ L "." ++ b ++ [newline]) Hfks)
      as [rest ->].
    eexists. rewrite <- app_assoc. reflexivity.
Qed.

Lemma format_foreign_keys_unusable fks formatted :
  forallb usable fks = false ->
  format_foreign_keys fks formatted = Raised (L "list index out of range").
Proof.
  revert formatted. induction fks as [|fk fks IH]; intros formatted H;
    cbn [format_foreign_keys]; [discriminate|].
  cbn [forallb] in H. unfold usable in H at 1.
  destruct (constrained_columns fk) as [|a ca]; [reflexivity|].
  destruct (referred_columns fk) as [|b cb]; [reflexivity|].
  cbn [first]. apply IH. exact H.
Qed.

Lemma column_lines_loop cols formatted :
  fold_left
    (fun formatted_schema column => formatted_schema ++ column_line column)
    cols formatted
  = formatted ++ concat (map column_line cols).
Proof.
  revert formatted. induction cols as [|c cols IH]; intros formatted;
    cbn [fold_left map concat].
  - now rewrite app_nil_r.
  - rewrite IH. now rewrite <- app_assoc.
Qed.

Lemma contains_concat needle (l : list str) :
  In needle l -> contains needle (concat l) = true.
Proof.
  intros H. apply in_split in H. destruct H as (a & b & ->).
  rewrite concat_app. cbn [concat]. apply contains_iff.
  exists (concat a), (concat b). reflexivity.
Qed.

Lemma contains_app_r n a b :
  contains n b = true -> contains n (a ++ b) = true.
Proof. intros H. apply (contains_suffix n b); [now exists a | exact H]. Qed.

Lemma format_tables_usable schema_tables formatted :
  (forall entry, In entry schema_tables ->
     forallb usable (foreign_keys (snd entry)) = true) ->
  exists rest,
    format_tables schema_tables formatted = Returned (formatted ++ rest) /\
    forall table_name table_info,
      In (table_name, table_info) schema_tables ->
      contains (L "Table: " ++ table_name ++ [newline]) rest = true /\
      forall column, In column (columns table_info) ->
        contains (column_line column) rest = true.
Proof.
  revert formatted.
  induction schema_tables as [|[n i] l IH]; intros formatted H;
    cbn [format_tables].
  - exists []. rewrite app_nil_r. split; [reflexivity | intros ? ? []].
  - rewrite column_lines_loop.
    set (head := formatted ++ L "Table: " ++ n ++ [newline]).
    set (keyed := match primary_keys i with
                  | [] => head ++ concat (map column_line (columns i))
                  | _ :: _ =>
                      (head ++ concat (map column_line (columns i)))
                      ++ L "  Primary Key: "
                      ++ join (L ", ") (primary_keys i) ++ [newline]
                  end).
    assert (Hkeyed : exists pk,
               keyed = (head ++ concat (map column_line (columns i))) ++ pk).
    { unfold keyed. destruct (primary_keys i).
      - exists []. now rewrite app_nil_r.
      - eexists. reflexivity. }
    destruct Hkeyed as [pk Hpk].
    replace (match primary_keys i with
             | [] => head ++ concat (map column_line (columns i))
             | _ :: _ => _
             end) with keyed by (unfold keyed; now destruct (primary_keys i)).
    destruct (format_foreign_keys_usable (foreign_keys i) keyed
                (H (n, i) (or_introl eq_refl))) as [fk ->].
    destruct (IH ((keyed ++ fk) ++ [newline])
                (fun entry Hin => H entry (or_intror Hin)))
      as (rest & -> & Hrest).
    exists (L "Table: " ++ n ++ [newline]
            ++ concat (map column_line (columns i)) ++ pk ++ fk ++ [newline]
            ++ rest).
    split.
    { rewrite Hpk. unfold head. now rewrite <- !app_assoc. }
    intros table_name table_info [E | Hin].
    + injection E as <- <-. split.
      * apply contains_iff. exists []. eexists. cbn [app].
        rewrite <- !app_assoc. reflexivity.
      * intros column Hc.
        apply (contains_app_r _ (L "Table: ")), (contains_app_r _ n),
          (contains_app_r _ [newline]), contains_app_l, contains_concat.
        now apply in_map.
    + destruct (Hrest table_name table_info Hin) as [Ht Hc].
      assert (Hsuf : forall x, contains x rest = true ->
                contains x (L "Table: " ++ n ++ [newline]
                            ++ concat (map column_line (columns i))
                            ++ pk ++ fk ++ [newline] ++ rest) = true).
      { intros x Hx.
        repeat (apply contains_app_r). exact Hx. }
      split; [now apply Hsuf | intros column Hcol; now apply Hsuf, Hc].
Qed.

Lemma format_tables_unusable schema_tables formatted :
  (exists entry, In entry schema_tables /\
     forallb usable (foreign_keys (snd entry)) = false) ->
  format_tables schema_tables formatted
  = Raised (L "list index out of range").
Proof.
  revert formatted.
  induction schema_tables as [|[n i] l IH]; intros formatted (e & Hin & He);
    [destruct Hin|].
  cbn [format_tables].
  destruct (forallb usable (foreign_keys i)) eqn:Ei.
  - match goal with
    | |- context [format_foreign_keys (foreign_keys i) ?x] =>
        destruct (format_foreign_keys_usable (foreign_keys i) x Ei)
          as [fk Hfk]
    end.
    rewrite Hfk. apply IH. exists e. split; [|exact He].
    destruct Hin as [<- | Hin]; [|exact Hin]. cbn [snd] in He. congruence.
  - now rewrite format_foreign_keys_unusable.
Qed.

(** X27.  [format_schema_for_prompt] answers "No schema information
    available" for a missing schema.  When every foreign key has a first
    constrained and a first referred column, it returns a text that
    begins with the heading and holds, for every table of the schema, the
    line "Table: name" and the line of each of its columns.  When some
    foreign key lacks one of them, it raises the index error instead of
    returning a text. *)
Theorem schema_prompt_lists_every_column
    (schema_tables : dict TableInfo) :
  format_schema_for_prompt None
  = Returned (L "No schema information available") /\
  ((forall entry, In entry schema_tables ->
      forallb usable (foreign_keys (snd entry)) = true) ->
   exists text,
     format_schema_for_prompt (Some schema_tables) = Returned text /\
     startswith (L "Database Schema:" ++ [newline; newline]) text = true /\
     forall table_name table_info,
       In (table_name, table_info) schema_tables ->
       contains (L "Table: " ++ table_name ++ [newline]) text = true /\
       forall column, In column (columns table_info) ->
         contains (column_line column) text = true) /\
  ((exists entry, In entry schema_tables /\
      forallb usable (foreign_keys (snd entry)) = false) ->
   format_schema_for_prompt (Some schema_tables)
   = Raised (L "list index out of range")).
Proof.
  split; [reflexivity|]. split.
  - intros H. unfold format_schema_for_prompt.
    destruct (format_tables_usable schema_tables
                (L "Database Schema:" ++ [newline; newline]) H)
      as (rest & -> & Hrest).
    eexists. split; [reflexivity|]. split.
    + apply startswith_iff. eauto.
    + intros table_name table_info Hin.
      destruct (Hrest table_name table_info Hin) as [Ht Hc].
      split; [now apply contains_app_r|].
      intros column Hcol. now apply contains_app_r, Hc.
  - intros H. now apply format_tables_unusable.
Qed.

Lemma schema_prompt_lists_every_column_witness :
  let users :=
    {| columns := [{| name := L "id"; type := L "INTEGER";
                      nullable := Some false |}];
       primary_keys := [L "id"];
       foreign_keys := [] |} in
  exists text,
    format_schema_for_prompt (Some [(L "users", users)]) = Returned text /\
    contains (L "  - id: INTEGER (NOT NULL)" ++ [newline]) text = true.
Proof.
  cbv zeta.
  destruct (proj1 (proj2 (schema_prompt_lists_every_column
                            [(L "users",
                              {| columns := [{| name := L "id";
                                                type := L "INTEGER";
                                                nullable := Some false |}];
                                 primary_keys := [L "id"];
                                 foreign_keys := [] |})])))
    as (text & Ht & _ & Hc).
  - intros entry [<- | []]. reflexivity.
  - exists text. split; [exact Ht|].
    destruct (Hc _ _ (or_introl eq_refl)) as [_ Hcol].
    exact (Hcol _ (or_introl eq_refl)).
Defined.

(** *** [get_database_schema] *)

Section Inspector.

Variable connect : outcome bool.
Variable get_all_tables : outcome (list str).
Variable get_table_schema : str -> option TableInfo.

Lemma add_relationships_returns table fks relationships result :
  add_relationships table fks relationships = Returned result ->
  exists added,
    result = relationships ++ added /\ length added = length fks /\
    forall r, In r added -> from_table r = table.
Proof.
  revert relationships. induction fks as [|fk fks IH]; intros relationships;
    cbn [add_relationships].
  - intros H. injection H as <-. exists []. rewrite app_nil_r.
    repeat split. intros r [].
  - destruct (first (constrained_columns fk)) as [a|e]; [|discriminate].
    destruct (first (referred_columns fk)) as [b|e]; [|discriminate].
    intros H. apply IH in H. destruct H as (added & -> & Hlen & Hfrom).
    eexists (_ :: added). rewrite <- app_assoc. split; [reflexivity|].
    split; [cbn [length]; now rewrite Hlen|].
    intros r [<- | Hr]; [reflexivity | now apply Hfrom].
Qed.

Lemma length_dict_set {V : Type} k (v : V) (d : dict V) :
  length (dict_set k v d) <= S (length d).
Proof.
  induction d as [|[k' v'] d IH]; cbn [dict_set length]; [lia|].
  destruct (str_eqb k k'); cbn [length]; lia.
Qed.

Lemma mem_keys_dict_set {V : Type} k k' (v : V) (d : dict V) :
  mem k (keys d) = true \/ k = k' -> mem k (keys (dict_set k' v d)) = true.
Proof.
  rewrite keys_dict_set. intros [H | ->].
  - destruct (mem k' (keys d)); [exact H|].
    apply mem_true, in_or_app. left. now apply mem_true.
  - destruct (mem k' (keys d)) eqn:E; [exact E|].
    apply mem_true, in_or_app. right. now left.
Qed.

Lemma load_tables_returns all_tables schema_tables relationships result :
  load_tables get_table_schema all_tables schema_tables relationships
  = Returned result ->
  (forall r, In r relationships ->
     mem (from_table r) (keys schema_tables) = true) ->
  (forall r, In r (snd result) ->
     mem (from_table r) (keys (fst result)) = true) /\
  length (fst result) <= length schema_tables + length all_tables /\
  length (snd result)
  = length relationships
    + list_sum (map (foreign_key_count get_table_schema) all_tables).
Proof.
  revert schema_tables relationships.
  induction all_tables as [|table rest IH];
    intros schema_tables relationships; cbn [load_tables].
  - intros H Hinv. injection H as <-. cbn [fst snd map length].
    change (list_sum []) with 0. repeat split; [exact Hinv | lia | lia].
  - assert (Hsum : list_sum (map (foreign_key_count get_table_schema)
                               (table :: rest))
                   = foreign_key_count get_table_schema table
                     + list_sum (map (foreign_key_count get_table_schema)
                                   rest)) by reflexivity.
    rewrite Hsum. unfold foreign_key_count at 1.
    destruct (get_table_schema table) as [table_schema|] eqn:Et.
    + destruct (add_relationships table (foreign_keys table_schema)
                  relationships) as [relationships'|e] eqn:Ea; [|discriminate].
      apply add_relationships_returns in Ea.
      destruct Ea as (added & -> & Hlen & Hfrom).
      intros H Hinv. apply IH in H.
      * destruct H as (H1 & H2 & H3). split; [exact H1|]. split.
        -- pose proof (length_dict_set table table_schema schema_tables).
           cbn [length]. lia.
        -- rewrite H3, length_app, Hlen. lia.
      * intros r Hr. apply mem_keys_dict_set. apply in_app_or in Hr.
        destruct Hr as [Hr | Hr]; [left; now apply Hinv | right; now apply Hfrom].
    + intros H Hinv. apply IH in H; [|exact Hinv].
      destruct H as (H1 & H2 & H3). split; [exact H1|]. split.
      * cbn [length]. lia.
      * rewrite H3. lia.
Qed.

(** X28.  In a schema that [get_database_schema] returns, every
    relationship starts at a table that is a key of [tables]; [tables]
    has at most [total_tables] entries (a table the inspector names but
    cannot read is counted and left out); and [total_relationships] is
    the number of foreign keys of the readable tables the inspector
    named. *)
Theorem schema_summary_counts (schema : Schema) :
  get_database_schema connect get_all_tables get_table_schema
  = Returned (Some schema) ->
  (forall r, In r (relationships schema) ->
     mem (from_table r) (keys (tables schema)) = true) /\
  length (tables schema) <= total_tables (summary schema) /\
  total_relationships (summary schema) = length (relationships schema) /\
  exists all_tables,
    get_all_tables = Returned all_tables /\
    total_tables (summary schema) = length all_tables /\
    total_relationships (summary schema)
    = list_sum (map (foreign_key_count get_table_schema) all_tables).
Proof.
  unfold get_database_schema.
  destruct connect as [[|]|e]; try discriminate.
  destruct get_all_tables as [all_tables|e]; [|discriminate].
  destruct (load_tables get_table_schema all_tables [] [])
    as [[schema_tables rels]|e] eqn:El; [|discriminate].
  intros H. injection H as <-.
  cbn [relationships tables summary total_tables total_relationships].
  apply load_tables_returns in El; [|intros r []].
  cbn [fst snd length] in El. destruct El as (H1 & H2 & H3).
  split; [exact H1|]. split; [lia|]. split; [reflexivity|].
  exists all_tables. repeat split. exact H3.
Qed.

End Inspector.

Lemma schema_summary_counts_witness :
  let orders :=
    {| columns := []; primary_keys := [];
       foreign_keys :=
         [{| constrained_columns := [L "user_id"];
             referred_table := L "users";
             referred_columns := [L "id"] |}] |} in
  let get_table_schema := fun table : str =>
    if str_eqb table (L "orders") then Some orders else None in
  exists schema,
    get_database_schema (Returned true) (Returned [L "users"; L "orders"])
      get_table_schema = Returned (Some schema) /\
    length (tables schema) <= total_tables (summary schema) /\
    total_tables (summary schema) = 2.
Proof.
  intros orders get_table_schema.
  assert (H : exists schema,
             get_database_schema (Returned true)
               (Returned [L "users"; L "orders"]) get_table_schema
             = Returned (Some schema))
    by (eexists; vm_compute; reflexivity).
  destruct H as [schema H]. exists schema. split; [exact H|].
  destruct (schema_summary_counts (Returned true)
              (Returned [L "users"; L "orders"]) get_table_schema schema H)
    as (_ & Hle & _ & all_tables & Hall & Htotal & _).
  split; [exact Hle|]. injection Hall as <-. exact Htotal.
Defined.

End SchemaFacts.
